(** * The agent execution controller of jupyterlite-ai-sap (src/agent.ts)

    A shallow embedding of [AgentManager]: the run loop of
    [generateResponse], the approval operations, [clearHistory],
    [hasValidConfig], [initializeAgent] and the event translation of
    [_processRunResult].

    [generateResponse] is an async function.  Between two [await]s its body
    runs without interruption; at an [await] the UI, a timer or another call
    may run.  The embedding therefore keeps every call that is in flight as a
    frame (the point it is suspended at, with its local variables) next to
    the fields of the manager, and one transition executes the code between
    two suspension points.  What the outside supplies (the items of the
    stream, the interruptions of a settled run, the calls of the UI) labels
    the transition. *)

From Stdlib Require Import String ZArith QArith List Lia Bool.
From Stdlib Require SpecFloat.
From stdpp Require Import base option list gmap strings pretty.

(** ** Values of the collaborators *)

(** A thrown JavaScript value ([error as Error]). *)
Record Error := { message : string }.

(** A parsed JSON document; numbers keep their lexeme. *)
#[local] Unset Elimination Schemes.
Inductive JsValue :=
| JNull
| JBool (b : bool)
| JNumber (lexeme : string)
| JString (s : string)
| JArray (items : list JsValue)
| JObject (members : list (string * JsValue)).
#[local] Set Elimination Schemes.

(** A JavaScript number where the code computes with it: an IEEE 754
    double, in the standard library's specification of binary floating
    point at 53 bits of precision and exponents below 1024. *)
Definition number : Type := SpecFloat.spec_float.

(** [x + y]: the sum rounded to the nearest double, ties to even. *)
Definition number_add (x y : number) : number := SpecFloat.SFadd 53 1024 x y.

(** The number an integer literal denotes: the double nearest to it. *)
Definition double_of (n : Z) : number :=
  SpecFloat.binary_normalize 53 1024 n 0 false.

(** [ITokenUsage] (tokens.ts) *)
Record ITokenUsage := { inputTokens : number; outputTokens : number }.

Record IProviderParameters := {
  temperature : option Q;
  maxTokens : option Z;
  maxTurns : option Z
}.

(** One entry of the provider list of the settings. *)
Record IProviderConfig := {
  pc_id : string;
  pc_provider : string;
  pc_model : string;
  pc_apiKey : option string;
  pc_baseURL : option string;
  pc_parameters : option IProviderParameters
}.

(** The options handed to a provider factory ([IModelOptions]). *)
Record IModelOptions := {
  mo_provider : string;
  mo_model : string;
  mo_apiKey : string;
  mo_baseURL : option string
}.

(** The handle a provider factory returns: what it was built from. *)
Record LanguageModel := {
  lm_provider : string;
  lm_modelId : string;
  lm_apiKey : string;
  lm_baseURL : option string
}.

Record IProviderInfo := {
  pi_id : string;
  apiKeyRequirement : string;
  supportsToolCalling : option bool;
  factory : IModelOptions -> LanguageModel + Error
}.

Record IProviderRegistry := {
  getProviderInfo : string -> option IProviderInfo
}.

Record ITool := { tool_name : string }.

Record IToolRegistry := {
  tools : list (string * ITool);
  registry_get : string -> option ITool
}.

Record ISecretsManager := {
  secrets_get : string -> string -> option string
}.

Record IAIConfig := {
  defaultProvider : string;
  toolsEnabled : bool;
  systemPrompt : string;
  useSecretsManager : bool
}.

(** The part of [AISettingsModel] the manager reads. *)
Record AISettingsModel := {
  config : IAIConfig;
  getProvider : string -> option IProviderConfig;
  getApiKey : string -> string
}.

Record BrowserMCPServerStreamableHttp := { mcp_name : string; mcp_url : string }.

(** The options [new Agent({...})] is built from. *)
Record Agent := {
  agent_name : string;
  instructions : string;
  agent_model : LanguageModel;
  agent_mcpServers : list BrowserMCPServerStreamableHttp;
  agent_tools : list ITool;
  modelSettings : option (Q * option Z)
}.

(** [new Runner({ tracingDisabled: true })]; the serial tells two instances
    apart. *)
Record Runner := { runner_serial : nat; tracingDisabled : bool }.

Record AbortController := { ctl_serial : nat; aborted : bool }.

(** An item of the conversation: [user(message)] or whatever a run put in
    its [history]. *)
Inductive AgentInputItem :=
| user (content : string)
| run_item (role : string) (content : string).

(** [RunToolApprovalItem.rawItem], the fields the manager reads. *)
Record RunToolApprovalItem := {
  rawItem_type : string;
  rawItem_name : option string;
  rawItem_arguments : option string;
  rawItem_callId : option string
}.

(** The run state of a result: an opaque snapshot, and the verdicts that
    [state.approve] ([true]) and [state.reject] ([false]) recorded in it. *)
Record RunState := {
  snapshot : nat;
  verdicts : list (RunToolApprovalItem * bool)
}.

(** A [StreamedRunResult] object. *)
Record StreamedRunResult := {
  state : RunState;
  interruptions : list RunToolApprovalItem;
  history : list AgentInputItem
}.

(** ** The streamed items *)

Inductive ModelEvent :=
| tool_call (toolCallId toolName input : string)
| other_model_event (type : string).

Inductive RawModelData :=
| response_started
| output_text_delta (delta : option string)
| response_done (usage : ITokenUsage)
| model (event : ModelEvent)
| other_data (type : string).

Inductive ToolOutput :=
| OutText (text : string)
| OutValue (v : JsValue).

Record RunToolCallOutputItem := {
  out_type : string;
  out_callId : string;
  out_status : string;
  out_name : string;
  output : ToolOutput
}.

Inductive RunStreamEvent :=
| raw_model_stream_event (data : RawModelData)
| run_item_stream_event (name : string) (item : RunToolCallOutputItem)
| other_stream_event (type : string).

(** ** The events of the manager ([IAgentEventTypeMap]) *)

Inductive IAgentEvent :=
| message_start (messageId : string)
| message_chunk (messageId chunk fullContent : string)
| message_complete (messageId content : string)
| tool_call_start (callId toolName input : string)
| tool_call_complete (callId toolName output : string) (isError : bool)
| tool_approval_required (interruptionId toolName toolInput : string)
    (callId : option string)
| grouped_approval_required (groupId : string)
    (approvals : list (string * string * string))
| error (e : Error).

(** Everything the manager lets out, in order: the [agentEvent] signal, the
    [tokenUsageChanged] signal and [console.warn]. *)
Inductive Output :=
| AgentEvent (e : IAgentEvent)
| TokenUsageChanged (u : ITokenUsage)
| ConsoleWarn (text : string) (detail : option Error).

(** ** The manager *)

(** An entry of [_pendingApprovals]. *)
Record PendingApproval := {
  interruption : RunToolApprovalItem;
  approved : option bool;
  groupId : option string
}.

(** The private attributes of [AgentManager].  [_interruptedState] holds a
    reference to a result object of the heap. *)
Record AgentManager := {
  _settingsModel : AISettingsModel;
  _toolRegistry : option IToolRegistry;
  _providerRegistry : option IProviderRegistry;
  _secretsManager : option ISecretsManager;
  _selectedToolNames : list string;
  _agent : option Agent;
  _runner : Runner;
  _history : list AgentInputItem;
  _mcpServers : list BrowserMCPServerStreamableHttp;
  _isInitializing : bool;
  _controller : option AbortController;
  _pendingApprovals : gmap string PendingApproval;
  _interruptedState : option nat;
  _tokenUsage : ITokenUsage;
  _activeProvider : string
}.

(** What [Runner.run] is called on: the history (first run of a call) or the
    state of an interrupted result (resumed run). *)
Inductive RunInput :=
| FromHistory (items : list AgentInputItem)
| FromState (st : RunState).

(** One invocation of [this._runner.run(agent, input, options)]. *)
Record RunCall := {
  rc_runner : Runner;
  rc_agent : option Agent;
  rc_input : RunInput;
  rc_signal : AbortController;
  rc_maxTurns : option Z
}.

(** The local variables of [_processRunResult]. *)
Record StreamLocals := {
  fullResponse : string;
  currentMessageId : option string
}.

(** A call in flight, suspended at an [await]. *)
Inductive Frame :=
| GInit (started : bool) (msg : string)
    (** generateResponse at [await this.initializeAgent()]; [started] tells
        whether that call passed the [_isInitializing] guard *)
| GAwaitRun (maxTurns : Z)
    (** at [await this._runner.run(...)] *)
| GStream (result : nat) (maxTurns : Z) (loc : StreamLocals)
    (** inside [for await (const event of result)] *)
| GWait (result : nat) (maxTurns : Z)
    (** at [await new Promise(resolve => setTimeout(resolve, 100))] *)
| IInit
    (** initializeAgent called on its own, at [await this._createModel()] *)
| Settled.

(** The manager with its surroundings. *)
Record Sys := {
  mgr : AgentManager;
  heap : list StreamedRunResult;
  frames : list Frame;
  draws : nat;
  serials : nat;
  out : list Output;
  runs : list RunCall
}.

(** ** Field updates

    [set_f v m] is [m] after the assignment [this.f = v]. *)

Definition set_selectedToolNames (v : list string) (m : AgentManager) : AgentManager :=
  {| _settingsModel := _settingsModel m;
     _toolRegistry := _toolRegistry m;
     _providerRegistry := _providerRegistry m;
     _secretsManager := _secretsManager m;
     _selectedToolNames := v;
     _agent := _agent m;
     _runner := _runner m;
     _history := _history m;
     _mcpServers := _mcpServers m;
     _isInitializing := _isInitializing m;
     _controller := _controller m;
     _pendingApprovals := _pendingApprovals m;
     _interruptedState := _interruptedState m;
     _tokenUsage := _tokenUsage m;
     _activeProvider := _activeProvider m |}.

Definition set_agent (v : option Agent) (m : AgentManager) : AgentManager :=
  {| _settingsModel := _settingsModel m;
     _toolRegistry := _toolRegistry m;
     _providerRegistry := _providerRegistry m;
     _secretsManager := _secretsManager m;
     _selectedToolNames := _selectedToolNames m;
     _agent := v;
     _runner := _runner m;
     _history := _history m;
     _mcpServers := _mcpServers m;
     _isInitializing := _isInitializing m;
     _controller := _controller m;
     _pendingApprovals := _pendingApprovals m;
     _interruptedState := _interruptedState m;
     _tokenUsage := _tokenUsage m;
     _activeProvider := _activeProvider m |}.

Definition set_runner (v : Runner) (m : AgentManager) : AgentManager :=
  {| _settingsModel := _settingsModel m;
     _toolRegistry := _toolRegistry m;
     _providerRegistry := _providerRegistry m;
     _secretsManager := _secretsManager m;
     _selectedToolNames := _selectedToolNames m;
     _agent := _agent m;
     _runner := v;
     _history := _history m;
     _mcpServers := _mcpServers m;
     _isInitializing := _isInitializing m;
     _controller := _controller m;
     _pendingApprovals := _pendingApprovals m;
     _interruptedState := _interruptedState m;
     _tokenUsage := _tokenUsage m;
     _activeProvider := _activeProvider m |}.

Definition set_history (v : list AgentInputItem) (m : AgentManager) : AgentManager :=
  {| _settingsModel := _settingsModel m;
     _toolRegistry := _toolRegistry m;
     _providerRegistry := _providerRegistry m;
     _secretsManager := _secretsManager m;
     _selectedToolNames := _selectedToolNames m;
     _agent := _agent m;
     _runner := _runner m;
     _history := v;
     _mcpServers := _mcpServers m;
     _isInitializing := _isInitializing m;
     _controller := _controller m;
     _pendingApprovals := _pendingApprovals m;
     _interruptedState := _interruptedState m;
     _tokenUsage := _tokenUsage m;
     _activeProvider := _activeProvider m |}.

Definition set_mcpServers (v : list BrowserMCPServerStreamableHttp) (m : AgentManager) : AgentManager :=
  {| _settingsModel := _settingsModel m;
     _toolRegistry := _toolRegistry m;
     _providerRegistry := _providerRegistry m;
     _secretsManager := _secretsManager m;
     _selectedToolNames := _selectedToolNames m;
     _agent := _agent m;
     _runner := _runner m;
     _history := _history m;
     _mcpServers := v;
     _isInitializing := _isInitializing m;
     _controller := _controller m;
     _pendingApprovals := _pendingApprovals m;
     _interruptedState := _interruptedState m;
     _tokenUsage := _tokenUsage m;
     _activeProvider := _activeProvider m |}.

Definition set_isInitializing (v : bool) (m : AgentManager) : AgentManager :=
  {| _settingsModel := _settingsModel m;
     _toolRegistry := _toolRegistry m;
     _providerRegistry := _providerRegistry m;
     _secretsManager := _secretsManager m;
     _selectedToolNames := _selectedToolNames m;
     _agent := _agent m;
     _runner := _runner m;
     _history := _history m;
     _mcpServers := _mcpServers m;
     _isInitializing := v;
     _controller := _controller m;
     _pendingApprovals := _pendingApprovals m;
     _interruptedState := _interruptedState m;
     _tokenUsage := _tokenUsage m;
     _activeProvider := _activeProvider m |}.

Definition set_controller (v : option AbortController) (m : AgentManager) : AgentManager :=
  {| _settingsModel := _settingsModel m;
     _toolRegistry := _toolRegistry m;
     _providerRegistry := _providerRegistry m;
     _secretsManager := _secretsManager m;
     _selectedToolNames := _selectedToolNames m;
     _agent := _agent m;
     _runner := _runner m;
     _history := _history m;
     _mcpServers := _mcpServers m;
     _isInitializing := _isInitializing m;
     _controller := v;
     _pendingApprovals := _pendingApprovals m;
     _interruptedState := _interruptedState m;
     _tokenUsage := _tokenUsage m;
     _activeProvider := _activeProvider m |}.

Definition set_pendingApprovals (v : gmap string PendingApproval) (m : AgentManager) : AgentManager :=
  {| _settingsModel := _settingsModel m;
     _toolRegistry := _toolRegistry m;
     _providerRegistry := _providerRegistry m;
     _secretsManager := _secretsManager m;
     _selectedToolNames := _selectedToolNames m;
     _agent := _agent m;
     _runner := _runner m;
     _history := _history m;
     _mcpServers := _mcpServers m;
     _isInitializing := _isInitializing m;
     _controller := _controller m;
     _pendingApprovals := v;
     _interruptedState := _interruptedState m;
     _tokenUsage := _tokenUsage m;
     _activeProvider := _activeProvider m |}.

Definition set_interruptedState (v : option nat) (m : AgentManager) : AgentManager :=
  {| _settingsModel := _settingsModel m;
     _toolRegistry := _toolRegistry m;
     _providerRegistry := _providerRegistry m;
     _secretsManager := _secretsManager m;
     _selectedToolNames := _selectedToolNames m;
     _agent := _agent m;
     _runner := _runner m;
     _history := _history m;
     _mcpServers := _mcpServers m;
     _isInitializing := _isInitializing m;
     _controller := _controller m;
     _pendingApprovals := _pendingApprovals m;
     _interruptedState := v;
     _tokenUsage := _tokenUsage m;
     _activeProvider := _activeProvider m |}.

Definition set_tokenUsage (v : ITokenUsage) (m : AgentManager) : AgentManager :=
  {| _settingsModel := _settingsModel m;
     _toolRegistry := _toolRegistry m;
     _providerRegistry := _providerRegistry m;
     _secretsManager := _secretsManager m;
     _selectedToolNames := _selectedToolNames m;
     _agent := _agent m;
     _runner := _runner m;
     _history := _history m;
     _mcpServers := _mcpServers m;
     _isInitializing := _isInitializing m;
     _controller := _controller m;
     _pendingApprovals := _pendingApprovals m;
     _interruptedState := _interruptedState m;
     _tokenUsage := v;
     _activeProvider := _activeProvider m |}.

Definition with_mgr (v : AgentManager) (s : Sys) : Sys :=
  {| mgr := v;
     heap := heap s;
     frames := frames s;
     draws := draws s;
     serials := serials s;
     out := out s;
     runs := runs s |}.

Definition with_heap (v : list StreamedRunResult) (s : Sys) : Sys :=
  {| mgr := mgr s;
     heap := v;
     frames := frames s;
     draws := draws s;
     serials := serials s;
     out := out s;
     runs := runs s |}.

Definition with_frames (v : list Frame) (s : Sys) : Sys :=
  {| mgr := mgr s;
     heap := heap s;
     frames := v;
     draws := draws s;
     serials := serials s;
     out := out s;
     runs := runs s |}.

Definition with_draws (v : nat) (s : Sys) : Sys :=
  {| mgr := mgr s;
     heap := heap s;
     frames := frames s;
     draws := v;
     serials := serials s;
     out := out s;
     runs := runs s |}.

Definition with_serials (v : nat) (s : Sys) : Sys :=
  {| mgr := mgr s;
     heap := heap s;
     frames := frames s;
     draws := draws s;
     serials := v;
     out := out s;
     runs := runs s |}.

Definition with_out (v : list Output) (s : Sys) : Sys :=
  {| mgr := mgr s;
     heap := heap s;
     frames := frames s;
     draws := draws s;
     serials := serials s;
     out := v;
     runs := runs s |}.

Definition with_runs (v : list RunCall) (s : Sys) : Sys :=
  {| mgr := mgr s;
     heap := heap s;
     frames := frames s;
     draws := draws s;
     serials := serials s;
     out := out s;
     runs := v |}.

Definition on_mgr (f : AgentManager -> AgentManager) (s : Sys) : Sys :=
  with_mgr (f (mgr s)) s.

(** [signal.emit(...)] and [console.warn(...)]: one more entry of the log. *)
Definition emit (o : Output) (s : Sys) : Sys := with_out (out s ++ [o]) s.

Definition set_frame (i : nat) (f : Frame) (s : Sys) : Sys :=
  with_frames (<[i := f]> (frames s)) s.

(** JavaScript's [x || d] on an optional string: [undefined] and the empty
    string are falsy. *)
Definition or_else (x : option string) (d : string) : string :=
  match x with
  | Some v => if String.eqb v "" then d else v
  | None => d
  end.

(** [!!x] on an optional string. *)
Definition truthy (x : option string) : bool :=
  match x with
  | Some v => negb (String.eqb v "")
  | None => false
  end.

Definition DEFAULT_TEMPERATURE : Q := 7 # 10.
Definition DEFAULT_MAX_TURNS : Z := 25.

(** ** What lies outside the repository's sources

    [createModel] is providers/models.ts and [SECRETS_NAMESPACE] is
    tokens.ts, neither among the sources verified here; [createSAPModel serviceKey baseURL model]
    stands for [aisdk((await createSAPAIProvider({...}))(model))];
    [JSON_parse] answers [None] where [JSON.parse] throws and
    [JSON_stringify v] is [JSON.stringify(v, null, 2)]; [Date_now n] and
    [Math_random n] are the renderings of the n-th [Date.now()] and
    [Math.random()] inside a template string; [progressReportingPrompt] is
    the constant of [_getEnhancedSystemPrompt]. *)
Record Externals := {
  createModel : IModelOptions -> option IProviderRegistry -> LanguageModel + Error;
  createSAPModel : string -> option string -> string -> LanguageModel + Error;
  JSON_parse : string -> option JsValue;
  JSON_stringify : JsValue -> string;
  Date_now : nat -> string;
  Math_random : nat -> string;
  SECRETS_NAMESPACE : string;
  progressReportingPrompt : string
}.

(** What the outside does to the manager.  The index [i] names a call in
    flight. *)
Inductive Action :=
| CallGenerateResponse (msg : string)
| CallInitializeAgent (mcpServers : option (list BrowserMCPServerStreamableHttp))
| CallSetSelectedTools (toolNames : list string)
| CallApproveToolCall (interruptionId : string)
| CallRejectToolCall (interruptionId : string)
| CallApproveGroupedToolCalls (groupId : string) (interruptionIds : list string)
| CallRejectGroupedToolCalls (groupId : string) (interruptionIds : list string)
| CallClearHistory
| CallStopStreaming
| InitSettled (i : nat)
    (** the awaited model creation of call [i] is over *)
| RunStarted (i : nat) (snap : nat)
    (** [Runner.run] of call [i] resolved with a result whose state is [snap] *)
| RunFailed (i : nat) (e : Error)
    (** [Runner.run] of call [i] rejected *)
| StreamItem (i : nat) (ev : RunStreamEvent)
    (** the stream of call [i] yields [ev] *)
| StreamEnd (i : nat) (ints : list RunToolApprovalItem) (hist : list AgentInputItem)
    (** the stream of call [i] is exhausted; the result now has these
        [interruptions] and this [history] *)
| StreamError (i : nat) (e : Error)
    (** the stream of call [i] throws *)
| Tick (i : nat).
    (** the 100 ms timer of call [i] fires *)

Section Manager.

Variable X : Externals.

(** [`${prefix}${Date.now()}-${Math.random()}`], for the n-th draw. *)
Definition fresh_id (prefix : string) (n : nat) : string :=
  prefix +:+ Date_now X n +:+ "-" +:+ Math_random X n.

Definition bump (s : Sys) : Sys := with_draws (S (draws s)) s.

(** ** Configuration *)

(** agent.ts 853-867 *)
Definition _supportsToolCalling (m : AgentManager) : bool :=
  match getProvider (_settingsModel m) (_activeProvider m), _providerRegistry m with
  | Some activeProviderConfig, Some registry =>
      match getProviderInfo registry (pc_provider activeProviderConfig) with
      | Some providerInfo =>
          match supportsToolCalling providerInfo with
          | Some false => false
          | _ => true
          end
      | None => true
      end
  | _, _ => false
  end.

(** agent.ts 379-401 *)
Definition hasValidConfig (m : AgentManager) : bool :=
  match getProvider (_settingsModel m) (_activeProvider m) with
  | None => false
  | Some activeProviderConfig =>
      if String.eqb (pc_model activeProviderConfig) "" then false
      else
        match _providerRegistry m with
        | Some registry =>
            match getProviderInfo registry (pc_provider activeProviderConfig) with
            | Some providerInfo =>
                if String.eqb (apiKeyRequirement providerInfo) "required"
                then truthy (pc_apiKey activeProviderConfig)
                else true
            | None => true
            end
        | None => true
        end
  end.

(** The [shouldUseTools] of agent.ts 443-448 and 616-621. *)
Definition shouldUseTools (m : AgentManager) : bool :=
  toolsEnabled (config (_settingsModel m))
  && (0 <? length (_selectedToolNames m))
  && match _toolRegistry m with
     | Some registry => 0 <? length (tools registry)
     | None => false
     end
  && _supportsToolCalling m.

(** agent.ts 358-372 *)
Definition selectedAgentTools (m : AgentManager) : list ITool :=
  match _toolRegistry m with
  | None => []
  | Some registry =>
      omap (fun name => registry_get registry name) (_selectedToolNames m)
  end.

(** agent.ts 873-920 *)
Definition _createModel (m : AgentManager) : LanguageModel + Error :=
  if String.eqb (_activeProvider m) "" then
    inr {| message := "No active provider configured" |}
  else
    match getProvider (_settingsModel m) (_activeProvider m) with
    | None => inr {| message := "No active provider configured" |}
    | Some activeProviderConfig =>
        let provider := pc_provider activeProviderConfig in
        let modelName := pc_model activeProviderConfig in
        let baseURL := pc_baseURL activeProviderConfig in
        let apiKey :=
          match _secretsManager m with
          | Some secrets =>
              if useSecretsManager (config (_settingsModel m)) then
                default "" (secrets_get secrets (SECRETS_NAMESPACE X)
                              (provider +:+ ":apiKey"))
              else getApiKey (_settingsModel m) (pc_id activeProviderConfig)
          | None => getApiKey (_settingsModel m) (pc_id activeProviderConfig)
          end in
        if String.eqb provider "sap" then
          createSAPModel X apiKey
            (if truthy baseURL then baseURL else None) modelName
        else
          createModel X
            {| mo_provider := provider; mo_model := modelName;
               mo_apiKey := apiKey; mo_baseURL := baseURL |}
            (_providerRegistry m)
    end.

(** agent.ts 927-960 *)
Definition _getEnhancedSystemPrompt (baseSystemPrompt : string) : string :=
  baseSystemPrompt +:+ progressReportingPrompt X.

(** ** initializeAgent, agent.ts 600-654 *)

(** Up to [await this._createModel()].  The boolean tells whether the call
    got past the guard. *)
Definition initializeAgent_begin
    (mcpServers : option (list BrowserMCPServerStreamableHttp)) (s : Sys)
  : bool * Sys :=
  if _isInitializing (mgr s) then (false, s)
  else
    (true,
     on_mgr (fun m =>
               let m1 := set_isInitializing true m in
               match mcpServers with
               | Some servers => set_mcpServers servers m1
               | None => m1
               end) s).

(** From the settling of [this._createModel()] to the end of [finally].
    The outcome of [_createModel] is taken here, from the manager as it is
    when the call settles; the code starts [_createModel] before it
    suspends (agent.ts 614).  The two are the same along the runs of [step]
    below, no action of which assigns what [_createModel] reads; they differ
    when the setter of [activeProvider] is called in between. *)
Definition initializeAgent_finish (s : Sys) : Sys :=
  let m := mgr s in
  let s1 :=
    match _createModel m with
    | inl created =>
        let use := shouldUseTools m in
        let tools := if use then selectedAgentTools m else [] in
        let activeProviderConfig :=
          getProvider (_settingsModel m) (_activeProvider m) in
        let parameters := activeProviderConfig ≫= pc_parameters in
        let temperature :=
          default DEFAULT_TEMPERATURE (parameters ≫= temperature) in
        let maxTokens := parameters ≫= maxTokens in
        let prompt := systemPrompt (config (_settingsModel m)) in
        on_mgr (set_agent (Some
          {| agent_name := "Assistant";
             instructions :=
               if use then _getEnhancedSystemPrompt (or_else (Some prompt) "")
               else or_else (Some prompt) "You are a helpful assistant.";
             agent_model := created;
             agent_mcpServers := _mcpServers m;
             agent_tools := tools;
             modelSettings :=
               if Qeq_bool temperature 0 then None
               else Some (temperature, maxTokens) |})) s
    | inr e =>
        on_mgr (set_agent None)
          (emit (ConsoleWarn "Failed to initialize agent:" (Some e)) s)
    end in
  on_mgr (set_isInitializing false) s1.

(** agent.ts 347-352 *)
Definition setSelectedTools (toolNames : list string) (s : Sys) : Sys :=
  let s1 := on_mgr (set_selectedToolNames toolNames) s in
  let '(started, s2) := initializeAgent_begin None s1 in
  if started then with_frames (frames s2 ++ [IInit]) s2 else s2.

(** [initializeAgent(mcpServers)] called from outside (the factory, on a
    change of the settings). *)
Definition initializeAgent (mcpServers : option (list BrowserMCPServerStreamableHttp))
    (s : Sys) : Sys :=
  let '(started, s1) := initializeAgent_begin mcpServers s in
  if started then with_frames (frames s1 ++ [IInit]) s1 else s1.

(** ** The event translator *)

(** agent.ts 727-736 *)
Definition _formatToolInput (input : string) : string :=
  match JSON_parse X input with
  | Some parsed => JSON_stringify X parsed
  | None => input
  end.

(** agent.ts 742-755 *)
Definition _handleToolCallStart (toolCallId toolName toolInput : string)
    (s : Sys) : Sys :=
  emit (AgentEvent (tool_call_start toolCallId toolName
                      (_formatToolInput toolInput))) s.

(** agent.ts 761-788 *)
Definition _handleToolOutput (toolCallOutput : RunToolCallOutputItem)
    (s : Sys) : Sys :=
  let callId := out_callId toolCallOutput in
  let resultText :=
    match output toolCallOutput with
    | OutText text => text
    | OutValue v => JSON_stringify X v
    end in
  let isError :=
    String.eqb (out_type toolCallOutput) "function_call_result"
    && String.eqb (out_status toolCallOutput) "incomplete" in
  let toolName :=
    if String.eqb (out_type toolCallOutput) "function_call_result"
    then out_name toolCallOutput else "Unknown Tool" in
  emit (AgentEvent (tool_call_complete callId toolName resultText isError)) s.

(** [this._tokenUsage.inputTokens += inputTokens] and the same for the
    output tokens. *)
Definition add_usage (u : ITokenUsage) (m : AgentManager) : AgentManager :=
  set_tokenUsage
    {| inputTokens := number_add (inputTokens (_tokenUsage m)) (inputTokens u);
       outputTokens := number_add (outputTokens (_tokenUsage m)) (outputTokens u) |}
    m.

(** The body of the loop of [_processRunResult], agent.ts 668-718. *)
Definition process_item (event : RunStreamEvent) (loc : StreamLocals) (s : Sys)
  : StreamLocals * Sys :=
  match event with
  | raw_model_stream_event data =>
      match data with
      | response_started =>
          let id := fresh_id "msg-" (draws s) in
          ({| fullResponse := ""; currentMessageId := Some id |},
           emit (AgentEvent (message_start id)) (bump s))
      | output_text_delta delta =>
          match currentMessageId loc with
          | Some id =>
              let chunk := or_else delta "" in
              let full := fullResponse loc +:+ chunk in
              ({| fullResponse := full; currentMessageId := Some id |},
               emit (AgentEvent (message_chunk id chunk full)) s)
          | None => (loc, s)
          end
      | response_done usage =>
          let '(loc1, s1) :=
            match currentMessageId loc with
            | Some id =>
                ({| fullResponse := fullResponse loc; currentMessageId := None |},
                 emit (AgentEvent (message_complete id (fullResponse loc))) s)
            | None => (loc, s)
            end in
          let s2 := on_mgr (add_usage usage) s1 in
          (loc1, emit (TokenUsageChanged (_tokenUsage (mgr s2))) s2)
      | model (tool_call toolCallId toolName toolInput) =>
          (loc, _handleToolCallStart toolCallId toolName toolInput s)
      | model (other_model_event _) => (loc, s)
      | other_data _ => (loc, s)
      end
  | run_item_stream_event name item =>
      if String.eqb name "tool_output" then (loc, _handleToolOutput item s)
      else (loc, s)
  | other_stream_event _ => (loc, s)
  end.

(** The locals at the entry of [_processRunResult], agent.ts 664-665. *)
Definition fresh_locals : StreamLocals :=
  {| fullResponse := ""; currentMessageId := None |}.

Fixpoint process_items (events : list RunStreamEvent) (loc : StreamLocals)
    (s : Sys) : StreamLocals * Sys :=
  match events with
  | [] => (loc, s)
  | event :: rest =>
      let '(loc1, s1) := process_item event loc s in
      process_items rest loc1 s1
  end.

(** [_processRunResult] on a stream that yields [events] and ends,
    agent.ts 661-720. *)
Definition _processRunResult (events : list RunStreamEvent) (s : Sys) : Sys :=
  snd (process_items events fresh_locals s).

(** ** The approval gate *)

(** [this._pendingApprovals.set(interruptionId, record)] *)
Definition register (interruptionId : string) (record : PendingApproval)
    (s : Sys) : Sys :=
  on_mgr (fun m =>
            set_pendingApprovals
              (<[interruptionId := record]> (_pendingApprovals m)) m) s.

(** agent.ts 794-816 *)
Definition _handleSingleToolApproval (item : RunToolApprovalItem) (s : Sys)
  : Sys :=
  let toolName := or_else (rawItem_name item) "Unknown Tool" in
  let toolInput := or_else (rawItem_arguments item) "{}" in
  let interruptionId := fresh_id "int-" (draws s) in
  let callId :=
    if String.eqb (rawItem_type item) "function_call"
    then rawItem_callId item else None in
  let s1 :=
    register interruptionId
      {| interruption := item; approved := None; groupId := None |}
      (bump s) in
  emit (AgentEvent (tool_approval_required interruptionId toolName
                      (_formatToolInput toolInput) callId)) s1.

(** The [interruptions.map(...)] of agent.ts 826-838: one id drawn, one
    record set and one entry returned per interruption, in order. *)
Fixpoint register_group (group : string) (items : list RunToolApprovalItem)
    (s : Sys) : list (string * string * string) * Sys :=
  match items with
  | [] => ([], s)
  | item :: rest =>
      let toolName := or_else (rawItem_name item) "Unknown Tool" in
      let toolInput := or_else (rawItem_arguments item) "{}" in
      let interruptionId := fresh_id "int-" (draws s) in
      let s1 :=
        register interruptionId
          {| interruption := item; approved := None; groupId := Some group |}
          (bump s) in
      let '(approvals, s2) := register_group group rest s1 in
      ((interruptionId, toolName, _formatToolInput toolInput) :: approvals, s2)
  end.

(** agent.ts 822-847 *)
Definition _handleGroupedToolApprovals (items : list RunToolApprovalItem)
    (s : Sys) : Sys :=
  let group := fresh_id "group-" (draws s) in
  let '(approvals, s1) := register_group group items (bump s) in
  emit (AgentEvent (grouped_approval_required group approvals)) s1.

(** [if (this._interruptedState) this._interruptedState.state.approve(item)]
    (or [reject]): the verdict lands in the state of the result that
    [_interruptedState] refers to. *)
Definition record_verdict (item : RunToolApprovalItem) (verdict : bool)
    (s : Sys) : Sys :=
  match _interruptedState (mgr s) with
  | Some r =>
      match heap s !! r with
      | Some res =>
          with_heap
            (<[r := {| state :=
                         {| snapshot := snapshot (state res);
                            verdicts := verdicts (state res) ++ [(item, verdict)] |};
                       interruptions := interruptions res;
                       history := history res |}]> (heap s)) s
      | None => s
      end
  | None => s
  end.

(** [pending.approved = verdict; this._pendingApprovals.delete(id)] *)
Definition resolve_pending (interruptionId : string) (pending : PendingApproval)
    (verdict : bool) (s : Sys) : Sys :=
  on_mgr (fun m =>
            set_pendingApprovals
              (delete interruptionId
                 (<[interruptionId :=
                      {| interruption := interruption pending;
                         approved := Some verdict;
                         groupId := groupId pending |}]>
                    (_pendingApprovals m))) m) s.

(** agent.ts 516-531 *)
Definition approveToolCall (interruptionId : string) (s : Sys) : Sys :=
  match _pendingApprovals (mgr s) !! interruptionId with
  | None =>
      emit (ConsoleWarn
              ("No pending approval found for interruption " +:+ interruptionId)
              None) s
  | Some pending =>
      resolve_pending interruptionId pending true
        (record_verdict (interruption pending) true s)
  end.

(** agent.ts 537-552 *)
Definition rejectToolCall (interruptionId : string) (s : Sys) : Sys :=
  match _pendingApprovals (mgr s) !! interruptionId with
  | None =>
      emit (ConsoleWarn
              ("No pending approval found for interruption " +:+ interruptionId)
              None) s
  | Some pending =>
      resolve_pending interruptionId pending false
        (record_verdict (interruption pending) false s)
  end.

(** agent.ts 559-573 *)
Fixpoint approveGroupedToolCalls (group : string) (interruptionIds : list string)
    (s : Sys) : Sys :=
  match interruptionIds with
  | [] => s
  | interruptionId :: rest =>
      approveGroupedToolCalls group rest
        match _pendingApprovals (mgr s) !! interruptionId with
        | Some pending =>
            if bool_decide (groupId pending = Some group) then
              resolve_pending interruptionId pending true
                (record_verdict (interruption pending) true s)
            else s
        | None => s
        end
  end.

(** agent.ts 580-594 *)
Fixpoint rejectGroupedToolCalls (group : string) (interruptionIds : list string)
    (s : Sys) : Sys :=
  match interruptionIds with
  | [] => s
  | interruptionId :: rest =>
      rejectGroupedToolCalls group rest
        match _pendingApprovals (mgr s) !! interruptionId with
        | Some pending =>
            if bool_decide (groupId pending = Some group) then
              resolve_pending interruptionId pending false
                (record_verdict (interruption pending) false s)
            else s
        | None => s
        end
  end.

(** ** Reset and stop *)

Definition zero_usage : ITokenUsage :=
  {| inputTokens := double_of 0; outputTokens := double_of 0 |}.

(** agent.ts 407-415 *)
Definition clearHistory (s : Sys) : Sys :=
  let s1 :=
    on_mgr (fun m =>
              set_tokenUsage zero_usage
                (set_interruptedState None
                   (set_pendingApprovals ∅
                      (set_runner {| runner_serial := serials s;
                                     tracingDisabled := true |}
                         (set_history [] m))))) s in
  emit (TokenUsageChanged (_tokenUsage (mgr s1)))
    (with_serials (S (serials s1)) s1).

(** agent.ts 420-422 *)
Definition stopStreaming (s : Sys) : Sys :=
  match _controller (mgr s) with
  | Some c =>
      on_mgr (set_controller
                (Some {| ctl_serial := ctl_serial c; aborted := true |})) s
  | None => s
  end.

(** ** The run driver: generateResponse, agent.ts 429-510 *)

(** [catch] and [finally], agent.ts 502-509: the error event, then
    [this._controller = null]; call [i] is over. *)
Definition generateResponse_catch (i : nat) (e : Error) (s : Sys) : Sys :=
  set_frame i Settled
    (on_mgr (set_controller None) (emit (AgentEvent (error e)) s)).

Definition null_signal : Error :=
  {| message := "Cannot read properties of null (reading 'signal')" |}.

Definition invoke (call : RunCall) (s : Sys) : Sys :=
  with_runs (runs s ++ [call]) s.

(** agent.ts 439-465, up to [await this._runner.run(...)]. *)
Definition generateResponse_run (i : nat) (msg : string) (s : Sys) : Sys :=
  match _agent (mgr s) with
  | None => generateResponse_catch i {| message := "Failed to initialize agent" |} s
  | Some agent =>
      let use := shouldUseTools (mgr s) in
      let s1 := on_mgr (fun m => set_history (_history m ++ [user msg]) m) s in
      let m := mgr s1 in
      let parameters :=
        getProvider (_settingsModel m) (_activeProvider m) ≫= pc_parameters in
      let turns := default DEFAULT_MAX_TURNS (parameters ≫= maxTurns) in
      match _controller m with
      | None => generateResponse_catch i null_signal s1
      | Some c =>
          set_frame i (GAwaitRun turns)
            (invoke {| rc_runner := _runner m;
                       rc_agent := Some agent;
                       rc_input := FromHistory (_history m);
                       rc_signal := c;
                       rc_maxTurns := if use then Some turns else None |} s1)
      end
  end.

(** agent.ts 429-437: a new controller, then either straight on or into
    [await this.initializeAgent()].  The call gets the next free index. *)
Definition generateResponse (msg : string) (s : Sys) : Sys :=
  let i := length (frames s) in
  let c := {| ctl_serial := serials s; aborted := false |} in
  let s1 :=
    with_frames (frames s ++ [Settled])
      (with_serials (S (serials s)) (on_mgr (set_controller (Some c)) s)) in
  match _agent (mgr s1) with
  | None =>
      let '(started, s2) := initializeAgent_begin None s1 in
      set_frame i (GInit started msg) s2
  | Some _ => generateResponse_run i msg s1
  end.

(** The run settled with a result object: [_processRunResult(result)]
    starts iterating, agent.ts 467 and 494. *)
Definition generateResponse_stream (i : nat) (snap : nat) (turns : Z) (s : Sys)
  : Sys :=
  let r := length (heap s) in
  set_frame i (GStream r turns fresh_locals)
    (with_heap
       (heap s ++ [{| state := {| snapshot := snap; verdicts := [] |};
                      interruptions := [];
                      history := [] |}]) s).

(** agent.ts 483-492: the test of the wait loop and, once the pending set is
    empty, the run resumed from [result.state]. *)
Definition generateResponse_poll (i : nat) (r : nat) (turns : Z) (s : Sys)
  : option Sys :=
  if 0 <? size (_pendingApprovals (mgr s)) then
    Some (set_frame i (GWait r turns) s)
  else
    res ← heap s !! r;
    match _controller (mgr s) with
    | None => Some (generateResponse_catch i null_signal s)
    | Some c =>
        Some (set_frame i (GAwaitRun turns)
                (invoke {| rc_runner := _runner (mgr s);
                           rc_agent := _agent (mgr s);
                           rc_input := FromState (state res);
                           rc_signal := c;
                           rc_maxTurns := Some turns |} s))
    end.

(** agent.ts 469-481 and 495-501: the stream of result [r] is exhausted and
    the result carries [ints] and [hist]. *)
Definition generateResponse_settled (i : nat) (r : nat) (turns : Z)
    (ints : list RunToolApprovalItem) (hist : list AgentInputItem) (s : Sys)
  : option Sys :=
  res ← heap s !! r;
  let s1 :=
    with_heap (<[r := {| state := state res;
                         interruptions := ints;
                         history := hist |}]> (heap s)) s in
  if 0 <? length ints then
    let s2 := on_mgr (set_interruptedState (Some r)) s1 in
    let s3 :=
      if 1 <? length ints then _handleGroupedToolApprovals ints s2
      else
        match ints with
        | item :: _ => _handleSingleToolApproval item s2
        | [] => s2
        end in
    generateResponse_poll i r turns s3
  else
    Some (set_frame i Settled
            (on_mgr (fun m =>
                       set_controller None
                         (set_history hist (set_interruptedState None m))) s1)).

(** ** One transition *)

Definition step (s : Sys) (a : Action) : option Sys :=
  match a with
  | CallGenerateResponse msg => Some (generateResponse msg s)
  | CallInitializeAgent mcpServers => Some (initializeAgent mcpServers s)
  | CallSetSelectedTools toolNames => Some (setSelectedTools toolNames s)
  | CallApproveToolCall id => Some (approveToolCall id s)
  | CallRejectToolCall id => Some (rejectToolCall id s)
  | CallApproveGroupedToolCalls group ids =>
      Some (approveGroupedToolCalls group ids s)
  | CallRejectGroupedToolCalls group ids =>
      Some (rejectGroupedToolCalls group ids s)
  | CallClearHistory => Some (clearHistory s)
  | CallStopStreaming => Some (stopStreaming s)
  | InitSettled i =>
      match frames s !! i with
      | Some (GInit started msg) =>
          Some (generateResponse_run i msg
                  (if started then initializeAgent_finish s else s))
      | Some IInit => Some (set_frame i Settled (initializeAgent_finish s))
      | _ => None
      end
  | RunStarted i snap =>
      match frames s !! i with
      | Some (GAwaitRun turns) => Some (generateResponse_stream i snap turns s)
      | _ => None
      end
  | RunFailed i e =>
      match frames s !! i with
      | Some (GAwaitRun _) => Some (generateResponse_catch i e s)
      | _ => None
      end
  | StreamItem i ev =>
      match frames s !! i with
      | Some (GStream r turns loc) =>
          let '(loc1, s1) := process_item ev loc s in
          Some (set_frame i (GStream r turns loc1) s1)
      | _ => None
      end
  | StreamEnd i ints hist =>
      match frames s !! i with
      | Some (GStream r turns _) => generateResponse_settled i r turns ints hist s
      | _ => None
      end
  | StreamError i e =>
      match frames s !! i with
      | Some (GStream _ _ _) => Some (generateResponse_catch i e s)
      | _ => None
      end
  | Tick i =>
      match frames s !! i with
      | Some (GWait r turns) => generateResponse_poll i r turns s
      | _ => None
      end
  end.

(** A run of the system: the actions in order, [None] when one of them is
    not possible where it stands. *)
Fixpoint exec (s : Sys) (acts : list Action) : option Sys :=
  match acts with
  | [] => Some s
  | a :: rest =>
      match step s a with
      | Some s1 => exec s1 rest
      | None => None
      end
  end.

End Manager.

(** ** Construction, agent.ts 273-301

    The setter of [activeProvider] starts [initializeAgent] (agent.ts
    337-341), so a new manager has that call in flight as call 0.  The
    [activeProviderChanged] signal is not part of the log. *)

Record IAgentManagerOptions := {
  opt_settingsModel : AISettingsModel;
  opt_toolRegistry : option IToolRegistry;
  opt_providerRegistry : option IProviderRegistry;
  opt_secretsManager : option ISecretsManager;
  opt_activeProvider : option string;
  opt_tokenUsage : option ITokenUsage
}.

Definition new_AgentManager (options : IAgentManagerOptions) : Sys :=
  {| mgr :=
       {| _settingsModel := opt_settingsModel options;
          _toolRegistry := opt_toolRegistry options;
          _providerRegistry := opt_providerRegistry options;
          _secretsManager := opt_secretsManager options;
          _selectedToolNames :=
            match opt_toolRegistry options with
            | Some registry => (tools registry).*1
            | None => []
            end;
          _agent := None;
          _runner := {| runner_serial := 0; tracingDisabled := true |};
          _history := [];
          _mcpServers := [];
          _isInitializing := true;
          _controller := None;
          _pendingApprovals := ∅;
          _interruptedState := None;
          _tokenUsage := default zero_usage (opt_tokenUsage options);
          _activeProvider :=
            default (defaultProvider (config (opt_settingsModel options)))
              (opt_activeProvider options) |};
     heap := [];
     frames := [IInit];
     draws := 0;
     serials := 1;
     out := [];
     runs := [] |}.

(** ** A concrete installation

    Two of the built-in providers (agent.ts 1082-1120 and 1277-1306), a
    registry holding them, and stand-ins for what lies outside. *)

Definition anthropicProvider : IProviderInfo :=
  {| pi_id := "anthropic";
     apiKeyRequirement := "required";
     supportsToolCalling := None;
     factory := fun options =>
       if String.eqb (mo_apiKey options) "" then
         inr {| message := "API key required for Anthropic" |}
       else
         inl {| lm_provider := "anthropic";
                lm_modelId := mo_model options;
                lm_apiKey := mo_apiKey options;
                lm_baseURL :=
                  if truthy (mo_baseURL options) then mo_baseURL options
                  else None |} |}.

Definition genericProvider : IProviderInfo :=
  {| pi_id := "generic";
     apiKeyRequirement := "optional";
     supportsToolCalling := Some true;
     factory := fun options =>
       inl {| lm_provider := mo_provider options;
              lm_modelId := or_else (Some (mo_model options)) "gpt-4o";
              lm_apiKey := or_else (Some (mo_apiKey options)) "dummy";
              lm_baseURL := Some (default "" (mo_baseURL options)) |} |}.

Definition builtin_registry : IProviderRegistry :=
  {| getProviderInfo := fun id =>
       if String.eqb id "anthropic" then Some anthropicProvider
       else if String.eqb id "generic" then Some genericProvider
       else None |}.

(** Modelled from the spec: [createModel] of providers/models.ts, a file
    outside the sources verified here.  The spec's model provider factory turns
    [{providerId, modelId, credential, baseUrl?}] into a model handle and
    fails where a mandated credential is absent; here the registry's entry
    for the provider does so through its [factory]. *)
Definition createModel_by_registry (options : IModelOptions)
    (registry : option IProviderRegistry) : LanguageModel + Error :=
  match registry with
  | Some reg =>
      match getProviderInfo reg (mo_provider options) with
      | Some info => factory info options
      | None => inr {| message := "Unknown provider: " +:+ mo_provider options |}
      end
  | None => inr {| message := "Unknown provider: " +:+ mo_provider options |}
  end.

Definition demo_externals : Externals :=
  {| createModel := createModel_by_registry;
     createSAPModel := fun serviceKey baseURL modelName =>
       inl {| lm_provider := "sap"; lm_modelId := modelName;
              lm_apiKey := serviceKey; lm_baseURL := baseURL |};
     JSON_parse := fun text =>
       if String.eqb text "{}" || String.eqb text "{ }"
       then Some (JObject []) else None;
     JSON_stringify := fun _ => "{}";
     Date_now := fun _ => "1762150000000";
     Math_random := fun n => "0." +:+ pretty n;
     SECRETS_NAMESPACE := "jupyterlite-ai";
     progressReportingPrompt := " Explain, execute tools, summarise." |}.

Definition demo_provider (modelName apiKey : string) : IProviderConfig :=
  {| pc_id := "claude";
     pc_provider := "anthropic";
     pc_model := modelName;
     pc_apiKey := Some apiKey;
     pc_baseURL := None;
     pc_parameters := None |}.

Definition demo_settings (modelName apiKey : string) : AISettingsModel :=
  {| config := {| defaultProvider := "claude"; toolsEnabled := true;
                  systemPrompt := ""; useSecretsManager := false |};
     getProvider := fun id =>
       if String.eqb id "claude" then Some (demo_provider modelName apiKey)
       else None;
     getApiKey := fun id => if String.eqb id "claude" then apiKey else "" |}.

Definition demo_tools : IToolRegistry :=
  {| tools := [("list_files", {| tool_name := "list_files" |})];
     registry_get := fun name =>
       if String.eqb name "list_files" then Some {| tool_name := "list_files" |}
       else None |}.

Definition demo_options (modelName apiKey : string) : IAgentManagerOptions :=
  {| opt_settingsModel := demo_settings modelName apiKey;
     opt_toolRegistry := Some demo_tools;
     opt_providerRegistry := Some builtin_registry;
     opt_secretsManager := None;
     opt_activeProvider := None;
     opt_tokenUsage := None |}.

(** Where a run of the installation from [s] ends ([s] itself when the run
    is not possible). *)
Definition demo_run (s : Sys) (acts : list Action) : Sys :=
  default s (exec demo_externals s acts).

(** The manager once its first initialisation is over. *)
Definition demo_ready : Sys :=
  demo_run (new_AgentManager (demo_options "claude-sonnet-4-5" "sk-demo"))
    [InitSettled 0].

(** The same with no key in the settings: the factory refused, there is no
    agent. *)
Definition demo_keyless : Sys :=
  demo_run (new_AgentManager (demo_options "claude-sonnet-4-5" ""))
    [InitSettled 0].

Definition list_files_call : RunToolApprovalItem :=
  {| rawItem_type := "function_call";
     rawItem_name := Some "list_files";
     rawItem_arguments := Some "{}";
     rawItem_callId := Some "call-1" |}.

Definition delete_file_call : RunToolApprovalItem :=
  {| rawItem_type := "function_call";
     rawItem_name := Some "delete_file";
     rawItem_arguments := Some "{ path }";
     rawItem_callId := Some "call-2" |}.

Definition demo_stream : list RunStreamEvent :=
  [raw_model_stream_event (output_text_delta (Some "lost"));
   raw_model_stream_event response_started;
   raw_model_stream_event (output_text_delta (Some "Let me "));
   raw_model_stream_event (output_text_delta (Some "look."));
   raw_model_stream_event
     (response_done {| inputTokens := double_of 10; outputTokens := double_of 3 |});
   raw_model_stream_event (model (tool_call "call-1" "list_files" "{}"))].

(** Call 1 of the installation, with its stream delivered and not yet
    exhausted. *)
Definition demo_streaming : Sys :=
  demo_run demo_ready
    (CallGenerateResponse "list files" :: RunStarted 1 7
       :: map (StreamItem 1) demo_stream).

(** The same call once its run has settled with one interruption. *)
Definition demo_waiting : Sys :=
  demo_run demo_streaming [StreamEnd 1 [list_files_call] []].

(** ** Reading a log and a run *)

(** The concatenation, in order, of the fragments of the [message_chunk]
    events of [log] that carry the message id [id]. *)
Fixpoint chunks_of (id : string) (log : list Output) : string :=
  match log with
  | [] => ""
  | AgentEvent (message_chunk id' fragment _) :: rest =>
      if String.eqb id' id then fragment +:+ chunks_of id rest
      else chunks_of id rest
  | _ :: rest => chunks_of id rest
  end.

Definition is_message_start (o : Output) : bool :=
  match o with
  | AgentEvent (message_start _) => true
  | _ => false
  end.

Definition is_message_chunk (o : Output) : bool :=
  match o with
  | AgentEvent (message_chunk _ _ _) => true
  | _ => false
  end.

(** The entries of a log that went out on the [agentEvent] signal. *)
Definition agent_events (log : list Output) : list IAgentEvent :=
  omap (fun o => match o with AgentEvent e => Some e | _ => None end) log.

(** The payloads of the [tokenUsageChanged] signal. *)
Definition usage_notifications (log : list Output) : list ITokenUsage :=
  omap (fun o => match o with TokenUsageChanged u => Some u | _ => None end) log.

(** The call an action continues, if it is not a call from outside. *)
Definition call_of (a : Action) : option nat :=
  match a with
  | InitSettled i | RunStarted i _ | RunFailed i _ | StreamItem i _
  | StreamEnd i _ _ | StreamError i _ | Tick i => Some i
  | _ => None
  end.

Definition is_clear (a : Action) : bool :=
  match a with
  | CallClearHistory => true
  | _ => false
  end.

Definition is_generate (a : Action) : bool :=
  match a with
  | CallGenerateResponse _ => true
  | _ => false
  end.

(** Whether the action is an approval or a rejection (single or grouped)
    that names the interruption id [id]. *)
Definition resolves (id : string) (a : Action) : bool :=
  match a with
  | CallApproveToolCall id' | CallRejectToolCall id' => String.eqb id' id
  | CallApproveGroupedToolCalls _ ids | CallRejectGroupedToolCalls _ ids =>
      existsb (fun id' => String.eqb id' id) ids
  | _ => false
  end.

Definition plus_usage (a b : ITokenUsage) : ITokenUsage :=
  {| inputTokens := number_add (inputTokens a) (inputTokens b);
     outputTokens := number_add (outputTokens a) (outputTokens b) |}.

(** The bookkeeping the counters are to follow along a run: every
    [response_done] item adds what it reports, [clearHistory] starts over
    from zero, nothing else counts. *)
Fixpoint tally (base : ITokenUsage) (acts : list Action) : ITokenUsage :=
  match acts with
  | [] => base
  | CallClearHistory :: rest => tally zero_usage rest
  | StreamItem _ (raw_model_stream_event (response_done u)) :: rest =>
      tally (plus_usage base u) rest
  | _ :: rest => tally base rest
  end.

(** The totals after each of these steps, in order. *)
Fixpoint tally_log (base : ITokenUsage) (acts : list Action) : list ITokenUsage :=
  match acts with
  | [] => []
  | CallClearHistory :: rest => zero_usage :: tally_log zero_usage rest
  | StreamItem _ (raw_model_stream_event (response_done u)) :: rest =>
      plus_usage base u :: tally_log (plus_usage base u) rest
  | _ :: rest => tally_log base rest
  end.

(** What [response_done] items of a run report, in order. *)
Definition reported (acts : list Action) : list ITokenUsage :=
  omap (fun a => match a with
                 | StreamItem _ (raw_model_stream_event (response_done u)) => Some u
                 | _ => None
                 end) acts.

(** The entry of a grouped approval for [item] when its id is the n-th draw. *)
Definition approval_entry (X : Externals) (n : nat) (item : RunToolApprovalItem)
  : string * string * string :=
  (fresh_id X "int-" n,
   or_else (rawItem_name item) "Unknown Tool",
   _formatToolInput X (or_else (rawItem_arguments item) "{}")).

(** A frame of [initializeAgent], or a call that is over. *)
Definition is_quiet (f : Frame) : bool :=
  match f with
  | Settled | IInit => true
  | _ => false
  end.

(** An entry of the pending set under [id] that carries the tag [group]. *)
Definition tagged (group : string) (s : Sys) (id : string) : Prop :=
  exists p, _pendingApprovals (mgr s) !! id = Some p /\ groupId p = Some group.

(** The message id a [message_chunk] or [message_complete] entry carries. *)
Definition message_id_of (o : Output) : option string :=
  match o with
  | AgentEvent (message_chunk id _ _) => Some id
  | AgentEvent (message_complete id _) => Some id
  | _ => None
  end.

Definition is_message_event (o : Output) : bool :=
  match o with
  | AgentEvent (message_start _) => true
  | AgentEvent (message_chunk _ _ _) => true
  | AgentEvent (message_complete _ _) => true
  | _ => false
  end.

Definition is_response_started (ev : RunStreamEvent) : bool :=
  match ev with
  | raw_model_stream_event response_started => true
  | _ => false
  end.

(** ** Invariants of the loop of [_processRunResult]

    A property of (what the loop has let out so far, its locals, the number
    of draws) that the four ways the loop moves keep: a message starts, a
    fragment is appended, the message completes, something that is no
    message event goes out. *)
Record stream_invariant (X : Externals)
    (I : list Output -> StreamLocals -> nat -> Prop) : Prop := {
  inv_start : forall log loc d,
    I log loc d ->
    I (log ++ [AgentEvent (message_start (fresh_id X "msg-" d))])
      {| fullResponse := ""; currentMessageId := Some (fresh_id X "msg-" d) |}
      (S d);
  inv_chunk : forall log loc d id c,
    I log loc d -> currentMessageId loc = Some id ->
    I (log ++ [AgentEvent (message_chunk id c (fullResponse loc +:+ c))])
      {| fullResponse := fullResponse loc +:+ c; currentMessageId := Some id |}
      d;
  inv_complete : forall log loc d id,
    I log loc d -> currentMessageId loc = Some id ->
    I (log ++ [AgentEvent (message_complete id (fullResponse loc))])
      {| fullResponse := fullResponse loc; currentMessageId := None |}
      d;
  inv_other : forall log loc d o,
    I log loc d -> is_message_event o = false -> I (log ++ [o]) loc d
}.

(** Every chunk and completion follows a start of its message; a chunk that
    follows a completion has a start in between. *)
Definition started_first (log : list Output) (loc : StreamLocals) (d : nat)
  : Prop :=
  (forall pre o post id,
      log = pre ++ o :: post -> message_id_of o = Some id ->
      AgentEvent (message_start id) ∈ pre) /\
  (forall id, currentMessageId loc = Some id ->
      AgentEvent (message_start id) ∈ log) /\
  (forall pre id content mid o post,
      log = pre ++ AgentEvent (message_complete id content) :: mid ++ o :: post ->
      is_message_chunk o = true -> existsb is_message_start mid = true) /\
  (forall pre id content mid,
      is_Some (currentMessageId loc) ->
      log = pre ++ AgentEvent (message_complete id content) :: mid ->
      existsb is_message_start mid = true).

(** The cumulative content of every chunk, the content of every completion,
    and how the locals stand to the log. *)
Definition contents_add_up (X : Externals) (log : list Output)
    (loc : StreamLocals) (d : nat) : Prop :=
  (forall pre id c full post,
      log = pre ++ AgentEvent (message_chunk id c full) :: post ->
      full = chunks_of id pre +:+ c) /\
  (forall pre id content post,
      log = pre ++ AgentEvent (message_complete id content) :: post ->
      content = chunks_of id pre /\ chunks_of id post = "") /\
  (forall id, currentMessageId loc = Some id ->
      chunks_of id log = fullResponse loc /\
      (forall pre content post,
          log <> pre ++ AgentEvent (message_complete id content) :: post) /\
      exists k, k < d /\ id = fresh_id X "msg-" k) /\
  (forall o id, o ∈ log -> message_id_of o = Some id ->
      exists k, k < d /\ id = fresh_id X "msg-" k).

(** ** One call on its own

    How call [i], made with [msg] on a history [h0] while no other
    [generateResponse] is in flight, stands: before its run has started the
    history is [h0]; from then on, until the call is over, it is [h0] with
    the user message appended. *)
Definition call_progress (h0 : list AgentInputItem) (msg : string) (i : nat)
    (s : Sys) : Prop :=
  (forall j f, j <> i -> frames s !! j = Some f -> is_quiet f = true) /\
  match frames s !! i with
  | Some (GInit _ m) => m = msg /\ _history (mgr s) = h0
  | Some (GAwaitRun _) | Some (GStream _ _ _) | Some (GWait _ _) =>
      _history (mgr s) = h0 ++ [user msg]
  | Some Settled => True
  | _ => False
  end.

(** ** Runs of the installation *)

(** What [_processRunResult] lets out on [demo_stream]. *)
Definition demo_log : list Output :=
  [AgentEvent (message_start "msg-1762150000000-0.0");
   AgentEvent (message_chunk "msg-1762150000000-0.0" "Let me " "Let me ");
   AgentEvent (message_chunk "msg-1762150000000-0.0" "look." "Let me look.");
   AgentEvent (message_complete "msg-1762150000000-0.0" "Let me look.");
   TokenUsageChanged {| inputTokens := double_of 10; outputTokens := double_of 3 |};
   AgentEvent (tool_call_start "call-1" "list_files" "{}")].

(** The call of [demo_streaming] once its run has settled with two
    interruptions. *)
Definition demo_grouped : Sys :=
  demo_run demo_streaming [StreamEnd 1 [list_files_call; delete_file_call] []].

(** While call 1 waits: [clearHistory], the timer, the resumed run and its
    first item.  No approval and no rejection. *)
Definition demo_clear_trace : list Action :=
  [CallClearHistory; Tick 1; RunStarted 1 8;
   StreamItem 1 (raw_model_stream_event response_started)].

(** While call 1 waits: the timer, a rejection of another id, the timer. *)
Definition demo_idle_trace : list Action :=
  [Tick 1; CallRejectToolCall "int-1762150000000-0.9"; Tick 1].

(** Two calls of [generateResponse], the second made while the stream of the
    first is being consumed. *)
Definition demo_two_calls : list Action :=
  [CallGenerateResponse "a"; RunStarted 1 7;
   StreamItem 1 (raw_model_stream_event response_started);
   CallGenerateResponse "b"; RunStarted 2 8;
   StreamItem 2 (raw_model_stream_event response_started);
   StreamItem 1 (raw_model_stream_event (output_text_delta (Some "x")));
   StreamItem 2 (raw_model_stream_event (output_text_delta (Some "y")))].

(** A manager whose provider has a key and an empty model name. *)
Definition demo_unnamed_model : Sys :=
  new_AgentManager (demo_options "" "sk-demo").

(** ** The whole log

    The message a frame has open: the id and the content so far of the
    message its [_processRunResult] is in. *)
Definition frame_open (f : Frame) : option (string * string) :=
  match f with
  | GStream _ _ loc =>
      match currentMessageId loc with
      | Some id => Some (id, fullResponse loc)
      | None => None
      end
  | _ => None
  end.

Definition open_message (s : Sys) (j : nat) : option (string * string) :=
  frames s !! j ≫= frame_open.

(** How a log stands to the messages that are open: what every chunk and
    every completion in it carries, that the ids in it were drawn before,
    that the content of every open message is what the log has of it and no
    completion of it is in the log, and that no two calls have the same
    message open. *)
Definition log_coherent (X : Externals) (log : list Output)
    (opens : nat -> option (string * string)) (d : nat) : Prop :=
  (forall pre id c full post,
      log = pre ++ AgentEvent (message_chunk id c full) :: post ->
      full = chunks_of id pre +:+ c) /\
  (forall pre id content post,
      log = pre ++ AgentEvent (message_complete id content) :: post ->
      content = chunks_of id pre /\ chunks_of id post = "") /\
  (forall o id, o ∈ log -> message_id_of o = Some id ->
      exists k, k < d /\ id = fresh_id X "msg-" k) /\
  (forall j id full, opens j = Some (id, full) ->
      chunks_of id log = full /\
      (forall pre content post,
          log <> pre ++ AgentEvent (message_complete id content) :: post) /\
      exists k, k < d /\ id = fresh_id X "msg-" k) /\
  (forall j j' id full full',
      opens j = Some (id, full) -> opens j' = Some (id, full') -> j = j').

Definition coherent (X : Externals) (s : Sys) : Prop :=
  log_coherent X (out s) (open_message s) (draws s).

(** A transition that lets out no message event and opens no message. *)
Definition quiet_step (s s' : Sys) : Prop :=
  draws s <= draws s' /\
  (exists new, out s' = out s ++ new /\
               forallb (fun o => negb (is_message_event o)) new = true) /\
  (forall j, open_message s' j = open_message s j \/ open_message s' j = None).

(** * The rest of agent.ts

    ** Reading frames, streams and runs *)

(** ** Counters that hold integers

    Token counts are integers.  [Number.isSafeInteger]: the integers of
    magnitude below 2^53, which doubles tell apart. *)
Definition safe_integer (n : Z) : bool := ((- 2 ^ 53 <? n) && (n <? 2 ^ 53))%Z.

(** A pair of counts, input and output tokens, as integers, and the usage
    that holds them. *)
Definition safe_counts (n : Z * Z) : bool :=
  safe_integer n.1 && safe_integer n.2.

Definition usage_of (n : Z * Z) : ITokenUsage :=
  {| inputTokens := double_of n.1; outputTokens := double_of n.2 |}.

Definition plus_counts (a b : Z * Z) : Z * Z := (a.1 + b.1, a.2 + b.2)%Z.

(** The sum of the counts [ns] on top of [base]. *)
Definition sum_counts (base : Z * Z) (ns : list (Z * Z)) : Z * Z :=
  foldl plus_counts base ns.

(** Whether the counts [ns] and every total they give when added to [base]
    one after the other are safe integers. *)
Fixpoint sums_safe (base : Z * Z) (ns : list (Z * Z)) : bool :=
  match ns with
  | [] => true
  | n :: rest =>
      safe_counts n && safe_counts (plus_counts base n)
      && sums_safe (plus_counts base n) rest
  end.

(** [p] with [k] zero bits appended. *)
Fixpoint shl (p : positive) (k : nat) : positive :=
  match k with
  | O => p
  | S k => xO (shl p k)
  end.

(** A call that is past the guard of [initializeAgent] and has not reached
    its [finally]: it holds [_isInitializing]. *)
Definition is_initializing (f : Frame) : bool :=
  match f with
  | IInit => true
  | GInit started _ => started
  | _ => false
  end.

(** How many entries of a list satisfy [p]. *)
Fixpoint count {A} (p : A -> bool) (l : list A) : nat :=
  match l with
  | [] => 0
  | x :: rest => (if p x then 1 else 0) + count p rest
  end.

(** The items the loop of [_processRunResult] has a branch for, agent.ts
    668-718; every other item falls through all of its tests. *)
Definition handled (ev : RunStreamEvent) : bool :=
  match ev with
  | raw_model_stream_event response_started => true
  | raw_model_stream_event (output_text_delta _) => true
  | raw_model_stream_event (response_done _) => true
  | raw_model_stream_event (model (tool_call _ _ _)) => true
  | run_item_stream_event name _ => String.eqb name "tool_output"
  | _ => false
  end.

Definition is_text_delta (ev : RunStreamEvent) : bool :=
  match ev with
  | raw_model_stream_event (output_text_delta _) => true
  | _ => false
  end.

Definition is_response_done (ev : RunStreamEvent) : bool :=
  match ev with
  | raw_model_stream_event (response_done _) => true
  | _ => false
  end.

Definition is_message_complete (o : Output) : bool :=
  match o with
  | AgentEvent (message_complete _ _) => true
  | _ => false
  end.

Definition is_usage_changed (o : Output) : bool :=
  match o with
  | TokenUsageChanged _ => true
  | _ => false
  end.

(** Whether a message is open in the locals of [_processRunResult]. *)
Definition open_count (loc : StreamLocals) : nat :=
  match currentMessageId loc with
  | Some _ => 1
  | None => 0
  end.

(** What every invocation of [Runner.run] by [generateResponse] has: a first
    run (agent.ts 461-465) is given an agent and a history whose last item
    is a user message; a resumed run (488-492) is given [maxTurns]. *)
Definition well_invoked (call : RunCall) : bool :=
  match rc_input call with
  | FromHistory items =>
      match rc_agent call, last items with
      | Some _, Some (user _) => true
      | _, _ => false
      end
  | FromState _ =>
      match rc_maxTurns call with
      | Some _ => true
      | None => false
      end
  end.

(** What holds of the manager and of the calls in flight at any time: the
    flag of [initializeAgent] is up exactly while one call holds it, and
    one call at most does; with no [generateResponse] in flight the
    controller is null; and every run was invoked as [well_invoked] says. *)
Definition sound (s : Sys) : Prop :=
  count is_initializing (frames s) = (if _isInitializing (mgr s) then 1 else 0) /\
  (forallb is_quiet (frames s) = true -> _controller (mgr s) = None) /\
  forallb well_invoked (runs s) = true.

(** A transition of call [i] that is not a step of an initialisation: the
    call goes on to a frame that does not hold the flag, at most one run is
    invoked, and if the call is over the controller is null. *)
Definition frame_moved (i : nat) (s s' : Sys) : Prop :=
  exists f',
    frames s' = <[i := f']> (frames s) /\
    is_initializing f' = false /\
    _isInitializing (mgr s') = _isInitializing (mgr s) /\
    (is_quiet f' = true -> _controller (mgr s') = None) /\
    (runs s' = runs s \/
     exists call, runs s' = runs s ++ [call] /\ well_invoked call = true).

Definition is_stream_item (a : Action) : bool :=
  match a with
  | StreamItem _ _ => true
  | _ => false
  end.

(** Every entry of the pending set has an id that was drawn, and a group
    id, if it has one, that was drawn: [draws s] counts the draws so far. *)
Definition drawn (X : Externals) (s : Sys) : Prop :=
  forall id p,
    _pendingApprovals (mgr s) !! id = Some p ->
    (exists n, n < draws s /\ id = fresh_id X "int-" n) /\
    (forall g, groupId p = Some g ->
               exists n, n < draws s /\ g = fresh_id X "group-" n).


(** The interruption ids of the entries of a [grouped_approval_required]
    event, in order. *)
Definition interruption_ids (approvals : list (string * string * string))
  : list string :=
  map (fun entry => entry.1.1) approvals.

(** The verdict [verdict] on each of [items], as [state.approve] or
    [state.reject] records them one after the other. *)
Definition verdicts_on (verdict : bool) (items : list RunToolApprovalItem)
  : list (RunToolApprovalItem * bool) :=
  map (fun item => (item, verdict)) items.

(** Whether an entry of the log asks for a verdict on the interruption
    [id]: a [tool_approval_required] event with that id, or a
    [grouped_approval_required] event that lists it. *)
Definition announces (id : string) (o : Output) : bool :=
  match o with
  | AgentEvent (tool_approval_required id' _ _ _) => String.eqb id' id
  | AgentEvent (grouped_approval_required _ approvals) =>
      existsb (fun id' => String.eqb id' id) (interruption_ids approvals)
  | _ => false
  end.

(** ** The setter of [activeProvider], agent.ts 337-341 *)

Definition set_activeProvider (v : string) (m : AgentManager) : AgentManager :=
  {| _settingsModel := _settingsModel m;
     _toolRegistry := _toolRegistry m;
     _providerRegistry := _providerRegistry m;
     _secretsManager := _secretsManager m;
     _selectedToolNames := _selectedToolNames m;
     _agent := _agent m;
     _runner := _runner m;
     _history := _history m;
     _mcpServers := _mcpServers m;
     _isInitializing := _isInitializing m;
     _controller := _controller m;
     _pendingApprovals := _pendingApprovals m;
     _interruptedState := _interruptedState m;
     _tokenUsage := _tokenUsage m;
     _activeProvider := v |}.

(** The assignment, the call of [initializeAgent] and the payload of
    [_activeProviderChanged.emit].  It is no action of [step]: a call that
    falls between the start and the end of an initialisation changes what
    [initializeAgent_finish] reads but not what the code, which has started
    [_createModel] already, builds the model from. *)
Definition activeProvider_set (value : string) (s : Sys) : string * Sys :=
  let s1 := on_mgr (set_activeProvider value) s in
  let s2 := initializeAgent None s1 in
  (_activeProvider (mgr s2), s2).

(** ** The other built-in providers, agent.ts 1011-1272

    As for [anthropicProvider], the handle records what the SDK function
    was called on; [_createModel] hands no [headers] over. *)

Definition sapProvider : IProviderInfo :=
  {| pi_id := "sap";
     apiKeyRequirement := "required";
     supportsToolCalling := None;
     factory := fun options =>
       inl {| lm_provider := "sap";
              lm_modelId := or_else (Some (mo_model options)) "gpt-4o";
              lm_apiKey := or_else (Some (mo_apiKey options)) "";
              lm_baseURL := Some (or_else (mo_baseURL options) "") |} |}.

Definition googleProvider : IProviderInfo :=
  {| pi_id := "google";
     apiKeyRequirement := "required";
     supportsToolCalling := None;
     factory := fun options =>
       if String.eqb (mo_apiKey options) "" then
         inr {| message := "API key required for Google Generative AI" |}
       else
         inl {| lm_provider := "google";
                lm_modelId := or_else (Some (mo_model options)) "gemini-2.5-flash";
                lm_apiKey := mo_apiKey options;
                lm_baseURL :=
                  if truthy (mo_baseURL options) then mo_baseURL options
                  else None |} |}.

Definition mistralProvider : IProviderInfo :=
  {| pi_id := "mistral";
     apiKeyRequirement := "required";
     supportsToolCalling := None;
     factory := fun options =>
       if String.eqb (mo_apiKey options) "" then
         inr {| message := "API key required for Mistral" |}
       else
         inl {| lm_provider := "mistral";
                lm_modelId := or_else (Some (mo_model options)) "mistral-large-latest";
                lm_apiKey := mo_apiKey options;
                lm_baseURL :=
                  if truthy (mo_baseURL options) then mo_baseURL options
                  else None |} |}.

Definition openaiProvider : IProviderInfo :=
  {| pi_id := "openai";
     apiKeyRequirement := "required";
     supportsToolCalling := None;
     factory := fun options =>
       if String.eqb (mo_apiKey options) "" then
         inr {| message := "API key required for OpenAI" |}
       else
         inl {| lm_provider := "openai";
                lm_modelId := or_else (Some (mo_model options)) "gpt-4o";
                lm_apiKey := mo_apiKey options;
                lm_baseURL :=
                  if truthy (mo_baseURL options) then mo_baseURL options
                  else None |} |}.

(** The six providers of the file. *)
Definition builtin_providers : list IProviderInfo :=
  [sapProvider; anthropicProvider; googleProvider; mistralProvider;
   openaiProvider; genericProvider].

(** The options [_createModel] makes of an entry of the settings when the
    key it hands over is the one of the entry. *)
Definition options_of (activeProviderConfig : IProviderConfig) : IModelOptions :=
  {| mo_provider := pc_provider activeProviderConfig;
     mo_model := pc_model activeProviderConfig;
     mo_apiKey := default "" (pc_apiKey activeProviderConfig);
     mo_baseURL := pc_baseURL activeProviderConfig |}.

(** ** AgentManagerFactory, agent.ts 36-161 *)

Module Factory.

(** An entry of [config.mcpServers]. *)
Record IMCPServerConfig := {
  sc_name : string;
  sc_url : string;
  sc_enabled : bool
}.

(** What the factory lets out: the [mcpConnectionChanged] signal and
    [console.warn]. *)
Inductive Output :=
| McpConnectionChanged (connected : bool)
| ConsoleWarn (text : string) (detail : Error).

(** The private attributes of [AgentManagerFactory]; the managers are held
    with their surroundings, and [out] is what the factory has let out. *)
Record AgentManagerFactory := {
  _agentManagers : list Sys;
  _settingsModel : AISettingsModel;
  _secretsManager : option ISecretsManager;
  _mcpServers : list BrowserMCPServerStreamableHttp;
  _isInitializing : bool;
  out : list Output
}.

Definition set_agentManagers (v : list Sys) (f : AgentManagerFactory)
  : AgentManagerFactory :=
  {| _agentManagers := v;
     _settingsModel := _settingsModel f;
     _secretsManager := _secretsManager f;
     _mcpServers := _mcpServers f;
     _isInitializing := _isInitializing f;
     out := out f |}.

Definition set_mcpServers (v : list BrowserMCPServerStreamableHttp)
    (f : AgentManagerFactory) : AgentManagerFactory :=
  {| _agentManagers := _agentManagers f;
     _settingsModel := _settingsModel f;
     _secretsManager := _secretsManager f;
     _mcpServers := v;
     _isInitializing := _isInitializing f;
     out := out f |}.

Definition set_isInitializing (v : bool) (f : AgentManagerFactory)
  : AgentManagerFactory :=
  {| _agentManagers := _agentManagers f;
     _settingsModel := _settingsModel f;
     _secretsManager := _secretsManager f;
     _mcpServers := _mcpServers f;
     _isInitializing := v;
     out := out f |}.

Definition emit (o : Output) (f : AgentManagerFactory) : AgentManagerFactory :=
  {| _agentManagers := _agentManagers f;
     _settingsModel := _settingsModel f;
     _secretsManager := _secretsManager f;
     _mcpServers := _mcpServers f;
     _isInitializing := _isInitializing f;
     out := out f ++ [o] |}.

(** agent.ts 53-60.  The manager is made of the caller's options with the
    secrets manager of the factory in place of theirs; the answer is the
    place of the new manager in [_agentManagers]. *)
Definition createAgent (options : IAgentManagerOptions) (f : AgentManagerFactory)
  : nat * AgentManagerFactory :=
  let agentManager :=
    new_AgentManager
      {| opt_settingsModel := opt_settingsModel options;
         opt_toolRegistry := opt_toolRegistry options;
         opt_providerRegistry := opt_providerRegistry options;
         opt_secretsManager := _secretsManager f;
         opt_activeProvider := opt_activeProvider options;
         opt_tokenUsage := opt_tokenUsage options |} in
  (length (_agentManagers f),
   set_agentManagers (_agentManagers f ++ [agentManager]) f).

(** agent.ts 74-76 *)
Definition isMCPServerConnected (serverName : string) (f : AgentManagerFactory)
  : bool :=
  existsb (fun server => String.eqb (mcp_name server) serverName) (_mcpServers f).

(** The double quote of the message of agent.ts 119. *)
Definition quote : string :=
  String (Ascii.Ascii false true false false false true false false) EmptyString.

(** The first loop of [_initializeMCPServers], agent.ts 97-104, from the
    [k]-th server on: [closes k] is what [close()] of the [k]-th server
    throws, if it throws. *)
Fixpoint close_servers (servers : list BrowserMCPServerStreamableHttp)
    (closes : nat -> option Error) (k : nat) (connectionChanged : bool)
    (f : AgentManagerFactory) : bool * AgentManagerFactory :=
  match servers with
  | [] => (connectionChanged, f)
  | server :: rest =>
      match closes k with
      | None => close_servers rest closes (S k) true f
      | Some e =>
          close_servers rest closes (S k) connectionChanged
            (emit (ConsoleWarn "Error closing MCP server:" e) f)
      end
  end.

(** The second loop, agent.ts 108-123: [connects k] is what the
    construction or [connect()] of the [k]-th enabled server throws, if
    one of them throws. *)
Fixpoint connect_servers (enabledServers : list IMCPServerConfig)
    (connects : nat -> option Error) (k : nat) (connectionChanged : bool)
    (f : AgentManagerFactory) : bool * AgentManagerFactory :=
  match enabledServers with
  | [] => (connectionChanged, f)
  | serverConfig :: rest =>
      match connects k with
      | None =>
          connect_servers rest connects (S k) true
            (set_mcpServers
               (_mcpServers f ++ [{| mcp_name := sc_name serverConfig;
                                     mcp_url := sc_url serverConfig |}]) f)
      | Some e =>
          connect_servers rest connects (S k) connectionChanged
            (emit (ConsoleWarn
                     ("Failed to connect to MCP server " +:+ quote
                      +:+ sc_name serverConfig +:+ quote +:+ " at "
                      +:+ sc_url serverConfig +:+ ":") e) f)
      end
  end.

(** agent.ts 91-129, on the [config.mcpServers] it reads when it starts.
    Nothing else writes [_mcpServers], and the guard of [_initializeAgents]
    keeps a second pass from starting before this one is over, so what the
    pass leaves is a function of where it starts and of what [close()] and
    [connect()] do. *)
Definition _initializeMCPServers (mcpServers : list IMCPServerConfig)
    (closes connects : nat -> option Error) (f : AgentManagerFactory)
  : AgentManagerFactory :=
  let enabledServers := List.filter sc_enabled mcpServers in
  let '(connectionChanged, f1) :=
    close_servers (_mcpServers f) closes 0 false f in
  let f2 := set_mcpServers [] f1 in
  let '(connectionChanged, f3) :=
    connect_servers enabledServers connects 0 connectionChanged f2 in
  if connectionChanged then
    emit (McpConnectionChanged (0 <? length (_mcpServers f3))) f3
  else f3.

(** agent.ts 135-139: the guard and the flag.  The answer tells whether the
    call got past the guard. *)
Definition _initializeAgents_begin (f : AgentManagerFactory)
  : bool * AgentManagerFactory :=
  if _isInitializing f then (false, f)
  else (true, set_isInitializing true f).

(** agent.ts 141-152, for a call that got past the guard: the servers, then
    [initializeAgent(mcpServers)] on every manager the factory holds by
    then, then the flag. *)
Definition _initializeAgents_finish (mcpServers : list IMCPServerConfig)
    (closes connects : nat -> option Error) (f : AgentManagerFactory)
  : AgentManagerFactory :=
  let f1 := _initializeMCPServers mcpServers closes connects f in
  let servers := _mcpServers f1 in
  let f2 :=
    set_agentManagers
      (map (initializeAgent (Some servers)) (_agentManagers f1)) f1 in
  set_isInitializing false f2.

(** agent.ts 37-51: the fields, and the first [_initializeAgents] under
    way. *)
Definition new_AgentManagerFactory (settingsModel : AISettingsModel)
    (secretsManager : option ISecretsManager) : AgentManagerFactory :=
  {| _agentManagers := [];
     _settingsModel := settingsModel;
     _secretsManager := secretsManager;
     _mcpServers := [];
     _isInitializing := true;
     out := [] |}.

(** The servers a pass connects: those of the enabled entries whose
    [connect()] does not throw, in the order of the settings. *)
Fixpoint connected (enabledServers : list IMCPServerConfig)
    (connects : nat -> option Error) (k : nat)
  : list BrowserMCPServerStreamableHttp :=
  match enabledServers with
  | [] => []
  | serverConfig :: rest =>
      match connects k with
      | None =>
          {| mcp_name := sc_name serverConfig; mcp_url := sc_url serverConfig |}
          :: connected rest connects (S k)
      | Some _ => connected rest connects (S k)
      end
  end.

(** Whether one of the first [n] outcomes from [k] on is a success. *)
Fixpoint succeeds (outcomes : nat -> option Error) (k n : nat) : bool :=
  match n with
  | 0 => false
  | S n' =>
      match outcomes k with
      | None => true
      | Some _ => succeeds outcomes (S k) n'
      end
  end.

Definition signals (log : list Output) : list bool :=
  omap (fun o => match o with
                 | McpConnectionChanged connected => Some connected
                 | ConsoleWarn _ _ => None
                 end) log.

Definition warnings (log : list Output) : nat :=
  length (omap (fun o => match o with
                         | ConsoleWarn text _ => Some text
                         | McpConnectionChanged _ => None
                         end) log).

(** How many of the first [n] outcomes from [k] on are failures. *)
Fixpoint failures (outcomes : nat -> option Error) (k n : nat) : nat :=
  match n with
  | 0 => 0
  | S n' =>
      match outcomes k with
      | None => failures outcomes (S k) n'
      | Some _ => S (failures outcomes (S k) n')
      end
  end.

End Factory.

(** ** More of the installation at work *)

(** While call 1 of [demo_waiting] waits for its approval, a second call is
    made, runs and ends without interruptions. *)
Definition demo_overtaken : Sys :=
  demo_run demo_waiting
    [CallGenerateResponse "and then?"; RunStarted 2 9;
     StreamEnd 2 [] [user "list files"; user "and then?"]].

(** An interruption whose arguments parse and are not in the form
    [JSON.stringify] gives them. *)
Definition clear_outputs_call : RunToolApprovalItem :=
  {| rawItem_type := "function_call";
     rawItem_name := Some "clear_outputs";
     rawItem_arguments := Some "{ }";
     rawItem_callId := Some "call-3" |}.

(** An interruption with no name and no arguments. *)
Definition bare_call : RunToolApprovalItem :=
  {| rawItem_type := "hosted_tool_call";
     rawItem_name := None;
     rawItem_arguments := None;
     rawItem_callId := None |}.

(** Call 1 of the installation once its run has settled with four
    interruptions. *)
Definition demo_batch : Sys :=
  demo_run demo_streaming
    [StreamEnd 1 [list_files_call; delete_file_call; clear_outputs_call; bare_call]
       []].


(** Three entries of [config.mcpServers], the second one disabled. *)
Definition demo_servers : list Factory.IMCPServerConfig :=
  [{| Factory.sc_name := "docs"; Factory.sc_url := "https://mcp.example/docs";
      Factory.sc_enabled := true |};
   {| Factory.sc_name := "off"; Factory.sc_url := "https://mcp.example/off";
      Factory.sc_enabled := false |};
   {| Factory.sc_name := "files"; Factory.sc_url := "https://mcp.example/files";
      Factory.sc_enabled := true |}].

(** Every [close()] goes through; the second [connect()] throws. *)
Definition demo_closes (k : nat) : option Error := None.

Definition demo_connects (k : nat) : option Error :=
  if k =? 1 then Some {| message := "Failed to fetch" |} else None.

(** A factory, its first pass under way, that holds [demo_ready]. *)
Definition demo_factory : Factory.AgentManagerFactory :=
  (Factory.createAgent (demo_options "claude-sonnet-4-5" "sk-demo")
     (Factory.set_agentManagers [demo_ready]
        (Factory.new_AgentManagerFactory
           (demo_settings "claude-sonnet-4-5" "sk-demo") None))).2.

(** * Properties *)

Section Properties.

Variable X : Externals.

Ltac unfold_ops :=
  unfold generateResponse, generateResponse_run, generateResponse_catch,
    generateResponse_stream, generateResponse_poll, generateResponse_settled,
    initializeAgent, setSelectedTools, initializeAgent_begin,
    initializeAgent_finish, approveToolCall, rejectToolCall, resolve_pending,
    record_verdict, clearHistory, stopStreaming, _handleSingleToolApproval,
    register, invoke, set_frame, emit, bump, on_mgr, _handleToolCallStart,
    _handleToolOutput in *.

Ltac break_match :=
  repeat (simpl in *;
          match goal with
          | H : context [match ?x with _ => _ end] |- _ => destruct x eqn:?
          | H : context [if ?x then _ else _] |- _ => destruct x eqn:?
          | |- context [match ?x with _ => _ end] => destruct x eqn:?
          | |- context [if ?x then _ else _] => destruct x eqn:?
          end);
  simplify_eq; simpl in *.

Ltac log_simpl :=
  unfold usage_notifications, agent_events;
  rewrite ?omap_app; simpl; rewrite ?app_nil_r.

(** ** Small facts about the operations *)

Lemma size_pos_lookup (m : gmap string PendingApproval) id p :
  m !! id = Some p -> (0 <? size m) = true.
Proof.
  intros H. apply Nat.ltb_lt.
  assert (size m ≠ 0); [|lia].
  apply (map_size_ne_0_lookup_2 m id). by exists p.
Qed.

Lemma size_pos_empty (m : gmap string PendingApproval) :
  (0 <? size m) = false -> m = ∅.
Proof.
  intros H. apply Nat.ltb_ge in H. apply map_size_empty_iff. lia.
Qed.

Lemma exec_app s acts1 acts2 :
  exec X s (acts1 ++ acts2) =
  match exec X s acts1 with
  | Some s1 => exec X s1 acts2
  | None => None
  end.
Proof.
  revert s. induction acts1 as [|a acts1 IH]; intros s; simpl; [done|].
  destruct (step X s a); [apply IH | done].
Qed.

Lemma exec_snoc s acts a s' :
  exec X s (acts ++ [a]) = Some s' ->
  exists s1, exec X s acts = Some s1 /\ step X s1 a = Some s'.
Proof.
  rewrite exec_app. destruct (exec X s acts) as [s1|]; [|done].
  simpl. destruct (step X s1 a) eqn:E; [|done].
  intros [= <-]. eauto.
Qed.

(** ** The approval gate *)

Lemma register_group_frame group items s :
  let r := register_group X group items s in
  out r.2 = out s /\ heap r.2 = heap s /\ frames r.2 = frames s /\
  runs r.2 = runs s /\ serials r.2 = serials s /\
  draws r.2 = draws s + length items /\
  _controller (mgr r.2) = _controller (mgr s) /\
  _history (mgr r.2) = _history (mgr s) /\
  _tokenUsage (mgr r.2) = _tokenUsage (mgr s) /\
  r.1 = imap (fun k => approval_entry X (draws s + k)) items.
Proof.
  revert s. induction items as [|item rest IH]; intros s; simpl.
  - repeat split; try done; lia.
  - set (s1 := register _ _ _).
    specialize (IH s1). simpl in IH.
    destruct (register_group X group rest s1) as [approvals s2]; simpl in *.
    destruct IH as (-> & -> & -> & -> & -> & -> & -> & -> & -> & ->).
    repeat split; try done; try (subst s1; simpl; lia).
    rewrite Nat.add_0_r. unfold approval_entry at 2. f_equal.
    apply imap_ext. intros k x _. simpl.
    by replace (draws s + S k) with (S (draws s + k)) by lia.
Qed.

Lemma register_group_keeps group items s id :
  tagged group s id -> tagged group (register_group X group items s).2 id.
Proof.
  revert s. induction items as [|item rest IH]; intros s H; simpl; [done|].
  set (s1 := register _ _ _).
  specialize (IH s1).
  destruct (register_group X group rest s1) as [approvals s2]; simpl in *.
  apply IH. subst s1. unfold tagged, register, on_mgr; simpl.
  destruct (decide (fresh_id X "int-" (draws s) = id)) as [->|Hne].
  - rewrite lookup_insert_eq. eexists; split; [done|done].
  - rewrite lookup_insert_ne; [|done]. exact H.
Qed.

Lemma register_group_tags group items s k item :
  items !! k = Some item ->
  tagged group (register_group X group items s).2 (fresh_id X "int-" (draws s + k)).
Proof.
  revert s k. induction items as [|x rest IH]; intros s k H; [done|].
  simpl.
  set (s1 := register _ _ _).
  pose proof (IH s1) as IH1.
  pose proof (register_group_keeps group rest s1) as Hk.
  destruct (register_group X group rest s1) as [approvals s2]; simpl in *.
  destruct k as [|k].
  - rewrite Nat.add_0_r. apply Hk. subst s1.
    unfold tagged, register, on_mgr; simpl.
    rewrite lookup_insert_eq. eexists; split; done.
  - simpl in H. specialize (IH1 k H).
    subst s1. simpl in IH1.
    by replace (draws s + S k) with (S (draws s) + k) by lia.
Qed.

Lemma single_approval_frame item s :
  let s' := _handleSingleToolApproval X item s in
  out s' = out s ++
    [AgentEvent (tool_approval_required (fresh_id X "int-" (draws s))
       (or_else (rawItem_name item) "Unknown Tool")
       (_formatToolInput X (or_else (rawItem_arguments item) "{}"))
       (if String.eqb (rawItem_type item) "function_call"
        then rawItem_callId item else None))] /\
  _pendingApprovals (mgr s') !! fresh_id X "int-" (draws s) =
    Some {| interruption := item; approved := None; groupId := None |}.
Proof.
  unfold _handleSingleToolApproval, register, on_mgr, emit; simpl.
  split; [done|]. by rewrite lookup_insert_eq.
Qed.

Lemma grouped_approval_frame items s :
  let s' := _handleGroupedToolApprovals X items s in
  let group := fresh_id X "group-" (draws s) in
  out s' = out s ++
    [AgentEvent (grouped_approval_required group
       (imap (fun k => approval_entry X (S (draws s) + k)) items))] /\
  forall k item, items !! k = Some item ->
    tagged group s' (fresh_id X "int-" (S (draws s) + k)).
Proof.
  unfold _handleGroupedToolApprovals.
  pose proof (register_group_frame (fresh_id X "group-" (draws s)) items (bump s)) as F.
  pose proof (register_group_tags (fresh_id X "group-" (draws s)) items (bump s)) as T.
  destruct (register_group X _ items (bump s)) as [approvals s1]; simpl in *.
  destruct F as (Ho & _ & _ & _ & _ & _ & _ & _ & _ & ->).
  split.
  - unfold emit; simpl. by rewrite Ho.
  - intros k item H. apply (T k item H).
Qed.

(** What the end of a stream lets out, by the number of interruptions. *)
Lemma settled_approval_events s i r turns loc ints hist s' :
  frames s !! i = Some (GStream r turns loc) ->
  step X s (StreamEnd i ints hist) = Some s' ->
  match ints with
  | [] => out s' = out s
  | [item] =>
      out s' = out s ++
        [AgentEvent (tool_approval_required (fresh_id X "int-" (draws s))
           (or_else (rawItem_name item) "Unknown Tool")
           (_formatToolInput X (or_else (rawItem_arguments item) "{}"))
           (if String.eqb (rawItem_type item) "function_call"
            then rawItem_callId item else None))]
  | _ =>
      let group := fresh_id X "group-" (draws s) in
      let approvals := imap (fun k => approval_entry X (S (draws s) + k)) ints in
      out s' = out s ++ [AgentEvent (grouped_approval_required group approvals)]
      /\ length approvals = length ints
      /\ forall k item, ints !! k = Some item ->
           tagged group s' (fresh_id X "int-" (S (draws s) + k))
  end.
Proof.
  intros Hf. simpl. rewrite Hf. unfold generateResponse_settled.
  destruct (heap s !! r) as [res|]; [simpl|done].
  set (s1 := with_heap _ s).
  destruct ints as [|item [|item2 rest]].
  - simpl. intros [= <-]. done.
  - cbn [length Nat.ltb Nat.leb].
    set (s2 := on_mgr _ s1).
    destruct (single_approval_frame item s2) as [Ho Hp].
    unfold generateResponse_poll.
    rewrite (size_pos_lookup _ _ _ Hp).
    intros [= <-]. exact Ho.
  - cbn [length Nat.ltb Nat.leb].
    set (s2 := on_mgr _ s1).
    destruct (grouped_approval_frame (item :: item2 :: rest) s2) as [Ho Ht].
    unfold generateResponse_poll.
    destruct (Ht 0 item eq_refl) as (p & Hp & _).
    rewrite (size_pos_lookup _ _ _ Hp).
    intros [= <-]. split; [exact Ho|]. split.
    + by rewrite length_imap.
    + intros k it Hk. destruct (Ht k it Hk) as (q & Hq & Hg).
      exists q. split; [exact Hq | exact Hg].
Qed.

(** C7: approving or rejecting an id that is not in the pending set changes
    no field of the manager (pending set, history, counters, interrupted
    state), no run state, no call in flight and starts no run; it lets out a
    [console.warn] and nothing on the event signal. *)
Theorem unknown_interruption_is_noop s id a :
  _pendingApprovals (mgr s) !! id = None ->
  a = CallApproveToolCall id \/ a = CallRejectToolCall id ->
  exists s',
    step X s a = Some s' /\
    mgr s' = mgr s /\ heap s' = heap s /\ frames s' = frames s /\
    runs s' = runs s /\
    out s' = out s ++
      [ConsoleWarn ("No pending approval found for interruption " +:+ id) None] /\
    agent_events (out s') = agent_events (out s) /\
    usage_notifications (out s') = usage_notifications (out s).
Proof.
  intros Hnone [-> | ->]; simpl;
    unfold approveToolCall, rejectToolCall; rewrite Hnone;
    (eexists; split; [reflexivity|]);
    unfold emit, agent_events, usage_notifications; simpl;
    rewrite !omap_app; simpl; rewrite !app_nil_r; done.
Qed.

(** C10: [clearHistory] empties the history, zeroes the counters, empties
    the pending set, nulls the interrupted state and installs a new runner,
    while no run state receives a verdict; a call that was waiting on the
    pending set then finds it empty at its next poll and resumes the run
    from the state of its result as it stood. *)
Theorem clearHistory_discards_pending s i r turns res c :
  frames s !! i = Some (GWait r turns) ->
  heap s !! r = Some res ->
  _controller (mgr s) = Some c ->
  runner_serial (_runner (mgr s)) < serials s ->
  let s1 := clearHistory s in
  _history (mgr s1) = [] /\
  _tokenUsage (mgr s1) = zero_usage /\
  _pendingApprovals (mgr s1) = ∅ /\
  _interruptedState (mgr s1) = None /\
  _runner (mgr s1) = {| runner_serial := serials s; tracingDisabled := true |} /\
  _runner (mgr s1) <> _runner (mgr s) /\
  heap s1 = heap s /\
  frames s1 = frames s /\
  step X s1 (Tick i) =
    Some (set_frame i (GAwaitRun turns)
            (invoke {| rc_runner := _runner (mgr s1);
                       rc_agent := _agent (mgr s);
                       rc_input := FromState (state res);
                       rc_signal := c;
                       rc_maxTurns := Some turns |} s1)).
Proof.
  intros Hf Hh Hc Hr. simpl.
  repeat split; try done.
  - intros E. rewrite <- E in Hr. simpl in Hr. lia.
  - unfold clearHistory, emit, on_mgr; simpl. rewrite Hf.
    unfold generateResponse_poll; simpl.
    rewrite map_size_empty. simpl. rewrite Hh. simpl. rewrite Hc. done.
Qed.

(** ** The event translator *)

Lemma append_empty_r (a : string) : a +:+ "" = a.
Proof.
  induction a as [|ch a IH]; [done|].
  change (String ch (a +:+ "") = String ch a). by rewrite IH.
Qed.

Lemma append_assoc (a b c : string) : (a +:+ b) +:+ c = a +:+ (b +:+ c).
Proof.
  induction a as [|ch a IH]; [done|].
  change (String ch ((a +:+ b) +:+ c) = String ch (a +:+ (b +:+ c))).
  by rewrite IH.
Qed.

Lemma chunks_of_app id log1 log2 :
  chunks_of id (log1 ++ log2) = chunks_of id log1 +:+ chunks_of id log2.
Proof.
  induction log1 as [|o log1 IH]; simpl; [done|].
  destruct o as [[]| |]; try exact IH.
  destruct (String.eqb messageId id); [|exact IH].
  by rewrite IH, append_assoc.
Qed.

Lemma chunks_of_other id o :
  is_message_chunk o = false -> chunks_of id [o] = "".
Proof. by destruct o as [[]| |]. Qed.

Lemma chunks_of_unnamed id log :
  (forall o, o ∈ log -> message_id_of o <> Some id) -> chunks_of id log = "".
Proof.
  induction log as [|o log IH]; intros H; simpl; [done|].
  assert (chunks_of id log = "") as E.
  { apply IH. intros o' Ho'. apply H. by right. }
  destruct o as [[]| |]; try exact E.
  destruct (String.eqb messageId id) eqn:Q; [|exact E].
  apply String.eqb_eq in Q. subst.
  exfalso. apply (H (AgentEvent (message_chunk id chunk fullContent))); [by left|done].
Qed.

(** Where an entry of a log extended by one lies. *)
Lemma snoc_split {A} (log : list A) e pre x post :
  log ++ [e] = pre ++ x :: post ->
  (post = [] /\ pre = log /\ x = e) \/
  (exists post', post = post' ++ [e] /\ log = pre ++ x :: post').
Proof.
  destruct post as [|y post _] using rev_ind.
  - intros H. apply app_inj_tail in H as [-> ->]. by left.
  - intros H. right. exists post.
    change (pre ++ x :: post ++ [y]) with (pre ++ (x :: post) ++ [y]) in H.
    rewrite app_assoc in H. apply app_inj_tail in H as [-> ->]. done.
Qed.

Lemma process_item_keeps I :
  stream_invariant X I ->
  forall ev loc s base log,
    out s = base ++ log -> I log loc (draws s) ->
    exists log',
      out (process_item X ev loc s).2 = base ++ log' /\
      I log' (process_item X ev loc s).1 (draws (process_item X ev loc s).2).
Proof.
  intros [Hs Hc Hd Ho] ev loc s base log E H.
  destruct ev as [[| delta | usage | [id name input | ty] | ty] | name item | ty];
    simpl.
  - eexists. split; [by rewrite E, <- app_assoc|]. exact (Hs log loc _ H).
  - destruct (currentMessageId loc) as [id|] eqn:C; simpl.
    + eexists. split; [by rewrite E, <- app_assoc|]. exact (Hc log loc _ id _ H C).
    + by exists log.
  - destruct (currentMessageId loc) as [id|] eqn:C; simpl.
    + eexists. split; [by rewrite E, <- !app_assoc|].
      rewrite app_assoc. apply Ho; [|done]. exact (Hd log loc _ id H C).
    + eexists. split; [by rewrite E, <- app_assoc|]. by apply Ho.
  - eexists. split; [by rewrite E, <- app_assoc|]. by apply Ho.
  - by exists log.
  - by exists log.
  - destruct (String.eqb name "tool_output"); simpl.
    + eexists. split; [by rewrite E, <- app_assoc|]. by apply Ho.
    + by exists log.
  - by exists log.
Qed.

Lemma process_items_keeps I :
  stream_invariant X I ->
  forall events loc s base log,
    out s = base ++ log -> I log loc (draws s) ->
    exists log',
      out (process_items X events loc s).2 = base ++ log' /\
      I log' (process_items X events loc s).1
        (draws (process_items X events loc s).2).
Proof.
  intros HI events. induction events as [|ev rest IH]; intros loc s base log E H.
  - by exists log.
  - simpl. destruct (process_item_keeps I HI ev loc s base log E H) as (log1 & E1 & H1).
    destruct (process_item X ev loc s) as [loc1 s1]; simpl in *.
    apply (IH loc1 s1 base log1 E1 H1).
Qed.

Lemma process_items_app events1 events2 loc s :
  process_items X (events1 ++ events2) loc s =
  process_items X events2 (process_items X events1 loc s).1
    (process_items X events1 loc s).2.
Proof.
  revert loc s. induction events1 as [|ev rest IH]; intros loc s; simpl; [done|].
  destruct (process_item X ev loc s) as [loc1 s1]. apply IH.
Qed.

Lemma existsb_snoc {A} (f : A -> bool) l x :
  existsb f (l ++ [x]) = existsb f l || f x.
Proof. rewrite existsb_app. simpl. by rewrite orb_false_r. Qed.

Lemma regroup {A} (pre : list A) x mid rest :
  pre ++ x :: mid ++ rest = (pre ++ x :: mid) ++ rest.
Proof. by rewrite <- app_assoc. Qed.

Lemma started_first_invariant : stream_invariant X started_first.
Proof.
  split.
  - (* a message starts *)
    intros log loc d (H1 & H2 & H3 & H4). repeat split.
    + intros pre o post id E Hid.
      apply snoc_split in E as [(_ & _ & ->) | (post' & _ & ->)]; [done|].
      by apply (H1 pre o post' id).
    + simpl. intros id [= <-]. apply elem_of_app. right. by left.
    + intros pre id content mid o post E Ho.
      rewrite regroup in E.
      apply snoc_split in E as [(_ & _ & ->) | (post' & _ & E)]; [done|].
      rewrite <- regroup in E. by apply (H3 pre id content mid o post').
    + intros pre id content mid _ E.
      apply snoc_split in E as [(_ & _ & [=]) | (mid' & -> & _)].
      by rewrite existsb_snoc, orb_true_r.
  - (* a fragment is appended *)
    intros log loc d id c (H1 & H2 & H3 & H4) C. repeat split.
    + intros pre o post id' E Hid.
      apply snoc_split in E as [(_ & -> & ->) | (post' & _ & ->)].
      * simpl in Hid. injection Hid as <-. by apply H2.
      * by apply (H1 pre o post' id').
    + simpl. intros id' [= <-]. apply elem_of_app. left. by apply H2.
    + intros pre id' content mid o post E Ho.
      rewrite regroup in E.
      apply snoc_split in E as [(_ & E & _) | (post' & _ & E)].
      * apply (H4 pre id' content mid); [|by symmetry].
        by rewrite C.
      * rewrite <- regroup in E. by apply (H3 pre id' content mid o post').
    + intros pre id' content mid _ E.
      apply snoc_split in E as [(_ & _ & [=]) | (mid' & -> & E)].
      rewrite existsb_snoc. apply orb_true_iff. left.
      apply (H4 pre id' content mid'); [by rewrite C|done].
  - (* the message completes *)
    intros log loc d id (H1 & H2 & H3 & H4) C. repeat split.
    + intros pre o post id' E Hid.
      apply snoc_split in E as [(_ & -> & ->) | (post' & _ & ->)].
      * simpl in Hid. injection Hid as <-. by apply H2.
      * by apply (H1 pre o post' id').
    + simpl. done.
    + intros pre id' content mid o post E Ho.
      rewrite regroup in E.
      apply snoc_split in E as [(_ & _ & ->) | (post' & _ & E)]; [done|].
      rewrite <- regroup in E. by apply (H3 pre id' content mid o post').
    + simpl. intros pre id' content mid [? [=]].
  - (* something else goes out *)
    intros log loc d o (H1 & H2 & H3 & H4) Hno. repeat split.
    + intros pre o' post id E Hid.
      apply snoc_split in E as [(_ & _ & ->) | (post' & _ & ->)].
      * by destruct o as [[]| |].
      * by apply (H1 pre o' post' id).
    + intros id Hc. apply elem_of_app. left. by apply H2.
    + intros pre id content mid o' post E Ho.
      rewrite regroup in E.
      apply snoc_split in E as [(_ & _ & ->) | (post' & _ & E)].
      * by destruct o as [[]| |].
      * rewrite <- regroup in E. by apply (H3 pre id content mid o' post').
    + intros pre id content mid Hc E.
      apply snoc_split in E as [(_ & _ & <-) | (mid' & -> & E)]; [done|].
      rewrite existsb_snoc. apply orb_true_iff. left.
      by apply (H4 pre id content mid').
Qed.

Lemma contents_add_up_invariant :
  (forall a b, fresh_id X "msg-" a = fresh_id X "msg-" b -> a = b) ->
  stream_invariant X (contents_add_up X).
Proof.
  intros J. split.
  - (* a message starts *)
    intros log loc d (H1 & H2 & H3 & H4).
    assert (forall o, o ∈ log -> message_id_of o <> Some (fresh_id X "msg-" d)) as New.
    { intros o Ho Hid. destruct (H4 o _ Ho Hid) as (k & Hk & E).
      apply J in E. lia. }
    repeat split.
    + intros pre id c full post E.
      apply snoc_split in E as [(_ & _ & [=]) | (post' & _ & ->)].
      by apply (H1 pre id c full post').
    + apply snoc_split in H as [(_ & _ & [=]) | (post' & _ & ->)].
      by apply (H2 pre id content post').
    + apply snoc_split in H as [(_ & _ & [=]) | (post' & -> & ->)].
      rewrite chunks_of_app. destruct (H2 pre id content post' eq_refl) as [_ ->].
      done.
    + simpl in H. injection H as <-.
      rewrite chunks_of_app, (chunks_of_unnamed _ log New). done.
    + simpl in H. injection H as <-. intros pre content post E.
      apply snoc_split in E as [(_ & _ & [=]) | (post' & _ & ->)].
      apply (New (AgentEvent (message_complete (fresh_id X "msg-" d) content))); [|done].
      apply elem_of_app. right. by left.
    + simpl in H. injection H as <-. exists d. split; [lia|done].
    + intros o id Ho Hid. apply elem_of_app in Ho as [Ho|Ho].
      * destruct (H4 o id Ho Hid) as (k & Hk & E). exists k. split; [lia|done].
      * apply list_elem_of_singleton in Ho as ->. done.
  - (* a fragment is appended *)
    intros log loc d id c (H1 & H2 & H3 & H4) C.
    destruct (H3 id C) as (Hfull & Hopen & Hk).
    repeat split.
    + intros pre id' c' full post E.
      apply snoc_split in E as [(_ & -> & [= -> -> ->]) | (post' & _ & ->)].
      * by rewrite Hfull.
      * by apply (H1 pre id' c' full post').
    + apply snoc_split in H as [(_ & _ & [=]) | (post' & _ & ->)].
      by apply (H2 pre id0 content post').
    + apply snoc_split in H as [(_ & _ & [=]) | (post' & -> & E)].
      rewrite chunks_of_app. destruct (H2 pre id0 content post' E) as [_ ->].
      simpl. destruct (String.eqb id id0) eqn:Q; [|done].
      apply String.eqb_eq in Q. subst id0. by destruct (Hopen pre content post').
    + simpl in H. injection H as <-.
      rewrite chunks_of_app, Hfull. simpl. rewrite String.eqb_refl.
      by rewrite append_empty_r.
    + simpl in H. injection H as <-. intros pre content post E.
      apply snoc_split in E as [(_ & _ & [=]) | (post' & _ & E)].
      by apply (Hopen pre content post').
    + simpl in H. injection H as <-. exact Hk.
    + intros o id' Ho Hid. apply elem_of_app in Ho as [Ho|Ho].
      * by apply (H4 o id').
      * apply list_elem_of_singleton in Ho as ->. simpl in Hid.
        injection Hid as <-. exact Hk.
  - (* the message completes *)
    intros log loc d id (H1 & H2 & H3 & H4) C.
    destruct (H3 id C) as (Hfull & Hopen & Hk).
    repeat split.
    + intros pre id' c' full post E.
      apply snoc_split in E as [(_ & _ & [=]) | (post' & _ & ->)].
      by apply (H1 pre id' c' full post').
    + apply snoc_split in H as [(_ & -> & [= -> ->]) | (post' & _ & ->)].
      * done.
      * by apply (H2 pre id0 content post').
    + apply snoc_split in H as [(-> & _ & _) | (post' & -> & E)]; [done|].
      rewrite chunks_of_app. destruct (H2 pre id0 content post' E) as [_ ->].
      done.
    + simpl in H. done.
    + simpl in H. done.
    + simpl in H. done.
    + intros o id' Ho Hid. apply elem_of_app in Ho as [Ho|Ho].
      * by apply (H4 o id').
      * apply list_elem_of_singleton in Ho as ->. simpl in Hid.
        injection Hid as <-. exact Hk.
  - (* something else goes out *)
    intros log loc d o (H1 & H2 & H3 & H4) Hno.
    assert (is_message_chunk o = false) as Hnc by (by destruct o as [[]| |]).
    assert (message_id_of o = None) as Hni by (by destruct o as [[]| |]).
    repeat split.
    + intros pre id' c' full post E.
      apply snoc_split in E as [(_ & _ & <-) | (post' & _ & ->)]; [done|].
      by apply (H1 pre id' c' full post').
    + apply snoc_split in H as [(_ & _ & <-) | (post' & _ & ->)]; [done|].
      by apply (H2 pre id content post').
    + apply snoc_split in H as [(_ & _ & <-) | (post' & -> & E)]; [done|].
      rewrite chunks_of_app, (chunks_of_other _ _ Hnc).
      destruct (H2 pre id content post' E) as [_ ->]. done.
    + rewrite chunks_of_app, (chunks_of_other _ _ Hnc), append_empty_r.
      by apply H3.
    + intros pre content post E.
      apply snoc_split in E as [(_ & _ & <-) | (post' & _ & E)]; [done|].
      by destruct (H3 id H) as (_ & Hopen & _); apply (Hopen pre content post').
    + by apply H3.
    + intros o' id' Ho Hid. apply elem_of_app in Ho as [Ho|Ho].
      * by apply (H4 o' id').
      * apply list_elem_of_singleton in Ho as ->. congruence.
Qed.

Lemma process_items_before_start events loc s :
  forallb (fun ev => negb (is_response_started ev)) events = true ->
  currentMessageId loc = None ->
  exists quiet,
    (process_items X events loc s).1 = loc /\
    out (process_items X events loc s).2 = out s ++ quiet /\
    forallb (fun o => negb (is_message_event o)) quiet = true.
Proof.
  revert s. induction events as [|ev rest IH]; intros s Hev C.
  - exists []. by rewrite app_nil_r.
  - simpl in Hev. apply andb_true_iff in Hev as [Hev Hrest].
    assert (exists one,
               (process_item X ev loc s).1 = loc /\
               out (process_item X ev loc s).2 = out s ++ one /\
               forallb (fun o => negb (is_message_event o)) one = true)
      as (one & E1 & E2 & E3).
    { destruct ev as [[| delta | usage | [id name input | ty] | ty] | name item | ty];
        simpl; try discriminate Hev; rewrite ?C; simpl.
      - exists []. by rewrite app_nil_r.
      - eexists [_]. done.
      - eexists [_]. done.
      - exists []. by rewrite app_nil_r.
      - exists []. by rewrite app_nil_r.
      - destruct (String.eqb name "tool_output"); simpl.
        + eexists [_]. done.
        + exists []. by rewrite app_nil_r.
      - exists []. by rewrite app_nil_r. }
    simpl. destruct (process_item X ev loc s) as [loc1 s1]; simpl in *. subst loc1.
    destruct (IH s1 Hrest C) as (quiet & Q1 & Q2 & Q3).
    exists (one ++ quiet). split; [done|]. split.
    + by rewrite Q2, E2, app_assoc.
    + by rewrite forallb_app, E3, Q3.
Qed.

(** C9: in what one pass of [_processRunResult] lets out, every
    [message_chunk] and [message_complete] is preceded by a [message_start]
    with its message id; a [message_chunk] that follows a [message_complete]
    has a [message_start] between the two; and the items that come before
    the first [response_started] of the stream let out no message event and
    leave the locals as they were, so that the rest of the stream is
    processed as from the start. *)
Theorem chunks_follow_a_start s events new :
  out (_processRunResult X events s) = out s ++ new ->
  (forall pre o post id,
      new = pre ++ o :: post -> message_id_of o = Some id ->
      AgentEvent (message_start id) ∈ pre) /\
  (forall pre id content mid id' c full post,
      new = pre ++ AgentEvent (message_complete id content)
                :: mid ++ AgentEvent (message_chunk id' c full) :: post ->
      existsb is_message_start mid = true) /\
  (forall before after,
      events = before ++ after ->
      forallb (fun ev => negb (is_response_started ev)) before = true ->
      exists quiet,
        out (_processRunResult X before s) = out s ++ quiet /\
        forallb (fun o => negb (is_message_event o)) quiet = true /\
        process_items X events fresh_locals s =
        process_items X after fresh_locals (_processRunResult X before s)).
Proof.
  intros E. unfold _processRunResult in *.
  destruct (process_items_keeps started_first started_first_invariant
              events fresh_locals s (out s) [])
    as (log & Elog & H1 & H2 & H3 & H4).
  { by rewrite app_nil_r. }
  { repeat split; try done.
    - intros pre o post id Hnil. by destruct pre.
    - intros pre id content mid o post Hnil. by destruct pre.
    - intros pre id content mid _ Hnil. by destruct pre. }
  rewrite Elog in E. apply app_inv_head in E. subst log.
  split; [exact H1|]. split.
  - intros pre id content mid id' c full post Hsplit.
    by apply (H3 pre id content mid (AgentEvent (message_chunk id' c full)) post).
  - intros before after -> Hb.
    destruct (process_items_before_start before fresh_locals s Hb eq_refl)
      as (quiet & Q1 & Q2 & Q3).
    exists quiet. split; [done|]. split; [done|].
    by rewrite process_items_app, Q1.
Qed.

(** One pass of [_processRunResult] alone: when no two message ids drawn
    are equal, in what the pass lets out the [fullContent] of every
    [message_chunk] is the concatenation of the fragments let out for its
    message id up to and including its own, and the [content] of every
    [message_complete] is the concatenation of the fragments let out for its
    id before it, which are all the fragments of that id. *)
Theorem one_pass_accumulates s events new :
  (forall a b, fresh_id X "msg-" a = fresh_id X "msg-" b -> a = b) ->
  out (_processRunResult X events s) = out s ++ new ->
  (forall pre id c full post,
      new = pre ++ AgentEvent (message_chunk id c full) :: post ->
      full = chunks_of id pre +:+ c) /\
  (forall pre id content post,
      new = pre ++ AgentEvent (message_complete id content) :: post ->
      content = chunks_of id pre /\ content = chunks_of id new).
Proof.
  intros J E. unfold _processRunResult in *.
  destruct (process_items_keeps (contents_add_up X) (contents_add_up_invariant J)
              events fresh_locals s (out s) [])
    as (log & Elog & H1 & H2 & H3 & H4).
  { by rewrite app_nil_r. }
  { repeat split; try done.
    - intros pre id c full post Hnil. by destruct pre.
    - by destruct pre.
    - by destruct pre.
    - intros o id Ho. by apply elem_of_nil in Ho. }
  rewrite Elog in E. apply app_inv_head in E. subst log.
  split; [exact H1|].
  intros pre id content post ->.
  destruct (H2 pre id content post eq_refl) as [Hc Hp].
  split; [exact Hc|].
  rewrite chunks_of_app. simpl. by rewrite Hp, append_empty_r.
Qed.

(** ** Token accounting *)

Lemma grouped_usage verdict group ids s :
  let s' := if verdict : bool then approveGroupedToolCalls group ids s
            else rejectGroupedToolCalls group ids s in
  _tokenUsage (mgr s') = _tokenUsage (mgr s) /\ out s' = out s /\
  _history (mgr s') = _history (mgr s) /\ frames s' = frames s /\
  runs s' = runs s /\ _controller (mgr s') = _controller (mgr s) /\
  _agent (mgr s') = _agent (mgr s).
Proof.
  revert s. induction ids as [|id rest IH]; intros s; destruct verdict; simpl;
    try done.
  - specialize (IH
      match _pendingApprovals (mgr s) !! id with
      | Some pending =>
          if bool_decide (groupId pending = Some group) then
            resolve_pending id pending true
              (record_verdict (interruption pending) true s)
          else s
      | None => s
      end). simpl in IH.
    destruct IH as (-> & -> & -> & -> & -> & -> & ->).
    unfold_ops. break_match; done.
  - specialize (IH
      match _pendingApprovals (mgr s) !! id with
      | Some pending =>
          if bool_decide (groupId pending = Some group) then
            resolve_pending id pending false
              (record_verdict (interruption pending) false s)
          else s
      | None => s
      end). simpl in IH.
    destruct IH as (-> & -> & -> & -> & -> & -> & ->).
    unfold_ops. break_match; done.
Qed.

Lemma grouped_draws verdict group ids s :
  let s' := if verdict : bool then approveGroupedToolCalls group ids s
            else rejectGroupedToolCalls group ids s in
  draws s' = draws s /\ out s' = out s /\ frames s' = frames s.
Proof.
  revert s. induction ids as [|id rest IH]; intros s; destruct verdict; simpl;
    try done;
    rewrite (proj1 (IH _)), (proj1 (proj2 (IH _))), (proj2 (proj2 (IH _)));
    (destruct (_pendingApprovals (mgr s) !! id) as [p|]; [|done]);
    (destruct (bool_decide _); [|done]);
    unfold resolve_pending, record_verdict; simpl;
    (destruct (_interruptedState (mgr s)); [destruct (heap s !! _)|]; done).
Qed.

Lemma grouped_approval_usage items s :
  let s' := _handleGroupedToolApprovals X items s in
  _tokenUsage (mgr s') = _tokenUsage (mgr s) /\
  _history (mgr s') = _history (mgr s) /\
  _controller (mgr s') = _controller (mgr s) /\
  frames s' = frames s /\ runs s' = runs s /\ heap s' = heap s /\
  usage_notifications (out s') = usage_notifications (out s).
Proof.
  unfold _handleGroupedToolApprovals.
  pose proof (register_group_frame (fresh_id X "group-" (draws s)) items (bump s)) as F.
  destruct (register_group X _ items (bump s)) as [approvals s1]; simpl in *.
  destruct F as (Ho & Hh & Hf & Hr & _ & _ & Hc & Hhi & Hu & _).
  unfold emit; simpl. rewrite Ho, Hu, Hhi, Hc, Hf, Hr, Hh. log_simpl. done.
Qed.

(** What the end of an initialisation leaves alone. *)
Lemma initializeAgent_finish_frame s :
  let s' := initializeAgent_finish X s in
  heap s' = heap s /\ frames s' = frames s /\ runs s' = runs s /\
  draws s' = draws s /\ serials s' = serials s /\
  _history (mgr s') = _history (mgr s) /\
  _tokenUsage (mgr s') = _tokenUsage (mgr s) /\
  _controller (mgr s') = _controller (mgr s) /\
  _pendingApprovals (mgr s') = _pendingApprovals (mgr s) /\
  _interruptedState (mgr s') = _interruptedState (mgr s) /\
  _runner (mgr s') = _runner (mgr s) /\
  _settingsModel (mgr s') = _settingsModel (mgr s) /\
  _activeProvider (mgr s') = _activeProvider (mgr s) /\
  exists warned, out s' = out s ++ warned /\
    agent_events warned = [] /\ usage_notifications warned = [].
Proof.
  unfold initializeAgent_finish.
  destruct (_createModel X (mgr s)) as [created|e]; simpl.
  - repeat split; try done. exists []. by rewrite app_nil_r.
  - repeat split; try done. by eexists [_].
Qed.

#[local] Arguments initializeAgent_finish : simpl never.

(** The three ways [generateResponse_run] goes. *)
Lemma generateResponse_run_cases i msg s :
  let pushed := on_mgr (fun m => set_history (_history m ++ [user msg]) m) s in
  (_agent (mgr s) = None /\
   generateResponse_run i msg s =
     generateResponse_catch i {| message := "Failed to initialize agent" |} s) \/
  (is_Some (_agent (mgr s)) /\ _controller (mgr s) = None /\
   generateResponse_run i msg s = generateResponse_catch i null_signal pushed) \/
  (exists call turns,
     is_Some (_agent (mgr s)) /\ is_Some (_controller (mgr s)) /\
     rc_input call = FromHistory (_history (mgr s) ++ [user msg]) /\
     rc_agent call = _agent (mgr s) /\
     generateResponse_run i msg s =
       set_frame i (GAwaitRun turns) (invoke call pushed)).
Proof.
  unfold generateResponse_run.
  destruct (_agent (mgr s)) as [agent|] eqn:A; [|by left].
  right. simpl. destruct (_controller (mgr s)) as [c|] eqn:C.
  - right. eexists _, _. repeat split; try done; by eexists.
  - left. repeat split; try done.
Qed.

Lemma log_snoc_event log e :
  usage_notifications (log ++ [AgentEvent e]) = usage_notifications log.
Proof. log_simpl. done. Qed.

Lemma log_snoc_warn log t d :
  usage_notifications (log ++ [ConsoleWarn t d]) = usage_notifications log.
Proof. log_simpl. done. Qed.

Lemma log_snoc_usage log u :
  usage_notifications (log ++ [TokenUsageChanged u]) =
  usage_notifications log ++ [u].
Proof. log_simpl. done. Qed.

Lemma generateResponse_run_usage i msg s :
  _tokenUsage (mgr (generateResponse_run i msg s)) = _tokenUsage (mgr s) /\
  usage_notifications (out (generateResponse_run i msg s)) =
    usage_notifications (out s).
Proof.
  destruct (generateResponse_run_cases i msg s)
    as [(_ & ->) | [(_ & _ & ->) | (call & turns & _ & _ & _ & _ & ->)]];
    simpl; rewrite ?log_snoc_event; done.
Qed.

Lemma generateResponse_poll_usage i r turns s s' :
  generateResponse_poll i r turns s = Some s' ->
  _tokenUsage (mgr s') = _tokenUsage (mgr s) /\
  usage_notifications (out s') = usage_notifications (out s).
Proof.
  unfold generateResponse_poll.
  destruct (0 <? size _).
  - by intros [= <-].
  - destruct (heap s !! r); [simpl|done].
    destruct (_controller (mgr s)); intros [= <-]; simpl;
      rewrite ?log_snoc_event; done.
Qed.

Lemma resolve_usage id verdict s :
  let s' := if verdict : bool then approveToolCall id s else rejectToolCall id s in
  _tokenUsage (mgr s') = _tokenUsage (mgr s) /\
  usage_notifications (out s') = usage_notifications (out s) /\
  _history (mgr s') = _history (mgr s) /\ frames s' = frames s /\
  runs s' = runs s /\ agent_events (out s') = agent_events (out s).
Proof.
  destruct verdict; simpl; unfold approveToolCall, rejectToolCall;
    (destruct (_pendingApprovals (mgr s) !! id);
     [unfold resolve_pending, record_verdict; simpl;
      destruct (_interruptedState (mgr s)); [destruct (heap s !! _)|]; done
     |simpl; log_simpl; done]).
Qed.

Lemma step_usage s a s' :
  step X s a = Some s' ->
  _tokenUsage (mgr s') = tally (_tokenUsage (mgr s)) [a] /\
  usage_notifications (out s') =
    usage_notifications (out s) ++ tally_log (_tokenUsage (mgr s)) [a].
Proof.
  intros H.
  assert (forall t : Sys,
             _tokenUsage (mgr t) = _tokenUsage (mgr s) /\
             usage_notifications (out t) = usage_notifications (out s) ->
             _tokenUsage (mgr t) = _tokenUsage (mgr s) /\
             usage_notifications (out t) = usage_notifications (out s) ++ [])
    as Same by (intros t [-> ->]; by rewrite app_nil_r).
  destruct a; simpl in H.
  - (* generateResponse *)
    injection H as <-. apply Same. unfold generateResponse. simpl.
    destruct (_agent (mgr s)).
    + destruct (generateResponse_run_usage (length (frames s)) msg
                  (with_frames (frames s ++ [Settled])
                     (with_serials (S (serials s))
                        (on_mgr (set_controller
                                   (Some {| ctl_serial := serials s;
                                            aborted := false |})) s))))
        as [-> ->]. done.
    + unfold initializeAgent_begin. simpl.
      by destruct (_isInitializing (mgr s)).
  - injection H as <-. apply Same. unfold initializeAgent, initializeAgent_begin.
    destruct (_isInitializing (mgr s)); [done|]. by destruct mcpServers.
  - injection H as <-. apply Same. unfold setSelectedTools, initializeAgent_begin.
    simpl. by destruct (_isInitializing (mgr s)).
  - injection H as <-. apply Same.
    by destruct (resolve_usage interruptionId true s) as (-> & -> & _).
  - injection H as <-. apply Same.
    by destruct (resolve_usage interruptionId false s) as (-> & -> & _).
  - injection H as <-. apply Same.
    by destruct (grouped_usage true groupId0 interruptionIds s) as (-> & -> & _).
  - injection H as <-. apply Same.
    by destruct (grouped_usage false groupId0 interruptionIds s) as (-> & -> & _).
  - injection H as <-. simpl. by rewrite log_snoc_usage.
  - injection H as <-. apply Same. unfold stopStreaming.
    by destruct (_controller (mgr s)).
  - (* the awaited initialisation is over *)
    apply Same.
    destruct (initializeAgent_finish_frame s)
      as (_ & _ & _ & _ & _ & _ & Hu & _ & _ & _ & _ & _ & _ & w & Ho & _ & Hw).
    assert (usage_notifications (out (initializeAgent_finish X s)) =
            usage_notifications (out s)) as Hn.
    { rewrite Ho. unfold usage_notifications in *. by rewrite omap_app, Hw, app_nil_r. }
    destruct (frames s !! i) as [[started m| | | | |]|]; try discriminate H;
      injection H as <-.
    + destruct started.
      * destruct (generateResponse_run_usage i m (initializeAgent_finish X s))
          as [-> ->]. done.
      * apply generateResponse_run_usage.
    + simpl. done.
  - destruct (frames s !! i) as [[]|]; try discriminate H. injection H as <-.
    apply Same. done.
  - destruct (frames s !! i) as [[]|]; try discriminate H. injection H as <-.
    apply Same. simpl. by rewrite log_snoc_event.
  - destruct (frames s !! i) as [[]|]; try discriminate H.
    destruct ev as [[| delta | usage | [id name input | ty] | ty] | name item | ty];
      simpl in H.
    + injection H as <-. apply Same. simpl. by rewrite log_snoc_event.
    + apply Same. destruct (currentMessageId loc); injection H as <-; simpl;
        rewrite ?log_snoc_event; done.
    + destruct (currentMessageId loc); injection H as <-; simpl;
        rewrite log_snoc_usage, ?log_snoc_event; done.
    + injection H as <-. apply Same. simpl. by rewrite log_snoc_event.
    + injection H as <-. by apply Same.
    + injection H as <-. by apply Same.
    + apply Same. destruct (String.eqb name "tool_output"); injection H as <-;
        simpl; rewrite ?log_snoc_event; done.
    + injection H as <-. by apply Same.
  - destruct (frames s !! i) as [[]|]; try discriminate H. apply Same.
    unfold generateResponse_settled in H.
    destruct (heap s !! result) as [res|]; [simpl in H|done].
    destruct (0 <? length ints).
    + set (s2 := on_mgr _ _) in H.
      assert (exists s3, _tokenUsage (mgr s3) = _tokenUsage (mgr s) /\
                usage_notifications (out s3) = usage_notifications (out s) /\
                generateResponse_poll i result maxTurns0 s3 = Some s')
        as (s3 & U & N & P).
      { destruct (1 <? length ints).
        - eexists. split; [|split; [|exact H]].
          + by destruct (grouped_approval_usage ints s2) as (-> & _).
          + by destruct (grouped_approval_usage ints s2) as (_ & _ & _ & _ & _ & _ & ->).
        - destruct ints as [|item rest].
          + eexists. split; [|split; [|exact H]]; done.
          + eexists. split; [|split; [|exact H]]; simpl;
              rewrite ?log_snoc_event; done. }
      destruct (generateResponse_poll_usage _ _ _ _ _ P) as [-> ->]. done.
    + injection H as <-. done.
  - destruct (frames s !! i) as [[]|]; try discriminate H. injection H as <-.
    apply Same. simpl. by rewrite log_snoc_event.
  - destruct (frames s !! i) as [[]|]; try discriminate H. apply Same.
    by apply generateResponse_poll_usage in H.
Qed.

Lemma tally_cons base a rest :
  tally base (a :: rest) = tally (tally base [a]) rest.
Proof.
  destruct a; try done.
  by destruct ev as [[]| |].
Qed.

Lemma tally_log_cons base a rest :
  tally_log base (a :: rest) = tally_log base [a] ++ tally_log (tally base [a]) rest.
Proof.
  destruct a; try done.
  by destruct ev as [[]| |].
Qed.

Lemma tally_app base acts1 acts2 :
  tally base (acts1 ++ acts2) = tally (tally base acts1) acts2.
Proof.
  revert base. induction acts1 as [|a rest IH]; intros base; [done|].
  rewrite <- app_comm_cons, tally_cons, IH, <- tally_cons. done.
Qed.

Lemma exec_usage s acts s' :
  exec X s acts = Some s' ->
  _tokenUsage (mgr s') = tally (_tokenUsage (mgr s)) acts /\
  usage_notifications (out s') =
    usage_notifications (out s) ++ tally_log (_tokenUsage (mgr s)) acts.
Proof.
  revert s. induction acts as [|a rest IH]; intros s H.
  - injection H as <-. by rewrite app_nil_r.
  - simpl in H. destruct (step X s a) as [s1|] eqn:E; [|done].
    destruct (step_usage s a s1 E) as [U N].
    destruct (IH s1 H) as [U' N'].
    rewrite tally_cons, tally_log_cons, U', N', U, N, app_assoc. done.
Qed.

(** ** The addition of doubles on safe integers *)

Section Doubles.

#[local] Open Scope Z_scope.

Lemma iter_pos_eq {A} (f : A -> A) n x :
  SpecFloat.iter_pos f n x = Pos.iter f x n.
Proof.
  revert x. induction n as [n IH|n IH|]; intros x; simpl.
  - rewrite !IH. now rewrite !Pos.iter_swap.
  - rewrite !IH. reflexivity.
  - reflexivity.
Qed.

Lemma iter_pos_nat {A} (f : A -> A) n x :
  SpecFloat.iter_pos f n x = Nat.iter (Pos.to_nat n) f x.
Proof. rewrite iter_pos_eq. apply Pos2Nat.inj_iter. Qed.

Lemma pos_iter_shl p d : Pos.iter xO p d = shl p (Pos.to_nat d).
Proof.
  rewrite Pos2Nat.inj_iter. induction (Pos.to_nat d) as [|k IH]; simpl; congruence.
Qed.

Lemma shl_add p a b : shl (shl p a) b = shl p (a + b).
Proof. induction b as [|b IH]; simpl; rewrite ?Nat.add_0_r, ?Nat.add_succ_r; simpl; congruence. Qed.

Lemma shl_value p k : Zpos (shl p k) = Zpos p * 2 ^ Z.of_nat k.
Proof.
  induction k as [|k IH].
  - simpl. lia.
  - rewrite Nat2Z.inj_succ, Z.pow_succ_r by lia. simpl shl.
    rewrite Pos2Z.inj_xO, IH. lia.
Qed.

Lemma digits_shl p k :
  Zpos (SpecFloat.digits2_pos (shl p k)) = Zpos (SpecFloat.digits2_pos p) + Z.of_nat k.
Proof.
  induction k as [|k IH]; simpl; [lia|].
  rewrite Pos2Z.inj_succ, IH. lia.
Qed.

Lemma shr_zeros p k :
  Nat.iter k SpecFloat.shr_1
    (SpecFloat.Build_shr_record (Zpos (shl p k)) false false)
  = SpecFloat.Build_shr_record (Zpos p) false false.
Proof.
  induction k as [|k IH]; [reflexivity|].
  rewrite Nat.iter_succ_r. simpl. exact IH.
Qed.

Lemma digits_lower p : 2 ^ (Zpos (SpecFloat.digits2_pos p) - 1) <= Zpos p.
Proof.
  induction p as [p IH|p IH|]; simpl SpecFloat.digits2_pos.
  - rewrite Pos2Z.inj_succ.
    replace (Z.succ (Zpos (SpecFloat.digits2_pos p)) - 1)
      with (Z.succ (Zpos (SpecFloat.digits2_pos p) - 1)) by lia.
    rewrite Z.pow_succ_r by lia. lia.
  - rewrite Pos2Z.inj_succ.
    replace (Z.succ (Zpos (SpecFloat.digits2_pos p)) - 1)
      with (Z.succ (Zpos (SpecFloat.digits2_pos p) - 1)) by lia.
    rewrite Z.pow_succ_r by lia. lia.
  - simpl. lia.
Qed.

Lemma digits_safe p : Zpos p < 2 ^ 53 -> Zpos (SpecFloat.digits2_pos p) <= 53.
Proof.
  intros H. pose proof (digits_lower p) as L.
  destruct (Z_le_gt_dec (Zpos (SpecFloat.digits2_pos p)) 53) as [|G]; [assumption|].
  exfalso.
  assert (2 ^ 53 <= 2 ^ (Zpos (SpecFloat.digits2_pos p) - 1)) as M
    by (apply Z.pow_le_mono_r; lia).
  lia.
Qed.

Lemma fexp_safe d : 1 <= d <= 53 -> SpecFloat.fexp 53 1024 d = d - 53.
Proof. intros H. unfold SpecFloat.fexp, SpecFloat.emin. lia. Qed.

(** Once the mantissa has 53 digits and is exact, rounding leaves it. *)
Lemma round_aux_of_shr s mx ex lx m e :
  SpecFloat.shr_fexp 53 1024 mx ex lx
  = (SpecFloat.Build_shr_record (Zpos m) false false, e) ->
  Zpos (SpecFloat.digits2_pos m) = 53 -> -52 <= e <= 0 ->
  SpecFloat.binary_round_aux 53 1024 s mx ex lx = SpecFloat.S754_finite s m e.
Proof.
  intros H D He. unfold SpecFloat.binary_round_aux. rewrite H.
  cbn [SpecFloat.shr_m SpecFloat.loc_of_shr_record SpecFloat.round_nearest_even].
  unfold SpecFloat.shr_fexp. cbn [SpecFloat.Zdigits2]. rewrite D.
  rewrite fexp_safe by lia.
  replace (53 + e - 53 - e) with 0 by lia.
  cbn [SpecFloat.shr SpecFloat.shr_record_of_loc SpecFloat.shr_m].
  replace (e <=? 1024 - 53) with true by (symmetry; apply Z.leb_le; lia).
  reflexivity.
Qed.

Lemma round_aux_canonical s m e :
  Zpos (SpecFloat.digits2_pos m) = 53 -> -52 <= e <= 0 ->
  SpecFloat.binary_round_aux 53 1024 s (Zpos m) e SpecFloat.loc_Exact
  = SpecFloat.S754_finite s m e.
Proof.
  intros D He. apply round_aux_of_shr; try assumption.
  unfold SpecFloat.shr_fexp. cbn [SpecFloat.Zdigits2]. rewrite D.
  rewrite fexp_safe by lia.
  replace (53 + e - 53 - e) with 0 by lia. reflexivity.
Qed.

(** The double of a positive integer below 2^53, behind a shift of [K]
    bits. *)
Lemma round_shift s p K :
  Zpos (SpecFloat.digits2_pos p) <= 53 ->
  SpecFloat.binary_round 53 1024 s (shl p K) (- Z.of_nat K) =
  SpecFloat.S754_finite s
    (shl p (Z.to_nat (53 - Zpos (SpecFloat.digits2_pos p))))
    (Zpos (SpecFloat.digits2_pos p) - 53).
Proof.
  intros D. set (d := Zpos (SpecFloat.digits2_pos p)) in *.
  assert (1 <= d) as D1 by (unfold d; lia).
  unfold SpecFloat.binary_round, SpecFloat.shl_align.
  rewrite digits_shl. fold d.
  replace (d + Z.of_nat K + - Z.of_nat K) with d by lia.
  rewrite fexp_safe by lia.
  destruct (d - 53 - - Z.of_nat K) as [|n|q] eqn:E.
  - (* the shift is the one of the canonical form *)
    assert (K = Z.to_nat (53 - d)) as -> by lia.
    replace (- Z.of_nat (Z.to_nat (53 - d))) with (d - 53) by lia.
    apply round_aux_canonical; [|lia].
    rewrite digits_shl. fold d. lia.
  - (* more zeros than needed: they are shifted out *)
    apply round_aux_of_shr; [| rewrite digits_shl; fold d; lia | lia].
    unfold SpecFloat.shr_fexp. cbn [SpecFloat.Zdigits2]. rewrite digits_shl. fold d.
    replace (d + Z.of_nat K + - Z.of_nat K) with d by lia.
    rewrite fexp_safe by lia. rewrite E.
    cbn [SpecFloat.shr SpecFloat.shr_record_of_loc].
    rewrite iter_pos_nat.
    assert (K = Z.to_nat (53 - d) + Pos.to_nat n)%nat as HK by lia.
    rewrite HK at 1. rewrite <- shl_add, shr_zeros.
    f_equal. lia.
  - (* fewer: the mantissa is shifted left *)
    rewrite pos_iter_shl, shl_add.
    replace (K + Pos.to_nat q)%nat with (Z.to_nat (53 - d)) by lia.
    apply round_aux_canonical; [|lia].
    rewrite digits_shl. fold d. lia.
Qed.

Lemma round_form s p :
  Zpos (SpecFloat.digits2_pos p) <= 53 ->
  SpecFloat.binary_round 53 1024 s p 0 =
  SpecFloat.S754_finite s
    (shl p (Z.to_nat (53 - Zpos (SpecFloat.digits2_pos p))))
    (Zpos (SpecFloat.digits2_pos p) - 53).
Proof. intros D. exact (round_shift s p 0 D). Qed.

Lemma align p ka K :
  (ka <= K)%nat ->
  fst (SpecFloat.shl_align (shl p ka) (- Z.of_nat ka) (- Z.of_nat K)) = shl p K.
Proof.
  intros H. unfold SpecFloat.shl_align.
  destruct (- Z.of_nat K - - Z.of_nat ka) as [|n|q] eqn:E; cbn [fst].
  - f_equal. lia.
  - lia.
  - rewrite pos_iter_shl, shl_add. f_equal. lia.
Qed.

Lemma signed_shl s p K :
  SpecFloat.cond_Zopp s (Zpos (shl p K)) =
  SpecFloat.cond_Zopp s (Zpos p) * 2 ^ Z.of_nat K.
Proof. destruct s; unfold SpecFloat.cond_Zopp; rewrite shl_value; ring. Qed.

Lemma finite_add sa pa sb pb :
  Zpos pa < 2 ^ 53 -> Zpos pb < 2 ^ 53 ->
  - 2 ^ 53 < SpecFloat.cond_Zopp sa (Zpos pa) + SpecFloat.cond_Zopp sb (Zpos pb)
    < 2 ^ 53 ->
  number_add (SpecFloat.binary_round 53 1024 sa pa 0)
             (SpecFloat.binary_round 53 1024 sb pb 0)
  = double_of (SpecFloat.cond_Zopp sa (Zpos pa) + SpecFloat.cond_Zopp sb (Zpos pb)).
Proof.
  intros Ha Hb Hs.
  pose proof (digits_safe pa Ha) as Da. pose proof (digits_safe pb Hb) as Db.
  rewrite !round_form by assumption.
  set (ka := Z.to_nat (53 - Zpos (SpecFloat.digits2_pos pa))).
  set (kb := Z.to_nat (53 - Zpos (SpecFloat.digits2_pos pb))).
  replace (Zpos (SpecFloat.digits2_pos pa) - 53) with (- Z.of_nat ka) by lia.
  replace (Zpos (SpecFloat.digits2_pos pb) - 53) with (- Z.of_nat kb) by lia.
  unfold number_add, SpecFloat.SFadd.
  replace (Z.min (- Z.of_nat ka) (- Z.of_nat kb))
    with (- Z.of_nat (Nat.max ka kb)) by lia.
  rewrite !align by lia. rewrite !signed_shl, <- Z.mul_add_distr_r.
  set (K := Nat.max ka kb).
  destruct (SpecFloat.cond_Zopp sa (Zpos pa) + SpecFloat.cond_Zopp sb (Zpos pb))
    as [|q|q] eqn:E.
  - reflexivity.
  - rewrite <- shl_value. unfold double_of.
    cbn [SpecFloat.binary_normalize].
    rewrite round_shift, round_form; [reflexivity | |]; apply digits_safe; lia.
  - replace (Z.neg q * 2 ^ Z.of_nat K) with (Z.neg (shl q K))
      by (pose proof (shl_value q K); lia).
    unfold double_of. cbn [SpecFloat.binary_normalize].
    rewrite round_shift, round_form; [reflexivity | |]; apply digits_safe; lia.
Qed.

(** On integers of magnitude below 2^53, the addition of doubles is the
    addition of integers. *)
Lemma add_exact a b :
  - 2 ^ 53 < a < 2 ^ 53 -> - 2 ^ 53 < b < 2 ^ 53 -> - 2 ^ 53 < a + b < 2 ^ 53 ->
  number_add (double_of a) (double_of b) = double_of (a + b).
Proof.
  intros Ha Hb Hs.
  destruct a as [|pa|pa]; destruct b as [|pb|pb];
    try (rewrite ?Z.add_0_l, ?Z.add_0_r; unfold double_of;
         cbn [SpecFloat.binary_normalize];
         rewrite ?round_form by (apply digits_safe; lia); reflexivity).
  - apply (finite_add false pa false pb); unfold SpecFloat.cond_Zopp; lia.
  - apply (finite_add false pa true pb); unfold SpecFloat.cond_Zopp; lia.
  - apply (finite_add true pa false pb); unfold SpecFloat.cond_Zopp; lia.
  - apply (finite_add true pa true pb); unfold SpecFloat.cond_Zopp; lia.
Qed.

(** Different integers of that range are different doubles. *)
Lemma double_of_inj a b :
  - 2 ^ 53 < a < 2 ^ 53 -> - 2 ^ 53 < b < 2 ^ 53 ->
  double_of a = double_of b -> a = b.
Proof.
  assert (forall s p t q,
             Zpos p < 2 ^ 53 -> Zpos q < 2 ^ 53 ->
             SpecFloat.binary_round 53 1024 s p 0
             = SpecFloat.binary_round 53 1024 t q 0 -> s = t /\ p = q) as Inj.
  { intros s p t q Hp Hq.
    pose proof (digits_safe p Hp) as Dp. pose proof (digits_safe q Hq) as Dq.
    rewrite !round_form by assumption. intros H.
    assert (s = t) as -> by congruence.
    assert (shl p (Z.to_nat (53 - Zpos (SpecFloat.digits2_pos p)))
            = shl q (Z.to_nat (53 - Zpos (SpecFloat.digits2_pos q)))) as Hm
      by congruence.
    assert (Zpos (SpecFloat.digits2_pos p) - 53 = Zpos (SpecFloat.digits2_pos q) - 53)
      as He by congruence.
    split; [reflexivity|].
    assert (Zpos (SpecFloat.digits2_pos p) = Zpos (SpecFloat.digits2_pos q)) as Hd by lia.
    rewrite Hd in Hm.
    assert (Zpos p * 2 ^ Z.of_nat (Z.to_nat (53 - Zpos (SpecFloat.digits2_pos q)))
            = Zpos q * 2 ^ Z.of_nat (Z.to_nat (53 - Zpos (SpecFloat.digits2_pos q))))
      as Hv by (rewrite <- !shl_value; congruence).
    apply Z.mul_reg_r in Hv; [congruence|].
    apply Z.pow_nonzero; lia. }
  intros Ha Hb.
  destruct a as [|p|p]; destruct b as [|q|q]; unfold double_of;
    cbn [SpecFloat.binary_normalize]; try reflexivity;
    try (rewrite round_form by (apply digits_safe; lia); discriminate).
  - intros H. apply Inj in H as [_ ->]; [reflexivity | lia | lia].
  - intros H. apply Inj in H as [Hs _]; [discriminate | lia | lia].
  - intros H. apply Inj in H as [Hs _]; [discriminate | lia | lia].
  - intros H. apply Inj in H as [_ ->]; [reflexivity | lia | lia].
Qed.

(** Past the range the sum of doubles is not the sum of integers. *)
Lemma rounded_past_the_range :
  number_add (double_of (2 ^ 53)) (double_of 1) = double_of (2 ^ 53) /\
  double_of (2 ^ 53 + 1) = double_of (2 ^ 53).
Proof. split; vm_compute; reflexivity. Qed.

Lemma safe_integer_spec n : safe_integer n = true <-> - 2 ^ 53 < n < 2 ^ 53.
Proof. unfold safe_integer. rewrite andb_true_iff, !Z.ltb_lt. reflexivity. Qed.

End Doubles.

Lemma plus_usage_of a b :
  safe_counts a = true -> safe_counts b = true ->
  safe_counts (plus_counts a b) = true ->
  plus_usage (usage_of a) (usage_of b) = usage_of (plus_counts a b).
Proof.
  unfold safe_counts. rewrite !andb_true_iff, !safe_integer_spec.
  intros [A1 A2] [B1 B2] [C1 C2]. unfold plus_usage, usage_of. simpl in *.
  by rewrite !add_exact.
Qed.

Lemma usage_of_inj a b :
  safe_counts a = true -> safe_counts b = true -> usage_of a = usage_of b -> a = b.
Proof.
  unfold safe_counts. rewrite !andb_true_iff, !safe_integer_spec.
  intros [A1 A2] [B1 B2] [= H1 H2]. destruct a, b. simpl in *.
  f_equal; by apply double_of_inj.
Qed.

(** Within the range the bookkeeping of [tally] is the sum of the counts. *)
Lemma tally_exact acts :
  forall base counts,
    forallb (fun a => negb (is_clear a)) acts = true ->
    reported acts = map usage_of counts ->
    safe_counts base = true -> sums_safe base counts = true ->
    tally (usage_of base) acts = usage_of (sum_counts base counts) /\
    safe_counts (sum_counts base counts) = true.
Proof.
  induction acts as [|a rest IH]; intros base counts Hno Hrep Hb Hs.
  - destruct counts; [done | discriminate Hrep].
  - simpl in Hno. apply andb_true_iff in Hno as [Ha Hno].
    destruct a as [msg | mcpServers | toolNames | id | id | group ids | group ids
                  | | | i | i snap | i e | i ev | i ints hist | i e | i];
      try discriminate Ha; try (by apply IH).
    destruct ev as [[| delta | u | m | ty] | name item | ty]; try (by apply IH).
    unfold reported in Hrep. simpl in Hrep. fold (reported rest) in Hrep.
    destruct counts as [|n counts]; [discriminate Hrep|].
    injection Hrep as -> Hrep. simpl in Hs.
    apply andb_true_iff in Hs as [Hs Hrest].
    apply andb_true_iff in Hs as [Hn Hsum].
    simpl. rewrite plus_usage_of by done. by apply IH.
Qed.

(** C4: the counters accumulate by addition.  Along every run each
    [response_done] item adds the tokens it reports to both counters, as
    [+=] does on numbers, and raises one [tokenUsageChanged] with the new
    totals; [clearHistory] puts both to zero, raising the signal, and
    empties the history; nothing else touches them: the counters follow the
    bookkeeping of [tally].  The counters being doubles, the result is the
    sum of the counts in the arithmetic of integers as long as the counts
    reported and the totals they give one after the other are safe integers:
    then the counters hold the sum of what was reported since the last
    [clearHistory], or, when there was none, what the run began with plus
    that sum. *)
Theorem token_usage_accumulates s acts s' :
  exec X s acts = Some s' ->
  _tokenUsage (mgr s') = tally (_tokenUsage (mgr s)) acts /\
  usage_notifications (out s') =
    usage_notifications (out s) ++ tally_log (_tokenUsage (mgr s)) acts /\
  (forall base counts,
      forallb (fun a => negb (is_clear a)) acts = true ->
      _tokenUsage (mgr s) = usage_of base -> safe_counts base = true ->
      reported acts = map usage_of counts -> sums_safe base counts = true ->
      _tokenUsage (mgr s') = usage_of (sum_counts base counts) /\
      safe_counts (sum_counts base counts) = true) /\
  (forall before after counts,
      acts = before ++ CallClearHistory :: after ->
      forallb (fun a => negb (is_clear a)) after = true ->
      reported after = map usage_of counts -> sums_safe (0, 0)%Z counts = true ->
      _tokenUsage (mgr s') = usage_of (sum_counts (0, 0)%Z counts) /\
      safe_counts (sum_counts (0, 0)%Z counts) = true) /\
  (forall i u s2,
      step X s' (StreamItem i (raw_model_stream_event (response_done u))) = Some s2 ->
      inputTokens (_tokenUsage (mgr s2)) =
        number_add (inputTokens (_tokenUsage (mgr s'))) (inputTokens u) /\
      outputTokens (_tokenUsage (mgr s2)) =
        number_add (outputTokens (_tokenUsage (mgr s'))) (outputTokens u) /\
      usage_notifications (out s2) =
        usage_notifications (out s') ++ [_tokenUsage (mgr s2)]) /\
  _tokenUsage (mgr (clearHistory s')) = zero_usage /\
  _history (mgr (clearHistory s')) = [] /\
  usage_notifications (out (clearHistory s')) =
    usage_notifications (out s') ++ [zero_usage].
Proof.
  intros H. destruct (exec_usage s acts s' H) as [U N].
  split; [exact U|]. split; [exact N|]. split; [|split; [|split]].
  - intros base counts Hno Hb Hsb Hrep Hs.
    rewrite U, Hb. by apply tally_exact.
  - intros before after counts -> Hno Hrep Hs.
    rewrite U, tally_app. simpl.
    change zero_usage with (usage_of (0, 0)%Z). by apply tally_exact.
  - intros i u s2 Hs. apply step_usage in Hs as [Hu Hn].
    simpl in Hu, Hn. rewrite Hn, Hu. done.
  - repeat split; try done.
    unfold clearHistory, emit; simpl. log_simpl. done.
Qed.

(** ** A failing stream *)

Lemma quiet_frames (l : list Frame) j f :
  forallb is_quiet l = true -> l !! j = Some f -> is_quiet f = true.
Proof.
  intros H Hj. rewrite forallb_forall in H. apply H.
  apply list_elem_of_In. by apply list_elem_of_lookup_2 in Hj.
Qed.

Lemma lookup_snoc_other {A} (l : list A) x j y :
  j <> length l -> (l ++ [x]) !! j = Some y -> l !! j = Some y.
Proof.
  intros Hne H. destruct (decide (j < length l)) as [Hlt|Hge].
  - by rewrite lookup_app_l in H.
  - rewrite lookup_app_r in H by lia.
    destruct (j - length l) as [|k] eqn:E; [lia|]. by destruct k.
Qed.

(** The four ways a transition keeps [call_progress]. *)
Lemma call_progress_same h0 msg i s s' :
  call_progress h0 msg i s ->
  frames s' = frames s -> _history (mgr s') = _history (mgr s) ->
  call_progress h0 msg i s'.
Proof. unfold call_progress. by intros H -> ->. Qed.

Lemma call_progress_grow h0 msg i s s' x :
  call_progress h0 msg i s -> is_quiet x = true ->
  frames s' = frames s ++ [x] -> _history (mgr s') = _history (mgr s) ->
  call_progress h0 msg i s'.
Proof.
  unfold call_progress. intros [Ho Hm] Hx -> ->.
  assert (i < length (frames s)) as Hlen.
  { apply lookup_lt_is_Some. destruct (frames s !! i); [eauto | done]. }
  split.
  - intros j f Hne Hj. destruct (decide (j = length (frames s))) as [->|Hn].
    + rewrite lookup_app_r in Hj by lia. rewrite Nat.sub_diag in Hj.
      by injection Hj as <-.
    + apply lookup_snoc_other in Hj; [|done]. by apply (Ho j).
  - by rewrite lookup_app_l.
Qed.

Lemma call_progress_mine h0 msg i s s' f' :
  call_progress h0 msg i s ->
  frames s' = <[i := f']> (frames s) ->
  match f' with
  | GInit _ m => m = msg /\ _history (mgr s') = h0
  | GAwaitRun _ | GStream _ _ _ | GWait _ _ =>
      _history (mgr s') = h0 ++ [user msg]
  | Settled => True
  | IInit => False
  end ->
  call_progress h0 msg i s'.
Proof.
  unfold call_progress. intros [Ho Hm] -> Hf.
  assert (i < length (frames s)) as Hlen.
  { apply lookup_lt_is_Some. destruct (frames s !! i); [eauto | done]. }
  split.
  - intros j f Hne Hj. rewrite list_lookup_insert_ne in Hj by done.
    by apply (Ho j).
  - by rewrite list_lookup_insert_eq.
Qed.

Lemma call_progress_other h0 msg i s s' j :
  call_progress h0 msg i s -> j <> i ->
  frames s' = <[j := Settled]> (frames s) ->
  _history (mgr s') = _history (mgr s) ->
  call_progress h0 msg i s'.
Proof.
  unfold call_progress. intros [Ho Hm] Hne -> ->. split.
  - intros k f Hk Hl. destruct (decide (k = j)) as [->|Hn].
    + destruct (decide (j < length (frames s))).
      * rewrite list_lookup_insert_eq in Hl by done. by injection Hl as <-.
      * rewrite list_insert_ge in Hl by lia. by apply (Ho j).
    + rewrite list_lookup_insert_ne in Hl by done. by apply (Ho k).
  - by rewrite list_lookup_insert_ne.
Qed.

(** A frame other than [i] is quiet, so the only transition it has is the
    end of an initialisation. *)
Lemma call_progress_whose h0 msg i s j f :
  call_progress h0 msg i s -> frames s !! j = Some f ->
  is_quiet f = false -> j = i.
Proof.
  intros [Ho _] Hj Hq. destruct (decide (j = i)) as [|Hne]; [done|].
  rewrite (Ho j f Hne Hj) in Hq. done.
Qed.

Lemma call_progress_begin s msg :
  forallb is_quiet (frames s) = true ->
  call_progress (_history (mgr s)) msg (length (frames s)) (generateResponse msg s).
Proof.
  intros Hq.
  assert (forall t fr,
            frames t = <[length (frames s) := fr]> (frames s ++ [Settled]) ->
            match fr with
            | GInit _ m => m = msg /\ _history (mgr t) = _history (mgr s)
            | GAwaitRun _ | GStream _ _ _ | GWait _ _ =>
                _history (mgr t) = _history (mgr s) ++ [user msg]
            | Settled => True
            | IInit => False
            end ->
            call_progress (_history (mgr s)) msg (length (frames s)) t) as Build.
  { intros t fr Hf Hfr. unfold call_progress. rewrite Hf. split.
    - intros j f Hne Hj. rewrite list_lookup_insert_ne in Hj by done.
      apply lookup_snoc_other in Hj; [|done]. by apply (quiet_frames (frames s) j).
    - rewrite list_lookup_insert_eq; [done|]. rewrite length_app. simpl. lia. }
  unfold generateResponse. simpl.
  destruct (_agent (mgr s)) eqn:A.
  - set (s1 := with_frames _ _).
    destruct (generateResponse_run_cases (length (frames s)) msg s1)
      as [(_ & ->) | [(_ & _ & ->) | (call & turns & _ & _ & _ & _ & ->)]].
    + by apply (Build _ Settled).
    + by apply (Build _ Settled).
    + by apply (Build _ (GAwaitRun turns)).
  - unfold initializeAgent_begin. simpl.
    destruct (_isInitializing (mgr s)); simpl.
    + by apply (Build _ (GInit false msg)).
    + by apply (Build _ (GInit true msg)).
Qed.

Lemma process_item_history ev loc s :
  _history (mgr (process_item X ev loc s).2) = _history (mgr s) /\
  frames (process_item X ev loc s).2 = frames s.
Proof.
  destruct ev as [[| delta | usage | [id name input | ty] | ty] | name item | ty];
    simpl; try done.
  - by destruct (currentMessageId loc).
  - by destruct (currentMessageId loc).
  - by destruct (String.eqb name "tool_output").
Qed.

Lemma generateResponse_poll_cases i r turns s s' :
  generateResponse_poll i r turns s = Some s' ->
  _history (mgr s') = _history (mgr s) /\
  exists f', frames s' = <[i := f']> (frames s) /\
    (f' = GWait r turns \/ f' = GAwaitRun turns \/ f' = Settled).
Proof.
  unfold generateResponse_poll.
  destruct (0 <? size _).
  - intros [= <-]. split; [done|]. eexists. split; [done|]. by left.
  - destruct (heap s !! r); [simpl|done].
    destruct (_controller (mgr s)); intros [= <-]; (split; [done|]);
      eexists; (split; [done|]); auto.
Qed.

Lemma call_progress_step h0 msg i s a s' :
  call_progress h0 msg i s ->
  is_clear a = false -> is_generate a = false ->
  step X s a = Some s' ->
  call_progress h0 msg i s'.
Proof.
  intros Hp Hc Hg H.
  destruct a; simpl in H; try discriminate.
  - (* initializeAgent *)
    injection H as <-. unfold initializeAgent, initializeAgent_begin.
    destruct (_isInitializing (mgr s)); [done|].
    apply (call_progress_grow h0 msg i s _ IInit Hp); try done.
    by destruct mcpServers.
  - (* setSelectedTools *)
    injection H as <-. unfold setSelectedTools, initializeAgent_begin. simpl.
    destruct (_isInitializing (mgr s)).
    + by apply (call_progress_same h0 msg i s).
    + by apply (call_progress_grow h0 msg i s _ IInit Hp).
  - injection H as <-.
    destruct (resolve_usage interruptionId true s) as (_ & _ & Hh & Hf & _).
    by apply (call_progress_same h0 msg i s).
  - injection H as <-.
    destruct (resolve_usage interruptionId false s) as (_ & _ & Hh & Hf & _).
    by apply (call_progress_same h0 msg i s).
  - injection H as <-.
    destruct (grouped_usage true groupId0 interruptionIds s)
      as (_ & _ & Hh & Hf & _).
    by apply (call_progress_same h0 msg i s).
  - injection H as <-.
    destruct (grouped_usage false groupId0 interruptionIds s)
      as (_ & _ & Hh & Hf & _).
    by apply (call_progress_same h0 msg i s).
  - injection H as <-. unfold stopStreaming.
    destruct (_controller (mgr s)); by apply (call_progress_same h0 msg i s).
  - (* the awaited initialisation is over *)
    destruct (initializeAgent_finish_frame s)
      as (_ & Hff & _ & _ & _ & Hfh & _).
    destruct (frames s !! i0) as [fr|] eqn:F; [|done].
    destruct fr as [started m| | | | |]; try discriminate H; injection H as <-.
    + assert (i0 = i) as -> by (by apply (call_progress_whose h0 msg i s i0 _ Hp F)).
      assert (m = msg /\ _history (mgr s) = h0) as [-> Hh].
      { destruct Hp as [_ Hm]. by rewrite F in Hm. }
      set (s1 := if started then initializeAgent_finish X s else s).
      assert (frames s1 = frames s /\ _history (mgr s1) = h0) as [Hf1 Hh1].
      { subst s1. destruct started; [by rewrite Hff, Hfh|done]. }
      destruct (generateResponse_run_cases i msg s1)
        as [(_ & ->) | [(_ & _ & ->) | (call & turns & _ & _ & _ & _ & ->)]].
      * apply (call_progress_mine h0 msg i s _ Settled Hp); [|done].
        simpl. by rewrite Hf1.
      * apply (call_progress_mine h0 msg i s _ Settled Hp); [|done].
        simpl. by rewrite Hf1.
      * apply (call_progress_mine h0 msg i s _ (GAwaitRun turns) Hp).
        -- simpl. by rewrite Hf1.
        -- simpl. by rewrite Hh1.
    + assert (i0 <> i) as Hne.
      { intros ->. destruct Hp as [_ Hm]. by rewrite F in Hm. }
      apply (call_progress_other h0 msg i s _ i0 Hp Hne).
      * change (<[i0:=Settled]> (frames (initializeAgent_finish X s)) =
                <[i0:=Settled]> (frames s)). by rewrite Hff.
      * exact Hfh.
  - (* the run has started *)
    destruct (frames s !! i0) as [fr|] eqn:F; [|done].
    destruct fr; try discriminate H; injection H as <-.
    assert (i0 = i) as -> by (by apply (call_progress_whose h0 msg i s i0 _ Hp F)).
    eapply (call_progress_mine h0 msg i s _ _ Hp); [done|]. simpl.
    destruct Hp as [_ Hm]. by rewrite F in Hm.
  - (* the run has failed *)
    destruct (frames s !! i0) as [fr|] eqn:F; [|done].
    destruct fr; try discriminate H; injection H as <-.
    assert (i0 = i) as -> by (by apply (call_progress_whose h0 msg i s i0 _ Hp F)).
    by eapply (call_progress_mine h0 msg i s _ Settled Hp).
  - (* an item of the stream *)
    destruct (frames s !! i0) as [fr|] eqn:F; [|done].
    destruct fr; try discriminate H.
    assert (i0 = i) as -> by (by apply (call_progress_whose h0 msg i s i0 _ Hp F)).
    destruct (process_item_history ev loc s) as [Hh Hf].
    destruct (process_item X ev loc s) as [loc1 s1]. simpl in *.
    injection H as <-.
    eapply (call_progress_mine h0 msg i s _ _ Hp); [simpl; by rewrite Hf|].
    simpl. rewrite Hh. destruct Hp as [_ Hm]. by rewrite F in Hm.
  - (* the stream is exhausted *)
    destruct (frames s !! i0) as [fr|] eqn:F; [|done].
    destruct fr; try discriminate H.
    assert (i0 = i) as -> by (by apply (call_progress_whose h0 msg i s i0 _ Hp F)).
    assert (_history (mgr s) = h0 ++ [user msg]) as Hh0.
    { destruct Hp as [_ Hm]. by rewrite F in Hm. }
    unfold generateResponse_settled in H.
    destruct (heap s !! result) as [res|]; [simpl in H|done].
    destruct (0 <? length ints).
    + set (s2 := on_mgr _ _) in H.
      assert (exists s3, _history (mgr s3) = _history (mgr s) /\
                frames s3 = frames s /\
                generateResponse_poll i result maxTurns0 s3 = Some s')
        as (s3 & Hh & Hf & P).
      { destruct (1 <? length ints).
        - eexists. split; [|split; [|exact H]].
          + by destruct (grouped_approval_usage ints s2) as (_ & -> & _).
          + by destruct (grouped_approval_usage ints s2) as (_ & _ & _ & -> & _).
        - destruct ints as [|item rest]; eexists; (split; [|split; [|exact H]]);
            done. }
      destruct (generateResponse_poll_cases _ _ _ _ _ P) as (Hh' & f' & Hf' & Hcase).
      apply (call_progress_mine h0 msg i s _ f' Hp); [by rewrite Hf', Hf|].
      rewrite Hh', Hh, Hh0. by destruct Hcase as [->|[->| ->]].
    + injection H as <-. by eapply (call_progress_mine h0 msg i s _ Settled Hp).
  - (* the stream throws *)
    destruct (frames s !! i0) as [fr|] eqn:F; [|done].
    destruct fr; try discriminate H; injection H as <-.
    assert (i0 = i) as -> by (by apply (call_progress_whose h0 msg i s i0 _ Hp F)).
    by eapply (call_progress_mine h0 msg i s _ Settled Hp).
  - (* the timer fires *)
    destruct (frames s !! i0) as [fr|] eqn:F; [|done].
    destruct fr; try discriminate H.
    assert (i0 = i) as -> by (by apply (call_progress_whose h0 msg i s i0 _ Hp F)).
    assert (_history (mgr s) = h0 ++ [user msg]) as Hh0.
    { destruct Hp as [_ Hm]. by rewrite F in Hm. }
    destruct (generateResponse_poll_cases _ _ _ _ _ H) as (Hh' & f' & Hf' & Hcase).
    apply (call_progress_mine h0 msg i s _ f' Hp); [done|].
    rewrite Hh', Hh0. by destruct Hcase as [->|[->| ->]].
Qed.

Lemma call_progress_exec h0 msg i s acts s' :
  call_progress h0 msg i s ->
  forallb (fun a => negb (is_clear a) && negb (is_generate a)) acts = true ->
  exec X s acts = Some s' ->
  call_progress h0 msg i s'.
Proof.
  revert s. induction acts as [|a rest IH]; intros s Hp Hacts H.
  - by injection H as <-.
  - simpl in *. apply andb_true_iff in Hacts as [Ha Hrest].
    apply andb_true_iff in Ha as [Hc Hg].
    apply negb_true_iff in Hc, Hg.
    destruct (step X s a) as [s1|] eqn:E; [|done].
    apply (IH s1); try done. by apply (call_progress_step h0 msg i s a).
Qed.

(** C6: a call made while no other [generateResponse] is in flight, and
    during which neither [clearHistory] nor another [generateResponse] is
    called: when its stream throws (or [Runner.run] rejects), exactly the
    [error] event with the thrown value goes out, the call is over with the
    controller back to null, and the history is the history before the call
    with the user message appended and nothing else. *)
Theorem stream_error_keeps_history s msg acts e a s1 s2 :
  forallb is_quiet (frames s) = true ->
  forallb (fun a => negb (is_clear a) && negb (is_generate a)) acts = true ->
  exec X s (CallGenerateResponse msg :: acts) = Some s1 ->
  a = StreamError (length (frames s)) e \/ a = RunFailed (length (frames s)) e ->
  step X s1 a = Some s2 ->
  out s2 = out s1 ++ [AgentEvent (error e)] /\
  _history (mgr s2) = _history (mgr s) ++ [user msg] /\
  frames s2 !! length (frames s) = Some Settled /\
  _controller (mgr s2) = None /\
  _tokenUsage (mgr s2) = _tokenUsage (mgr s1) /\
  heap s2 = heap s1 /\ runs s2 = runs s1.
Proof.
  intros Hq Hacts Hexec Ha Hstep. simpl in Hexec.
  pose proof (call_progress_begin s msg Hq) as Hp.
  pose proof (call_progress_exec _ _ _ _ _ _ Hp Hacts Hexec) as [_ Hm].
  assert (length (frames s) < length (frames s1)) as Hlen.
  { apply lookup_lt_is_Some. destruct (frames s1 !! _); [eauto | done]. }
  destruct Ha as [-> | ->]; simpl in Hstep;
    destruct (frames s1 !! length (frames s)) as [[]|] eqn:F;
    try discriminate Hstep; injection Hstep as <-; simpl;
    rewrite list_lookup_insert_eq by done; done.
Qed.

(** ** Waiting for approvals *)

Lemma delete_insert_other (m : gmap string PendingApproval) id' x id :
  id' <> id -> delete id' (<[id' := x]> m) !! id = m !! id.
Proof. intros Hne. by rewrite lookup_delete_ne, lookup_insert_ne. Qed.

Lemma resolve_pending_other id' verdict s id :
  id' <> id ->
  let s' := if verdict : bool then approveToolCall id' s else rejectToolCall id' s in
  _pendingApprovals (mgr s') !! id = _pendingApprovals (mgr s) !! id.
Proof.
  intros Hne. destruct verdict; simpl; unfold approveToolCall, rejectToolCall;
    (destruct (_pendingApprovals (mgr s) !! id') eqn:E; [|done]);
    unfold resolve_pending, record_verdict; simpl;
    (destruct (_interruptedState (mgr s));
     [destruct (heap s !! _)|]; simpl; by rewrite delete_insert_other).
Qed.

Lemma grouped_pending_other verdict group ids s id :
  forallb (fun id' => negb (String.eqb id' id)) ids = true ->
  let s' := if verdict : bool then approveGroupedToolCalls group ids s
            else rejectGroupedToolCalls group ids s in
  _pendingApprovals (mgr s') !! id = _pendingApprovals (mgr s) !! id.
Proof.
  revert s. induction ids as [|id' rest IH]; intros s Hids.
  - by destruct verdict.
  - simpl in Hids. apply andb_true_iff in Hids as [Hne Hrest].
    apply negb_true_iff, String.eqb_neq in Hne.
    destruct verdict; simpl in *; rewrite (IH _ Hrest);
      (destruct (_pendingApprovals (mgr s) !! id') as [p|]; [|done]);
      (destruct (bool_decide _); [|done]);
      unfold resolve_pending, record_verdict; simpl;
      (destruct (_interruptedState (mgr s));
       [destruct (heap s !! _)|]; simpl; by rewrite delete_insert_other).
Qed.

Lemma register_group_pending group items s id :
  is_Some (_pendingApprovals (mgr s) !! id) ->
  is_Some (_pendingApprovals (mgr (register_group X group items s).2) !! id).
Proof.
  revert s. induction items as [|item rest IH]; intros s H; simpl; [done|].
  set (s1 := register _ _ _).
  specialize (IH s1).
  destruct (register_group X group rest s1) as [approvals s2]; simpl in *.
  apply IH. subst s1. unfold register, on_mgr; simpl.
  destruct (decide (fresh_id X "int-" (draws s) = id)) as [->|Hne].
  - rewrite lookup_insert_eq. by eexists.
  - by rewrite lookup_insert_ne.
Qed.

Lemma settled_pending i r turns ints hist s s' id :
  generateResponse_settled X i r turns ints hist s = Some s' ->
  is_Some (_pendingApprovals (mgr s) !! id) ->
  is_Some (_pendingApprovals (mgr s') !! id) /\
  exists f', frames s' = <[i := f']> (frames s).
Proof.
  unfold generateResponse_settled. intros H Hid.
  destruct (heap s !! r) as [res|]; [simpl in H|done].
  destruct (0 <? length ints).
  - set (s2 := on_mgr _ _) in H.
    assert (exists s3, is_Some (_pendingApprovals (mgr s3) !! id) /\
              frames s3 = frames s /\
              generateResponse_poll i r turns s3 = Some s') as (s3 & Hp & Hf & P).
    { destruct (1 <? length ints).
      - eexists. split; [|split; [|exact H]].
        + unfold _handleGroupedToolApprovals.
          pose proof (register_group_pending (fresh_id X "group-" (draws s2))
                        ints (bump s2) id Hid) as K.
          by destruct (register_group X _ ints (bump s2)).
        + by destruct (grouped_approval_usage ints s2) as (_ & _ & _ & -> & _).
      - destruct ints as [|item rest]; eexists; (split; [|split; [|exact H]]);
          try done.
        simpl. destruct (decide (fresh_id X "int-" (draws s) = id)) as [->|Hne].
        + rewrite lookup_insert_eq. by eexists.
        + by rewrite lookup_insert_ne. }
    unfold generateResponse_poll in P.
    destruct (0 <? size _).
    + injection P as <-. split; [done|]. simpl. rewrite Hf. by eexists.
    + destruct (heap s3 !! r); [simpl in P|done].
      destruct (_controller (mgr s3)); injection P as <-; (split; [done|]);
        simpl; rewrite Hf; by eexists.
  - injection H as <-. split; [done|]. by eexists.
Qed.

Lemma process_item_pending ev loc s :
  _pendingApprovals (mgr (process_item X ev loc s).2) = _pendingApprovals (mgr s).
Proof.
  destruct ev as [[| delta | usage | [id name input | ty] | ty] | name item | ty];
    simpl; try done.
  - by destruct (currentMessageId loc).
  - by destruct (currentMessageId loc).
  - by destruct (String.eqb name "tool_output").
Qed.

Lemma generateResponse_run_pending i msg s :
  _pendingApprovals (mgr (generateResponse_run i msg s)) =
    _pendingApprovals (mgr s) /\
  exists f', frames (generateResponse_run i msg s) = <[i := f']> (frames s).
Proof.
  destruct (generateResponse_run_cases i msg s)
    as [(_ & ->) | [(_ & _ & ->) | (call & turns & _ & _ & _ & _ & ->)]];
    (split; [done|]); by eexists.
Qed.

(** While an id is pending, nothing but [clearHistory] and a verdict on that
    id takes it out of the pending set. *)
Lemma step_keeps_pending s a s' id :
  step X s a = Some s' ->
  is_Some (_pendingApprovals (mgr s) !! id) ->
  is_clear a = false -> resolves id a = false ->
  is_Some (_pendingApprovals (mgr s') !! id).
Proof.
  intros H Hid Hc Hr. destruct a; simpl in H, Hr; try discriminate.
  - injection H as <-. unfold generateResponse. simpl.
    destruct (_agent (mgr s)).
    + by rewrite (proj1 (generateResponse_run_pending _ _ _)).
    + unfold initializeAgent_begin. simpl. by destruct (_isInitializing (mgr s)).
  - injection H as <-. unfold initializeAgent, initializeAgent_begin.
    destruct (_isInitializing (mgr s)); [done|]. by destruct mcpServers.
  - injection H as <-. unfold setSelectedTools, initializeAgent_begin. simpl.
    by destruct (_isInitializing (mgr s)).
  - injection H as <-. apply String.eqb_neq in Hr.
    by rewrite (resolve_pending_other interruptionId true s id Hr).
  - injection H as <-. apply String.eqb_neq in Hr.
    by rewrite (resolve_pending_other interruptionId false s id Hr).
  - injection H as <-.
    rewrite (grouped_pending_other true groupId0 interruptionIds s id); [done|].
    rewrite forallb_forall. intros x Hx. apply negb_true_iff.
    destruct (String.eqb x id) eqn:E; [|done].
    rewrite <- Hr. symmetry. apply existsb_exists. by exists x.
  - injection H as <-.
    rewrite (grouped_pending_other false groupId0 interruptionIds s id); [done|].
    rewrite forallb_forall. intros x Hx. apply negb_true_iff.
    destruct (String.eqb x id) eqn:E; [|done].
    rewrite <- Hr. symmetry. apply existsb_exists. by exists x.
  - injection H as <-. unfold stopStreaming. by destruct (_controller (mgr s)).
  - destruct (initializeAgent_finish_frame s)
      as (_ & _ & _ & _ & _ & _ & _ & _ & Hfp & _).
    destruct (frames s !! i) as [[started m| | | | |]|]; try discriminate H;
      injection H as <-.
    + rewrite (proj1 (generateResponse_run_pending _ _ _)).
      destruct started; [by rewrite Hfp | done].
    + change (is_Some (_pendingApprovals (mgr (initializeAgent_finish X s)) !! id)).
      by rewrite Hfp.
  - destruct (frames s !! i) as [[]|]; try discriminate H. by injection H as <-.
  - destruct (frames s !! i) as [[]|]; try discriminate H. by injection H as <-.
  - destruct (frames s !! i) as [[]|]; try discriminate H.
    pose proof (process_item_pending ev loc s) as Hp.
    destruct (process_item X ev loc s) as [loc1 s1]. injection H as <-.
    simpl in *. by rewrite Hp.
  - destruct (frames s !! i) as [[]|]; try discriminate H.
    by apply (settled_pending _ _ _ _ _ _ _ id) in H as [H _].
  - destruct (frames s !! i) as [[]|]; try discriminate H. by injection H as <-.
  - destruct (frames s !! i) as [[]|]; try discriminate H.
    unfold generateResponse_poll in H.
    destruct (0 <? size _).
    + by injection H as <-.
    + destruct (heap s !! result); [simpl in H|done].
      by destruct (_controller (mgr s)); injection H as <-.
Qed.

(** A transition that is not a continuation of call [i] leaves its frame as
    it is. *)
Lemma step_keeps_frame s a s' i f :
  step X s a = Some s' ->
  frames s !! i = Some f -> call_of a <> Some i ->
  frames s' !! i = Some f.
Proof.
  intros H Hf Hcall.
  assert (i < length (frames s)) as Hlen by (apply lookup_lt_is_Some; eauto).
  assert (forall j (fs : list Frame) f', j <> i -> fs = frames s ->
            <[j := f']> fs !! i = Some f) as Other.
  { intros j fs f' Hne ->. by rewrite list_lookup_insert_ne. }
  assert (forall x : Frame, (frames s ++ [x]) !! i = Some f) as Grow.
  { intros x. by rewrite lookup_app_l. }
  destruct a; simpl in H, Hcall.
  - injection H as <-. unfold generateResponse. simpl.
    destruct (_agent (mgr s)).
    + destruct (generateResponse_run_pending (length (frames s)) msg
                  (with_frames (frames s ++ [Settled])
                     (with_serials (S (serials s))
                        (on_mgr (set_controller
                                   (Some {| ctl_serial := serials s;
                                            aborted := false |})) s))))
        as (_ & f' & ->). simpl.
      rewrite list_lookup_insert_ne by lia. apply Grow.
    + unfold initializeAgent_begin. simpl.
      destruct (_isInitializing (mgr s)); simpl;
        rewrite list_lookup_insert_ne by lia; apply Grow.
  - injection H as <-. unfold initializeAgent, initializeAgent_begin.
    destruct (_isInitializing (mgr s)); [done|]. simpl. apply Grow.
  - injection H as <-. unfold setSelectedTools, initializeAgent_begin. simpl.
    destruct (_isInitializing (mgr s)); [done|]. simpl. apply Grow.
  - injection H as <-.
    by destruct (resolve_usage interruptionId true s) as (_ & _ & _ & -> & _).
  - injection H as <-.
    by destruct (resolve_usage interruptionId false s) as (_ & _ & _ & -> & _).
  - injection H as <-.
    by destruct (grouped_usage true groupId0 interruptionIds s)
      as (_ & _ & _ & -> & _).
  - injection H as <-.
    by destruct (grouped_usage false groupId0 interruptionIds s)
      as (_ & _ & _ & -> & _).
  - by injection H as <-.
  - injection H as <-. unfold stopStreaming. by destruct (_controller (mgr s)).
  - assert (i0 <> i) as Hne by congruence.
    destruct (initializeAgent_finish_frame s) as (_ & Hff & _).
    destruct (frames s !! i0) as [[started m| | | | |]|]; try discriminate H;
      injection H as <-.
    + destruct (generateResponse_run_pending i0 m
                  (if started then initializeAgent_finish X s else s))
        as (_ & f' & ->).
      apply Other; [done|]. by destruct started.
    + change (<[i0 := Settled]> (frames (initializeAgent_finish X s)) !! i = Some f).
      by apply Other.
  - assert (i0 <> i) as Hne by congruence.
    destruct (frames s !! i0) as [[]|]; try discriminate H. injection H as <-.
    simpl. by apply Other.
  - assert (i0 <> i) as Hne by congruence.
    destruct (frames s !! i0) as [[]|]; try discriminate H. injection H as <-.
    simpl. by apply Other.
  - assert (i0 <> i) as Hne by congruence.
    destruct (frames s !! i0) as [[]|]; try discriminate H.
    destruct (process_item_history ev loc s) as [_ Hfr].
    destruct (process_item X ev loc s) as [loc1 s1]. injection H as <-.
    simpl in *. by apply Other.
  - assert (i0 <> i) as Hne by congruence.
    destruct (frames s !! i0) as [[]|] eqn:F; try discriminate H.
    unfold generateResponse_settled in H.
    destruct (heap s !! result) as [res|]; [simpl in H|done].
    destruct (0 <? length ints).
    + set (s2 := on_mgr _ _) in H.
      assert (exists s3, frames s3 = frames s /\
                generateResponse_poll i0 result maxTurns0 s3 = Some s')
        as (s3 & Hf3 & P).
      { destruct (1 <? length ints).
        - eexists. split; [|exact H].
          by destruct (grouped_approval_usage ints s2) as (_ & _ & _ & -> & _).
        - destruct ints as [|item rest]; eexists; (split; [|exact H]); done. }
      destruct (generateResponse_poll_cases _ _ _ _ _ P) as (_ & f' & -> & _).
      by apply Other.
    + injection H as <-. simpl. by apply Other.
  - assert (i0 <> i) as Hne by congruence.
    destruct (frames s !! i0) as [[]|]; try discriminate H. injection H as <-.
    simpl. by apply Other.
  - assert (i0 <> i) as Hne by congruence.
    destruct (frames s !! i0) as [[]|]; try discriminate H.
    destruct (generateResponse_poll_cases _ _ _ _ _ H) as (_ & f' & -> & _).
    by apply Other.
Qed.

Lemma set_frame_same i f s :
  frames s !! i = Some f -> set_frame i f s = s.
Proof.
  intros H. unfold set_frame, with_frames. rewrite list_insert_id by done.
  by destruct s.
Qed.

(** The only continuation a waiting call has is its timer; while something
    is pending the timer changes nothing. *)
Lemma waiting_step s a s' i r turns id :
  frames s !! i = Some (GWait r turns) ->
  is_Some (_pendingApprovals (mgr s) !! id) ->
  call_of a = Some i ->
  step X s a = Some s' ->
  a = Tick i /\ s' = s.
Proof.
  intros Hf [p Hp] Hcall H.
  destruct a; simpl in Hcall; try discriminate; injection Hcall as ->;
    simpl in H; rewrite Hf in H; try discriminate.
  split; [done|]. unfold generateResponse_poll in H.
  rewrite (size_pos_lookup _ _ _ Hp) in H. injection H as <-.
  by apply set_frame_same.
Qed.

Lemma waiting_exec s i r turns id acts s' :
  frames s !! i = Some (GWait r turns) ->
  is_Some (_pendingApprovals (mgr s) !! id) ->
  forallb (fun a => negb (is_clear a) && negb (resolves id a)) acts = true ->
  exec X s acts = Some s' ->
  frames s' !! i = Some (GWait r turns) /\
  is_Some (_pendingApprovals (mgr s') !! id).
Proof.
  revert s. induction acts as [|a rest IH]; intros s Hf Hid Hacts H.
  - by injection H as <-.
  - simpl in *. apply andb_true_iff in Hacts as [Ha Hrest].
    apply andb_true_iff in Ha as [Hc Hr]. apply negb_true_iff in Hc, Hr.
    destruct (step X s a) as [s1|] eqn:E; [|done].
    apply (IH s1); try done.
    + destruct (decide (call_of a = Some i)) as [Hcall|Hcall].
      * destruct (waiting_step s a s1 i r turns id Hf Hid Hcall E) as [_ ->].
        done.
      * by apply (step_keeps_frame s a s1).
    + by apply (step_keeps_pending s a s1).
Qed.

(** C1, as the code has it: while an id of the batch is pending and, in the
    run considered, neither [clearHistory] is called nor that id is approved
    or rejected (by itself or in a group), the call stays suspended at its
    wait; each of its continuations in the run is a firing of its timer that
    leaves the whole system as it was (no event, no run).  And whenever the
    timer of a waiting call fires: if the pending set is not empty nothing
    changes; if it is empty the call reads the state of its result and, with
    a controller in place, invokes the runner on that state, letting nothing
    out. *)
Theorem resume_waits_for_pending s i r turns id acts s' :
  frames s !! i = Some (GWait r turns) ->
  is_Some (_pendingApprovals (mgr s) !! id) ->
  forallb (fun a => negb (is_clear a) && negb (resolves id a)) acts = true ->
  exec X s acts = Some s' ->
  frames s' !! i = Some (GWait r turns) /\
  is_Some (_pendingApprovals (mgr s') !! id) /\
  (forall before a after s1 s2,
      acts = before ++ a :: after -> call_of a = Some i ->
      exec X s before = Some s1 -> step X s1 a = Some s2 ->
      a = Tick i /\ s2 = s1) /\
  (forall t t',
      frames t !! i = Some (GWait r turns) ->
      step X t (Tick i) = Some t' ->
      if 0 <? size (_pendingApprovals (mgr t)) then t' = t
      else
        _pendingApprovals (mgr t) = ∅ /\
        exists res,
          heap t !! r = Some res /\
          match _controller (mgr t) with
          | Some c =>
              t' = set_frame i (GAwaitRun turns)
                     (invoke {| rc_runner := _runner (mgr t);
                                rc_agent := _agent (mgr t);
                                rc_input := FromState (state res);
                                rc_signal := c;
                                rc_maxTurns := Some turns |} t)
          | None => t' = generateResponse_catch i null_signal t
          end).
Proof.
  intros Hf Hid Hacts H.
  destruct (waiting_exec s i r turns id acts s' Hf Hid Hacts H) as [Hf' Hid'].
  split; [done|]. split; [done|]. split.
  - intros before a after s1 s2 -> Hcall Hb Hs.
    rewrite forallb_app in Hacts. apply andb_true_iff in Hacts as [Hbefore _].
    destruct (waiting_exec s i r turns id before s1 Hf Hid Hbefore Hb) as [F1 P1].
    by apply (waiting_step s1 a s2 i r turns id).
  - intros t t' Ft Ht. simpl in Ht. rewrite Ft in Ht.
    unfold generateResponse_poll in Ht.
    destruct (0 <? size _) eqn:Sz.
    + injection Ht as <-. by apply set_frame_same.
    + split; [by apply size_pos_empty|].
      destruct (heap t !! r) as [res|]; [simpl in Ht|done].
      exists res. split; [done|].
      by destruct (_controller (mgr t)); injection Ht as <-.
Qed.

(** ** The guards of generateResponse *)

Lemma createModel_needs_provider m :
  getProvider (_settingsModel m) (_activeProvider m) = None ->
  exists e, _createModel X m = inr e.
Proof.
  intros H. unfold _createModel. rewrite H.
  destruct (String.eqb (_activeProvider m) ""); by eexists.
Qed.

(** C5, as the code has it: [generateResponse] looks at [_agent] and not at
    [hasValidConfig].  With no agent, and an initialisation that yields none
    (one is already under way, or the active provider has no entry in the
    settings, or the creation of the model throws), the call lets out one
    [error] event that carries [Error('Failed to initialize agent')] and is
    over: the runner is not invoked, the user message is not appended. *)
Theorem no_agent_no_run s msg s1 s2 :
  _agent (mgr s) = None ->
  _isInitializing (mgr s) = true \/
  getProvider (_settingsModel (mgr s)) (_activeProvider (mgr s)) = None \/
  (exists e, _createModel X (mgr s) = inr e) ->
  step X s (CallGenerateResponse msg) = Some s1 ->
  step X s1 (InitSettled (length (frames s))) = Some s2 ->
  runs s1 = runs s /\ agent_events (out s1) = agent_events (out s) /\
  runs s2 = runs s /\
  agent_events (out s2) =
    agent_events (out s) ++ [error {| message := "Failed to initialize agent" |}] /\
  _history (mgr s2) = _history (mgr s) /\
  frames s2 !! length (frames s) = Some Settled /\
  _controller (mgr s2) = None /\
  _agent (mgr s2) = None.
Proof.
  intros Hagent Hfail H1 H2. simpl in H1. injection H1 as <-.
  assert (length (frames s) < length (frames s ++ [Settled])) as Hlen
    by (rewrite length_app; simpl; lia).
  unfold generateResponse in *. simpl in *. rewrite Hagent in *.
  unfold initializeAgent_begin in *. simpl in *.
  destruct (_isInitializing (mgr s)) eqn:Hinit; simpl in *.
  - rewrite list_lookup_insert_eq in H2 by done. injection H2 as <-.
    unfold generateResponse_run. simpl. rewrite Hagent. simpl.
    rewrite list_lookup_insert_eq by (by rewrite length_insert).
    repeat split; try done. log_simpl. done.
  - assert (exists e, _createModel X (mgr s) = inr e) as [e He].
    { destruct Hfail as [?|[Hp|He]]; [done| |done].
      by apply createModel_needs_provider. }
    rewrite list_lookup_insert_eq in H2 by done. injection H2 as <-.
    unfold initializeAgent_finish, generateResponse_run. simpl.
    change (_createModel X _) with (_createModel X (mgr s)). rewrite He. simpl.
    rewrite list_lookup_insert_eq by (by rewrite length_insert).
    repeat split; try done. log_simpl. done.
Qed.

(** C8, as the code has it: [generateResponse] has no guard.  Whatever calls
    are in flight, with an agent at hand a call is taken at once: it installs
    a new controller in place of the current one, appends the user message
    and invokes the runner on the history, and it leaves the frames of the
    calls in flight as they are.  The one guard is that of
    [initializeAgent]: while [_isInitializing] is set, a call of it does
    nothing. *)
Theorem generateResponse_has_no_guard s msg agent :
  _agent (mgr s) = Some agent ->
  exists s' call turns,
    step X s (CallGenerateResponse msg) = Some s' /\
    frames s' = frames s ++ [GAwaitRun turns] /\
    runs s' = runs s ++ [call] /\
    rc_input call = FromHistory (_history (mgr s) ++ [user msg]) /\
    rc_signal call = {| ctl_serial := serials s; aborted := false |} /\
    _history (mgr s') = _history (mgr s) ++ [user msg] /\
    _controller (mgr s') = Some {| ctl_serial := serials s; aborted := false |} /\
    out s' = out s /\
    _pendingApprovals (mgr s') = _pendingApprovals (mgr s) /\
    (forall mcpServers,
        _isInitializing (mgr s) = true ->
        step X s (CallInitializeAgent mcpServers) = Some s).
Proof.
  intros Hagent. simpl. unfold generateResponse. simpl. rewrite Hagent.
  unfold generateResponse_run. simpl. rewrite Hagent. simpl.
  eexists _, _, _. split; [reflexivity|]. simpl.
  split.
  { rewrite insert_app_r_alt by lia. by rewrite Nat.sub_diag. }
  repeat split; try done.
  intros mcpServers Hinit. unfold initializeAgent, initializeAgent_begin.
  by rewrite Hinit.
Qed.

(** ** The log of a whole run *)

Section Coherence.

Hypothesis distinct : forall a b,
  fresh_id X "msg-" a = fresh_id X "msg-" b -> a = b.

(** Something that is no message event goes out, calls close their
    messages, ids are drawn. *)
Lemma coherent_other log opens d o opens' d' :
  log_coherent X log opens d ->
  is_message_event o = false ->
  (forall j, opens' j = opens j \/ opens' j = None) -> d <= d' ->
  log_coherent X (log ++ [o]) opens' d'.
Proof.
  intros (H1 & H2 & H3 & H4 & H5) Hno Hsub Hd.
  assert (is_message_chunk o = false) as Hnc by (by destruct o as [[]| |]).
  assert (message_id_of o = None) as Hni by (by destruct o as [[]| |]).
  assert (forall j id full, opens' j = Some (id, full) -> opens j = Some (id, full))
    as Hup.
  { intros j id full E. destruct (Hsub j) as [<-|E']; [done|congruence]. }
  split; [|split; [|split; [|split]]].
  - intros pre id c full post E.
    apply snoc_split in E as [(_ & _ & <-) | (post' & _ & ->)]; [done|].
    by apply (H1 pre id c full post').
  - intros pre id content post E.
    apply snoc_split in E as [(_ & _ & <-) | (post' & -> & E)]; [done|].
    destruct (H2 pre id content post' E) as [Hc Hp]. split; [done|].
    by rewrite chunks_of_app, (chunks_of_other _ _ Hnc), Hp.
  - intros o' id Ho Hid. apply elem_of_app in Ho as [Ho|Ho].
    + destruct (H3 o' id Ho Hid) as (k & Hk & E). exists k. split; [lia|done].
    + apply list_elem_of_singleton in Ho as ->. congruence.
  - intros j id full E. apply Hup in E.
    destruct (H4 j id full E) as (Hf & Hopen & k & Hk & Eid).
    split; [|split].
    + by rewrite chunks_of_app, (chunks_of_other _ _ Hnc), append_empty_r.
    + intros pre content post E'.
      apply snoc_split in E' as [(_ & _ & <-) | (post' & _ & E')]; [done|].
      by apply (Hopen pre content post').
    + exists k. split; [lia|done].
  - intros j j' id full full' E E'. apply Hup in E, E'.
    by apply (H5 j j' id full full').
Qed.

Lemma coherent_others log opens d new opens' d' :
  log_coherent X log opens d ->
  forallb (fun o => negb (is_message_event o)) new = true ->
  (forall j, opens' j = opens j \/ opens' j = None) -> d <= d' ->
  log_coherent X (log ++ new) opens' d'.
Proof.
  revert log opens d. induction new as [|o new IH]; intros log opens d H Hnew Hsub Hd.
  - rewrite app_nil_r.
    destruct H as (H1 & H2 & H3 & H4 & H5).
    assert (forall j id full, opens' j = Some (id, full) -> opens j = Some (id, full))
      as Hup.
    { intros j id full E. destruct (Hsub j) as [<-|E']; [done|congruence]. }
    split; [done|]. split; [done|]. split; [|split].
    + intros o id Ho Hid. destruct (H3 o id Ho Hid) as (k & Hk & E).
      exists k. split; [lia|done].
    + intros j id full E. apply Hup in E.
      destruct (H4 j id full E) as (Hf & Hopen & k & Hk & Eid).
      split; [done|]. split; [done|]. exists k. split; [lia|done].
    + intros j j' id full full' E E'. apply Hup in E, E'.
      by apply (H5 j j' id full full').
  - simpl in Hnew. apply andb_true_iff in Hnew as [Ho Hnew].
    apply negb_true_iff in Ho.
    change (log ++ o :: new) with (log ++ [o] ++ new). rewrite app_assoc.
    apply (IH (log ++ [o]) opens d); try done.
    apply (coherent_other log opens d o opens d); auto.
Qed.

(** Call [i] starts a message. *)
Lemma coherent_start log opens d i opens' :
  log_coherent X log opens d ->
  (forall j, opens' j =
             if decide (j = i) then Some (fresh_id X "msg-" d, "") else opens j) ->
  log_coherent X (log ++ [AgentEvent (message_start (fresh_id X "msg-" d))])
    opens' (S d).
Proof.
  intros (H1 & H2 & H3 & H4 & H5) Hop.
  assert (forall o, o ∈ log -> message_id_of o <> Some (fresh_id X "msg-" d)) as New.
  { intros o Ho Hid. destruct (H3 o _ Ho Hid) as (k & Hk & E).
    apply distinct in E. lia. }
  split; [|split; [|split; [|split]]].
  - intros pre id c full post E.
    apply snoc_split in E as [(_ & _ & [=]) | (post' & _ & ->)].
    by apply (H1 pre id c full post').
  - intros pre id content post E.
    apply snoc_split in E as [(_ & _ & [=]) | (post' & -> & E)].
    destruct (H2 pre id content post' E) as [Hc Hp]. split; [done|].
    by rewrite chunks_of_app, Hp.
  - intros o id Ho Hid. apply elem_of_app in Ho as [Ho|Ho].
    + destruct (H3 o id Ho Hid) as (k & Hk & E). exists k. split; [lia|done].
    + by apply list_elem_of_singleton in Ho as ->.
  - intros j id full E. rewrite Hop in E. destruct (decide (j = i)) as [->|Hne].
    + injection E as <- <-. split; [|split].
      * by rewrite chunks_of_app, (chunks_of_unnamed _ log New).
      * intros pre content post E.
        apply snoc_split in E as [(_ & _ & [=]) | (post' & _ & ->)].
        apply (New (AgentEvent (message_complete (fresh_id X "msg-" d) content)));
          [|done].
        apply elem_of_app. right. by left.
      * exists d. split; [lia|done].
    + destruct (H4 j id full E) as (Hf & Hopen & k & Hk & Eid).
      split; [|split].
      * by rewrite chunks_of_app, append_empty_r.
      * intros pre content post E'.
        apply snoc_split in E' as [(_ & _ & [=]) | (post' & _ & E')].
        by apply (Hopen pre content post').
      * exists k. split; [lia|done].
  - intros j j' id full full' E E'. rewrite Hop in E, E'.
    destruct (decide (j = i)) as [->|Hj], (decide (j' = i)) as [->|Hj'];
      try done.
    + injection E as <- <-.
      destruct (H4 j' _ full' E') as (_ & _ & k & Hk & Eid).
      apply distinct in Eid. lia.
    + injection E' as <- <-.
      destruct (H4 j _ full E) as (_ & _ & k & Hk & Eid).
      apply distinct in Eid. lia.
    + by apply (H5 j j' id full full').
Qed.

(** Call [i] appends a fragment to the message it has open. *)
Lemma coherent_chunk log opens d i id full c opens' :
  log_coherent X log opens d ->
  opens i = Some (id, full) ->
  (forall j, opens' j =
             if decide (j = i) then Some (id, full +:+ c) else opens j) ->
  log_coherent X (log ++ [AgentEvent (message_chunk id c (full +:+ c))]) opens' d.
Proof.
  intros (H1 & H2 & H3 & H4 & H5) Hi Hop.
  destruct (H4 i id full Hi) as (Hfull & Hopen & Hk).
  split; [|split; [|split; [|split]]].
  - intros pre id' c' full' post E.
    apply snoc_split in E as [(_ & -> & [= -> -> ->]) | (post' & _ & ->)].
    + by rewrite Hfull.
    + by apply (H1 pre id' c' full' post').
  - intros pre id' content post E.
    apply snoc_split in E as [(_ & _ & [=]) | (post' & -> & E)].
    destruct (H2 pre id' content post' E) as [Hc Hp]. split; [done|].
    rewrite chunks_of_app, Hp. simpl.
    destruct (String.eqb id id') eqn:Q; [|done].
    apply String.eqb_eq in Q. subst id'. by destruct (Hopen pre content post').
  - intros o id' Ho Hid. apply elem_of_app in Ho as [Ho|Ho].
    + by apply (H3 o id').
    + apply list_elem_of_singleton in Ho as ->. simpl in Hid.
      injection Hid as <-. exact Hk.
  - intros j id' full' E. rewrite Hop in E. destruct (decide (j = i)) as [->|Hne].
    + injection E as <- <-. split; [|split; [|done]].
      * rewrite chunks_of_app, Hfull. simpl. rewrite String.eqb_refl.
        by rewrite append_empty_r.
      * intros pre content post E.
        apply snoc_split in E as [(_ & _ & [=]) | (post' & _ & E)].
        by apply (Hopen pre content post').
    + destruct (H4 j id' full' E) as (Hf & Hop' & Hk').
      split; [|split; [|done]].
      * rewrite chunks_of_app. simpl.
        destruct (String.eqb id id') eqn:Q.
        -- apply String.eqb_eq in Q. subst id'.
           by destruct Hne; apply (H5 j i id full' full).
        -- by rewrite append_empty_r.
      * intros pre content post E'.
        apply snoc_split in E' as [(_ & _ & [=]) | (post' & _ & E')].
        by apply (Hop' pre content post').
  - intros j j' id' f f' E E'. rewrite Hop in E, E'.
    destruct (decide (j = i)) as [->|Hj], (decide (j' = i)) as [->|Hj'];
      try done.
    + injection E as <- <-. symmetry. by apply (H5 j' i id f' full).
    + injection E' as <- <-. by apply (H5 j i id f full).
    + by apply (H5 j j' id' f f').
Qed.

(** Call [i] completes the message it has open. *)
Lemma coherent_complete log opens d i id full opens' :
  log_coherent X log opens d ->
  opens i = Some (id, full) ->
  (forall j, opens' j = if decide (j = i) then None else opens j) ->
  log_coherent X (log ++ [AgentEvent (message_complete id full)]) opens' d.
Proof.
  intros (H1 & H2 & H3 & H4 & H5) Hi Hop.
  destruct (H4 i id full Hi) as (Hfull & Hopen & Hk).
  split; [|split; [|split; [|split]]].
  - intros pre id' c' full' post E.
    apply snoc_split in E as [(_ & _ & [=]) | (post' & _ & ->)].
    by apply (H1 pre id' c' full' post').
  - intros pre id' content post E.
    apply snoc_split in E as [(-> & -> & [= -> ->]) | (post' & -> & E)].
    + done.
    + destruct (H2 pre id' content post' E) as [Hc Hp]. split; [done|].
      by rewrite chunks_of_app, Hp.
  - intros o id' Ho Hid. apply elem_of_app in Ho as [Ho|Ho].
    + by apply (H3 o id').
    + apply list_elem_of_singleton in Ho as ->. simpl in Hid.
      injection Hid as <-. exact Hk.
  - intros j id' full' E. rewrite Hop in E. destruct (decide (j = i)) as [->|Hne];
      [done|].
    destruct (H4 j id' full' E) as (Hf & Hop' & Hk').
    split; [|split; [|done]].
    + by rewrite chunks_of_app, append_empty_r.
    + intros pre content post E'.
      apply snoc_split in E' as [(_ & _ & [= -> ->]) | (post' & _ & E')].
      * by destruct Hne; apply (H5 j i id full' full).
      * by apply (Hop' pre content post').
  - intros j j' id' f f' E E'. rewrite Hop in E, E'.
    destruct (decide (j = i)) as [->|Hj], (decide (j' = i)) as [->|Hj'];
      try done.
    by apply (H5 j j' id' f f').
Qed.

End Coherence.

Lemma quiet_step_refl s : quiet_step s s.
Proof.
  split; [lia|]. split; [|by left]. exists []. by rewrite app_nil_r.
Qed.

Lemma quiet_step_trans s1 s2 s3 :
  quiet_step s1 s2 -> quiet_step s2 s3 -> quiet_step s1 s3.
Proof.
  intros (Hd & (new & Ho & Hq) & Hf) (Hd' & (new' & Ho' & Hq') & Hf').
  split; [lia|]. split.
  - exists (new ++ new'). split; [by rewrite Ho', Ho, app_assoc|].
    by rewrite forallb_app, Hq, Hq'.
  - intros j. destruct (Hf' j) as [E | E]; rewrite E; [apply Hf | by right].
Qed.

(** The frames change quietly: none, one more that has no message open, or
    one replaced by such a frame. *)
Lemma quiet_step_frames s s' new :
  draws s <= draws s' ->
  out s' = out s ++ new ->
  forallb (fun o => negb (is_message_event o)) new = true ->
  frames s' = frames s \/
  (exists x, frames s' = frames s ++ [x] /\ frame_open x = None) \/
  (exists i f', frames s' = <[i := f']> (frames s) /\ frame_open f' = None) ->
  quiet_step s s'.
Proof.
  intros Hd Ho Hq Hf. split; [done|]. split; [by exists new|].
  intros j. unfold open_message.
  destruct Hf as [->|[(x & -> & Hx)|(i & f' & -> & Hf')]].
  - by left.
  - destruct (decide (j < length (frames s))) as [Hlt|Hge].
    + left. by rewrite lookup_app_l.
    + right. rewrite lookup_app_r by lia.
      destruct (j - length (frames s)) as [|k]; simpl; [done|by destruct k].
  - destruct (decide (j = i)) as [->|Hne].
    + destruct (decide (i < length (frames s))) as [Hlt|Hge].
      * right. by rewrite list_lookup_insert_eq.
      * left. by rewrite list_insert_ge by lia.
    + left. by rewrite list_lookup_insert_ne.
Qed.

Lemma quiet_catch i e s : quiet_step s (generateResponse_catch i e s).
Proof.
  apply (quiet_step_frames _ _ [AgentEvent (error e)]); try done.
  right. right. by exists i, Settled.
Qed.

Lemma quiet_run i msg s : quiet_step s (generateResponse_run i msg s).
Proof.
  destruct (generateResponse_run_cases i msg s)
    as [(_ & ->) | [(_ & _ & ->) | (call & turns & _ & _ & _ & _ & ->)]].
  - apply quiet_catch.
  - apply (quiet_step_frames _ _ [AgentEvent (error null_signal)]); try done.
    right. right. by exists i, Settled.
  - apply (quiet_step_frames _ _ []); try done.
    + simpl. by rewrite app_nil_r.
    + right. right. by exists i, (GAwaitRun turns).
Qed.

Lemma quiet_without_events new :
  agent_events new = [] ->
  forallb (fun o => negb (is_message_event o)) new = true.
Proof.
  induction new as [|o new IH]; [done|].
  destruct o as [e| |]; simpl; [done| |]; apply IH.
Qed.

Lemma quiet_finish s : quiet_step s (initializeAgent_finish X s).
Proof.
  destruct (initializeAgent_finish_frame s)
    as (_ & Hf & _ & Hd & _ & _ & _ & _ & _ & _ & _ & _ & _ & w & Ho & Hw & _).
  apply (quiet_step_frames _ _ w); try done.
  - rewrite Hd. lia.
  - by apply quiet_without_events.
  - by left.
Qed.

Lemma quiet_poll i r turns s s' :
  generateResponse_poll i r turns s = Some s' -> quiet_step s s'.
Proof.
  unfold generateResponse_poll.
  destruct (0 <? size _).
  - intros [= <-]. apply (quiet_step_frames _ _ []); try done.
    + simpl. by rewrite app_nil_r.
    + right. right. by exists i, (GWait r turns).
  - destruct (heap s !! r); [simpl|done].
    destruct (_controller (mgr s)); intros [= <-].
    + apply (quiet_step_frames _ _ []); try done.
      * simpl. by rewrite app_nil_r.
      * right. right. by exists i, (GAwaitRun turns).
    + apply quiet_catch.
Qed.

Lemma quiet_settled i r turns ints hist s s' :
  generateResponse_settled X i r turns ints hist s = Some s' -> quiet_step s s'.
Proof.
  unfold generateResponse_settled. intros H.
  destruct (heap s !! r) as [res|]; [simpl in H|done].
  destruct (0 <? length ints).
  - set (s2 := on_mgr _ _) in H.
    assert (exists s3, quiet_step s s3 /\
              generateResponse_poll i r turns s3 = Some s') as (s3 & Q & P).
    { destruct (1 <? length ints).
      - eexists. split; [|exact H].
        unfold _handleGroupedToolApprovals.
        pose proof (register_group_frame (fresh_id X "group-" (draws s2))
                      ints (bump s2)) as F.
        destruct (register_group X _ ints (bump s2)) as [approvals s4].
        simpl in F. destruct F as (Ho & _ & Hf & _ & _ & Hd & _).
        eapply (quiet_step_frames _ _ [_]).
        + simpl. rewrite Hd. simpl. lia.
        + simpl. by rewrite Ho.
        + done.
        + left. simpl. by rewrite Hf.
      - destruct ints as [|item rest]; (eexists; split; [|exact H]).
        + apply (quiet_step_frames _ _ []); try done.
          * simpl. by rewrite app_nil_r.
          * by left.
        + eapply (quiet_step_frames _ _ [_]); try done.
          * simpl. lia.
          * by left. }
    apply (quiet_step_trans s s3 s'); [done|]. by apply quiet_poll in P.
  - injection H as <-. apply (quiet_step_frames _ _ []); try done.
    + simpl. by rewrite app_nil_r.
    + right. right. by exists i, Settled.
Qed.

(** Every transition but the delivery of a stream item is quiet. *)
Lemma step_quiet s a s' :
  step X s a = Some s' ->
  match a with StreamItem _ _ => False | _ => True end ->
  quiet_step s s'.
Proof.
  intros H Ha. destruct a; simpl in H; try done.
  - (* generateResponse *)
    injection H as <-. unfold generateResponse. simpl.
    set (s1 := with_frames (frames s ++ [Settled]) _).
    assert (quiet_step s s1) as Q1.
    { apply (quiet_step_frames _ _ []); try done.
      - simpl. by rewrite app_nil_r.
      - right. left. by exists Settled. }
    destruct (_agent (mgr s)).
    + apply (quiet_step_trans s s1); [done|]. apply quiet_run.
    + apply (quiet_step_trans s s1); [done|].
      unfold initializeAgent_begin.
      destruct (_isInitializing (mgr s1)).
      * apply (quiet_step_frames _ _ []); try done.
        -- simpl. by rewrite app_nil_r.
        -- right. right. by eexists _, (GInit false msg).
      * apply (quiet_step_frames _ _ []); try done.
        -- simpl. by rewrite app_nil_r.
        -- right. right. by eexists _, (GInit true msg).
  - injection H as <-. unfold initializeAgent, initializeAgent_begin.
    destruct (_isInitializing (mgr s)); [apply quiet_step_refl|].
    apply (quiet_step_frames _ _ []); try done.
    + simpl. by rewrite app_nil_r.
    + right. left. by exists IInit.
  - injection H as <-. unfold setSelectedTools, initializeAgent_begin. simpl.
    destruct (_isInitializing (mgr s)).
    + apply (quiet_step_frames _ _ []); try done.
      * simpl. by rewrite app_nil_r.
      * by left.
    + apply (quiet_step_frames _ _ []); try done.
      * simpl. by rewrite app_nil_r.
      * right. left. by exists IInit.
  - injection H as <-. unfold approveToolCall.
    destruct (_pendingApprovals (mgr s) !! interruptionId).
    + apply (quiet_step_frames _ _ []).
      * unfold resolve_pending, record_verdict. simpl.
        destruct (_interruptedState (mgr s)); [destruct (heap s !! _)|]; done.
      * unfold resolve_pending, record_verdict. simpl. rewrite app_nil_r.
        destruct (_interruptedState (mgr s)); [destruct (heap s !! _)|]; done.
      * done.
      * left. unfold resolve_pending, record_verdict. simpl.
        destruct (_interruptedState (mgr s)); [destruct (heap s !! _)|]; done.
    + eapply (quiet_step_frames _ _ [_]); try done. by left.
  - injection H as <-. unfold rejectToolCall.
    destruct (_pendingApprovals (mgr s) !! interruptionId).
    + apply (quiet_step_frames _ _ []).
      * unfold resolve_pending, record_verdict. simpl.
        destruct (_interruptedState (mgr s)); [destruct (heap s !! _)|]; done.
      * unfold resolve_pending, record_verdict. simpl. rewrite app_nil_r.
        destruct (_interruptedState (mgr s)); [destruct (heap s !! _)|]; done.
      * done.
      * left. unfold resolve_pending, record_verdict. simpl.
        destruct (_interruptedState (mgr s)); [destruct (heap s !! _)|]; done.
    + eapply (quiet_step_frames _ _ [_]); try done. by left.
  - injection H as <-.
    destruct (grouped_draws true groupId0 interruptionIds s) as (Hd & Ho & Hf).
    apply (quiet_step_frames _ _ []); try done.
    + simpl in Hd. rewrite Hd. lia.
    + simpl in Ho. by rewrite Ho, app_nil_r.
    + by left.
  - injection H as <-.
    destruct (grouped_draws false groupId0 interruptionIds s) as (Hd & Ho & Hf).
    apply (quiet_step_frames _ _ []); try done.
    + simpl in Hd. rewrite Hd. lia.
    + simpl in Ho. by rewrite Ho, app_nil_r.
    + by left.
  - injection H as <-.
    eapply (quiet_step_frames _ _ [_]); [simpl; lia | reflexivity | done | by left].
  - injection H as <-. unfold stopStreaming.
    destruct (_controller (mgr s)); [|apply quiet_step_refl].
    apply (quiet_step_frames _ _ []); try done.
    + simpl. by rewrite app_nil_r.
    + by left.
  - destruct (frames s !! i) as [[started m| | | | |]|]; try discriminate H;
      injection H as <-.
    + destruct started; [|apply quiet_run].
      apply (quiet_step_trans s (initializeAgent_finish X s));
        [apply quiet_finish | apply quiet_run].
    + apply (quiet_step_trans s (initializeAgent_finish X s));
        [apply quiet_finish|].
      apply (quiet_step_frames _ _ []); try done.
      * by rewrite app_nil_r.
      * right. right. by exists i, Settled.
  - destruct (frames s !! i) as [[]|]; try discriminate H. injection H as <-.
    apply (quiet_step_frames _ _ []); try done.
    + simpl. by rewrite app_nil_r.
    + right. right. by exists i, (GStream (length (heap s)) maxTurns0 fresh_locals).
  - destruct (frames s !! i) as [[]|]; try discriminate H. injection H as <-.
    apply quiet_catch.
  - destruct (frames s !! i) as [[]|]; try discriminate H.
    by apply quiet_settled in H.
  - destruct (frames s !! i) as [[]|]; try discriminate H. injection H as <-.
    apply quiet_catch.
  - destruct (frames s !! i) as [[]|]; try discriminate H.
    by apply quiet_poll in H.
Qed.

Lemma open_set_frame i f s1 s j :
  frames s1 = frames s -> i < length (frames s) ->
  open_message (set_frame i f s1) j =
  if decide (j = i) then frame_open f else open_message s j.
Proof.
  intros Hf Hlen. unfold open_message, set_frame. simpl. rewrite Hf.
  destruct (decide (j = i)) as [->|Hne].
  - by rewrite list_lookup_insert_eq.
  - by rewrite list_lookup_insert_ne.
Qed.

(** Every transition keeps the log coherent with the open messages. *)
Lemma coherent_step s a s' :
  (forall a b, fresh_id X "msg-" a = fresh_id X "msg-" b -> a = b) ->
  coherent X s -> step X s a = Some s' -> coherent X s'.
Proof.
  intros J Hc H. unfold coherent in *.
  assert (match a with StreamItem _ _ => False | _ => True end ->
          log_coherent X (out s') (open_message s') (draws s')) as Quiet.
  { intros Ha. destruct (step_quiet s a s' H Ha) as (Hd & (new & -> & Hq) & Hf).
    by apply (coherent_others (out s) (open_message s) (draws s)). }
  destruct a; try (by apply Quiet).
  simpl in H. destruct (frames s !! i) as [[| |r turns loc| | |]|] eqn:F;
    try discriminate H.
  assert (i < length (frames s)) as Hlen by (apply lookup_lt_is_Some; eauto).
  assert (open_message s i = frame_open (GStream r turns loc)) as Hi
    by (unfold open_message; by rewrite F).
  assert (forall t, frames t = frames s ->
            forall j, open_message (set_frame i (GStream r turns loc) t) j
                      = open_message s j) as Same.
  { intros t Ht j. rewrite (open_set_frame i _ t s j Ht Hlen).
    destruct (decide (j = i)) as [->|]; [by rewrite Hi | done]. }
  assert (forall t new,
            frames t = frames s -> out t = out s ++ new ->
            forallb (fun o => negb (is_message_event o)) new = true ->
            draws t = draws s ->
            coherent X (set_frame i (GStream r turns loc) t)) as Still.
  { intros t new Ht Ho Hq Hd. unfold coherent.
    change (out (set_frame i (GStream r turns loc) t)) with (out t).
    change (draws (set_frame i (GStream r turns loc) t)) with (draws t).
    rewrite Ho, Hd.
    apply (coherent_others (out s) (open_message s) (draws s) new);
      [done|done| |done].
    intros j. left. by rewrite Same. }
  unfold coherent in Still.
  destruct ev as [[| delta | usage | [id name input | ty] | ty] | name item | ty];
    simpl in H.
  - (* a message starts *)
    injection H as <-.
    apply (coherent_start J (out s) (open_message s) (draws s) i); [done|].
    intros j. by rewrite (open_set_frame i _ _ s j).
  - (* a fragment *)
    destruct (currentMessageId loc) as [id|] eqn:C; injection H as <-.
    + apply (coherent_chunk (out s) (open_message s) (draws s) i id
               (fullResponse loc)); [done| |].
      * rewrite Hi. simpl. by rewrite C.
      * intros j. by rewrite (open_set_frame i _ _ s j).
    + apply (Still s []); [done|by rewrite app_nil_r|done|done].
  - (* the message completes *)
    destruct (currentMessageId loc) as [id|] eqn:C; injection H as <-.
    + apply (coherent_other
               (out s ++ [AgentEvent (message_complete id (fullResponse loc))])
               (fun j => if decide (j = i) then None else open_message s j)
               (draws s) (TokenUsageChanged _)); [|done| |done].
      * apply (coherent_complete (out s) (open_message s) (draws s) i id
                 (fullResponse loc)); [done| |done].
        rewrite Hi. simpl. by rewrite C.
      * intros j. left. by rewrite (open_set_frame i _ _ s j).
    + eapply (Still _ [_]); reflexivity.
  - (* a tool call *)
    injection H as <-. eapply (Still _ [_]); reflexivity.
  - injection H as <-.
    apply (Still s []); [done|by rewrite app_nil_r|done|done].
  - injection H as <-.
    apply (Still s []); [done|by rewrite app_nil_r|done|done].
  - destruct (String.eqb name "tool_output"); injection H as <-.
    + eapply (Still _ [_]); reflexivity.
    + apply (Still s []); [done|by rewrite app_nil_r|done|done].
  - injection H as <-.
    apply (Still s []); [done|by rewrite app_nil_r|done|done].
Qed.

Lemma coherent_exec s acts s' :
  (forall a b, fresh_id X "msg-" a = fresh_id X "msg-" b -> a = b) ->
  coherent X s -> exec X s acts = Some s' -> coherent X s'.
Proof.
  intros J. revert s. induction acts as [|a rest IH]; intros s Hc H.
  - by injection H as <-.
  - simpl in H. destruct (step X s a) as [s1|] eqn:E; [|done].
    apply (IH s1); [|done]. by apply (coherent_step s a).
Qed.

Lemma coherent_new options : coherent X (new_AgentManager options).
Proof.
  unfold coherent, log_coherent. simpl.
  assert (forall j, open_message (new_AgentManager options) j = None) as Hnone.
  { intros [|[|j]]; done. }
  split; [|split; [|split; [|split]]].
  - intros pre id c full post E. by destruct pre.
  - intros pre id content post E. by destruct pre.
  - intros o id Ho. by apply elem_of_nil in Ho.
  - intros j id full E. by rewrite Hnone in E.
  - intros j j' id full full' E. by rewrite Hnone in E.
Qed.

(** C2: when no two message ids drawn are equal, in everything a manager
    lets out from its construction on, along any run and however the calls
    in flight interleave, the [fullContent] of every [message_chunk] is the
    concatenation of the fragments let out so far for its message id, its own
    included, and the [content] of every [message_complete] is the
    concatenation of the fragments let out for its id before it, which are
    all the fragments the log has for that id. *)
Theorem chunks_accumulate options acts s' :
  (forall a b, fresh_id X "msg-" a = fresh_id X "msg-" b -> a = b) ->
  exec X (new_AgentManager options) acts = Some s' ->
  (forall pre id c full post,
      out s' = pre ++ AgentEvent (message_chunk id c full) :: post ->
      full = chunks_of id pre +:+ c) /\
  (forall pre id content post,
      out s' = pre ++ AgentEvent (message_complete id content) :: post ->
      content = chunks_of id pre /\ content = chunks_of id (out s')).
Proof.
  intros J H.
  destruct (coherent_exec _ acts s' J (coherent_new options) H)
    as (H1 & H2 & _).
  split; [exact H1|].
  intros pre id content post E.
  destruct (H2 pre id content post E) as [Hc Hp].
  split; [exact Hc|].
  rewrite E, chunks_of_app. simpl. by rewrite Hp, append_empty_r.
Qed.

(** ** The loop of [_processRunResult] and the transitions

    The items of one stream, taken one transition each with nothing in
    between, are one pass of the loop. *)

Lemma process_item_set_frame ev loc i f s :
  process_item X ev loc (set_frame i f s) =
  ((process_item X ev loc s).1, set_frame i f (process_item X ev loc s).2).
Proof.
  destruct ev as [[| delta | usage | [id name input | ty] | ty] | name item | ty];
    simpl; try reflexivity.
  - destruct (currentMessageId loc); reflexivity.
  - destruct (currentMessageId loc); reflexivity.
  - destruct (String.eqb name "tool_output"); reflexivity.
Qed.

Lemma process_items_set_frame events loc i f s :
  process_items X events loc (set_frame i f s) =
  ((process_items X events loc s).1, set_frame i f (process_items X events loc s).2).
Proof.
  revert loc s. induction events as [|ev rest IH]; intros loc s; simpl; [done|].
  rewrite process_item_set_frame.
  destruct (process_item X ev loc s) as [loc1 s1]. simpl. apply IH.
Qed.

Lemma process_item_frames ev loc s :
  frames (process_item X ev loc s).2 = frames s.
Proof.
  destruct ev as [[| delta | usage | [id name input | ty] | ty] | name item | ty];
    simpl; try reflexivity.
  - destruct (currentMessageId loc); reflexivity.
  - destruct (currentMessageId loc); reflexivity.
  - destruct (String.eqb name "tool_output"); reflexivity.
Qed.

Lemma set_frame_twice i f g s :
  set_frame i g (set_frame i f s) = set_frame i g s.
Proof.
  unfold set_frame, with_frames. simpl. by rewrite list_insert_insert_eq.
Qed.

Lemma stream_items_exec i r turns events loc s :
  frames s !! i = Some (GStream r turns loc) ->
  exec X s (map (StreamItem i) events) =
  Some (set_frame i (GStream r turns (process_items X events loc s).1)
          (process_items X events loc s).2).
Proof.
  revert loc s. induction events as [|ev rest IH]; intros loc s H.
  - simpl. by rewrite set_frame_same.
  - assert (i < length (frames s)) as Hlen by (apply lookup_lt_is_Some; eauto).
    pose proof (process_item_frames ev loc s) as Hf.
    simpl. rewrite H.
    destruct (process_item X ev loc s) as [loc1 s1]. simpl in Hf.
    rewrite (IH loc1).
    + rewrite process_items_set_frame. cbn [fst snd]. by rewrite set_frame_twice.
    + unfold set_frame. simpl. rewrite Hf. by apply list_lookup_insert_eq.
Qed.

(** From the moment [_processRunResult] starts on a result, the items of its
    stream let out what one pass of the loop lets out and leave the manager
    as it leaves it. *)
Lemma stream_is_one_pass i r turns events s s' :
  frames s !! i = Some (GStream r turns fresh_locals) ->
  exec X s (map (StreamItem i) events) = Some s' ->
  out s' = out (_processRunResult X events s) /\
  mgr s' = mgr (_processRunResult X events s) /\
  draws s' = draws (_processRunResult X events s).
Proof.
  intros H E. rewrite (stream_items_exec i r turns events fresh_locals s H) in E.
  by injection E as <-.
Qed.

End Properties.

(** * The installation at work *)

Lemma demo_ids_distinct a b :
  fresh_id demo_externals "msg-" a = fresh_id demo_externals "msg-" b -> a = b.
Proof.
  unfold fresh_id. simpl. intros H.
  do 4 apply String.app_inj in H.
  by apply pretty_nat_inj in H.
Qed.

Lemma resume_waits_for_pending_witness :
  frames (demo_run demo_waiting demo_idle_trace) !! 1 = Some (GWait 0 25) /\
  is_Some (_pendingApprovals (mgr (demo_run demo_waiting demo_idle_trace))
             !! "int-1762150000000-0.1").
Proof.
  assert (frames demo_waiting !! 1 = Some (GWait 0 25)) as H1
    by (vm_compute; reflexivity).
  assert (is_Some (_pendingApprovals (mgr demo_waiting) !! "int-1762150000000-0.1"))
    as H2 by (vm_compute; eexists; reflexivity).
  assert (forallb (fun a => negb (is_clear a)
                            && negb (resolves "int-1762150000000-0.1" a))
            demo_idle_trace = true) as H3 by (vm_compute; reflexivity).
  assert (exec demo_externals demo_waiting demo_idle_trace
          = Some (demo_run demo_waiting demo_idle_trace)) as H4
    by (vm_compute; reflexivity).
  destruct (resume_waits_for_pending demo_externals demo_waiting 1 0 25
              "int-1762150000000-0.1" demo_idle_trace _ H1 H2 H3 H4)
    as (F & P & _).
  split; assumption.
Defined.

Lemma chunks_accumulate_witness :
  (forall pre id c full post,
      out demo_streaming = pre ++ AgentEvent (message_chunk id c full) :: post ->
      full = chunks_of id pre +:+ c) /\
  (forall pre id content post,
      out demo_streaming
      = pre ++ AgentEvent (message_complete id content) :: post ->
      content = chunks_of id pre /\
      content = chunks_of id (out demo_streaming)).
Proof.
  apply (chunks_accumulate demo_externals
           (demo_options "claude-sonnet-4-5" "sk-demo")
           (InitSettled 0 :: CallGenerateResponse "list files" :: RunStarted 1 7
              :: map (StreamItem 1) demo_stream)
           demo_streaming demo_ids_distinct).
  vm_compute. reflexivity.
Defined.

Lemma token_usage_accumulates_witness :
  _tokenUsage (mgr demo_streaming) = usage_of (10, 3)%Z /\
  usage_notifications (out demo_streaming) =
    usage_notifications (out demo_ready) ++ [usage_of (10, 3)%Z].
Proof.
  assert (exec demo_externals demo_ready
            (CallGenerateResponse "list files" :: RunStarted 1 7
               :: map (StreamItem 1) demo_stream) = Some demo_streaming) as H
    by (vm_compute; reflexivity).
  destruct (token_usage_accumulates demo_externals demo_ready _ demo_streaming H)
    as (_ & N & Sum & _).
  split.
  - apply (Sum (0, 0)%Z [(10, 3)%Z]); vm_compute; reflexivity.
  - etrans; [exact N|]. vm_compute. reflexivity.
Defined.

Lemma no_agent_no_run_witness :
  runs (demo_run demo_keyless [CallGenerateResponse "hi"; InitSettled 1]) =
    runs demo_keyless /\
  agent_events
    (out (demo_run demo_keyless [CallGenerateResponse "hi"; InitSettled 1])) =
    agent_events (out demo_keyless)
      ++ [error {| message := "Failed to initialize agent" |}].
Proof.
  assert (_agent (mgr demo_keyless) = None) as H1 by (vm_compute; reflexivity).
  assert (_isInitializing (mgr demo_keyless) = true \/
          getProvider (_settingsModel (mgr demo_keyless))
            (_activeProvider (mgr demo_keyless)) = None \/
          (exists e, _createModel demo_externals (mgr demo_keyless) = inr e))
    as H2 by (right; right; eexists; vm_compute; reflexivity).
  assert (step demo_externals demo_keyless (CallGenerateResponse "hi")
          = Some (demo_run demo_keyless [CallGenerateResponse "hi"])) as H3
    by (vm_compute; reflexivity).
  assert (step demo_externals (demo_run demo_keyless [CallGenerateResponse "hi"])
            (InitSettled (length (frames demo_keyless)))
          = Some (demo_run demo_keyless [CallGenerateResponse "hi"; InitSettled 1]))
    as H4 by (vm_compute; reflexivity).
  destruct (no_agent_no_run demo_externals demo_keyless "hi" _ _ H1 H2 H3 H4)
    as (_ & _ & R & E & _).
  split; assumption.
Defined.

Lemma stream_error_keeps_history_witness :
  out (demo_run demo_streaming [StreamError 1 {| message := "network down" |}]) =
    out demo_streaming ++ [AgentEvent (error {| message := "network down" |})] /\
  _history (mgr (demo_run demo_streaming
                   [StreamError 1 {| message := "network down" |}])) =
    _history (mgr demo_ready) ++ [user "list files"].
Proof.
  assert (forallb is_quiet (frames demo_ready) = true) as H1
    by (vm_compute; reflexivity).
  assert (forallb (fun a => negb (is_clear a) && negb (is_generate a))
            (RunStarted 1 7 :: map (StreamItem 1) demo_stream) = true) as H2
    by (vm_compute; reflexivity).
  assert (exec demo_externals demo_ready
            (CallGenerateResponse "list files"
               :: RunStarted 1 7 :: map (StreamItem 1) demo_stream)
          = Some demo_streaming) as H3 by (vm_compute; reflexivity).
  assert (StreamError 1 {| message := "network down" |} =
            StreamError (length (frames demo_ready)) {| message := "network down" |} \/
          StreamError 1 {| message := "network down" |} =
            RunFailed (length (frames demo_ready)) {| message := "network down" |})
    as H4 by (left; vm_compute; reflexivity).
  assert (step demo_externals demo_streaming
            (StreamError 1 {| message := "network down" |})
          = Some (demo_run demo_streaming
                    [StreamError 1 {| message := "network down" |}])) as H5
    by (vm_compute; reflexivity).
  destruct (stream_error_keeps_history demo_externals demo_ready "list files"
              _ _ _ _ _ H1 H2 H3 H4 H5) as (O & Hh & _).
  split; assumption.
Defined.

Lemma unknown_interruption_is_noop_witness :
  exists s',
    step demo_externals demo_waiting (CallApproveToolCall "int-unknown") = Some s' /\
    mgr s' = mgr demo_waiting /\ heap s' = heap demo_waiting /\
    agent_events (out s') = agent_events (out demo_waiting).
Proof.
  assert (_pendingApprovals (mgr demo_waiting) !! "int-unknown" = None) as H1
    by (vm_compute; reflexivity).
  destruct (unknown_interruption_is_noop demo_externals demo_waiting "int-unknown"
              (CallApproveToolCall "int-unknown") H1 (or_introl eq_refl))
    as (s' & Hs & Hm & Hh & _ & _ & _ & He & _).
  exists s'. repeat split; assumption.
Defined.

Lemma generateResponse_has_no_guard_witness :
  exists s' call turns,
    step demo_externals demo_streaming (CallGenerateResponse "again") = Some s' /\
    frames s' = frames demo_streaming ++ [GAwaitRun turns] /\
    runs s' = runs demo_streaming ++ [call].
Proof.
  assert (exists agent, _agent (mgr demo_streaming) = Some agent) as [agent H1]
    by (eexists; vm_compute; reflexivity).
  destruct (generateResponse_has_no_guard demo_externals demo_streaming "again"
              agent H1) as (s' & call & turns & Hs & Hf & Hr & _).
  exists s', call, turns. repeat split; assumption.
Defined.

Lemma chunks_follow_a_start_witness :
  (forall pre o post id,
      demo_log = pre ++ o :: post -> message_id_of o = Some id ->
      AgentEvent (message_start id) ∈ pre) /\
  (forall pre id content mid id' c full post,
      demo_log = pre ++ AgentEvent (message_complete id content)
                     :: mid ++ AgentEvent (message_chunk id' c full) :: post ->
      existsb is_message_start mid = true).
Proof.
  assert (out (_processRunResult demo_externals demo_stream demo_ready)
          = out demo_ready ++ demo_log) as H by (vm_compute; reflexivity).
  destruct (chunks_follow_a_start demo_externals demo_ready demo_stream
              demo_log H) as (A & B & _).
  split; [exact A | exact B].
Defined.

Lemma clearHistory_discards_pending_witness :
  _pendingApprovals (mgr (clearHistory demo_waiting)) = ∅ /\
  heap (clearHistory demo_waiting) = heap demo_waiting /\
  is_Some (step demo_externals (clearHistory demo_waiting) (Tick 1)).
Proof.
  assert (frames demo_waiting !! 1 = Some (GWait 0 25)) as H1
    by (vm_compute; reflexivity).
  assert (exists res, heap demo_waiting !! 0 = Some res) as [res H2]
    by (eexists; vm_compute; reflexivity).
  assert (exists c, _controller (mgr demo_waiting) = Some c) as [c H3]
    by (eexists; vm_compute; reflexivity).
  assert (runner_serial (_runner (mgr demo_waiting)) < serials demo_waiting)
    as H4 by (vm_compute; lia).
  destruct (clearHistory_discards_pending demo_externals demo_waiting 1 0 25
              res c H1 H2 H3 H4) as (_ & _ & P & _ & _ & _ & Hh & _ & T).
  split; [exact P|]. split; [exact Hh|]. rewrite T. eexists. reflexivity.
Defined.

(** ** Where the code departs from a claim *)

(** Against C1 as stated: call 1 waits on an interruption id; [clearHistory]
    is called, and no approval or rejection; at its next poll the call
    resumes the run, whose [message_start] goes out, and the state of the
    interrupted result has received no verdict. *)
Lemma clearHistory_resumes_without_verdict :
  frames demo_waiting !! 1 = Some (GWait 0 25) /\
  is_Some (_pendingApprovals (mgr demo_waiting) !! "int-1762150000000-0.1") /\
  forallb (fun a => negb (resolves "int-1762150000000-0.1" a)) demo_clear_trace
    = true /\
  exists s',
    exec demo_externals demo_waiting demo_clear_trace = Some s' /\
    agent_events (out s') =
      agent_events (out demo_waiting)
        ++ [message_start "msg-1762150000000-0.2"] /\
    length (runs s') = S (length (runs demo_waiting)) /\
    (fun res => verdicts (state res)) <$> heap s' !! 0 = Some [].
Proof.
  split; [vm_compute; reflexivity|].
  split; [vm_compute; eexists; reflexivity|].
  split; [vm_compute; reflexivity|].
  eexists. split; [vm_compute; reflexivity|].
  vm_compute. repeat split; reflexivity.
Qed.

(** Against C6 as stated: call 1 of the installation is consuming its
    stream, and the history is the user message it appended.
    [clearHistory] is called and then the stream throws: the one [error]
    event goes out and the history after the failed call is empty, the
    user message gone with the rest.  With a second [generateResponse] in
    the place of [clearHistory], the history after the failure holds the
    user message of the other call as well. *)
Lemma clear_before_stream_error_empties_history :
  _history (mgr demo_ready) = [] /\
  _history (mgr demo_streaming) = [user "list files"] /\
  (exists s',
      exec demo_externals demo_streaming
        [CallClearHistory; StreamError 1 {| message := "network down" |}]
      = Some s' /\
      agent_events (out s') =
        agent_events (out demo_streaming)
          ++ [error {| message := "network down" |}] /\
      frames s' !! 1 = Some Settled /\
      _history (mgr s') = []) /\
  (exists s',
      exec demo_externals demo_streaming
        [CallGenerateResponse "again";
         StreamError 1 {| message := "network down" |}]
      = Some s' /\
      agent_events (out s') =
        agent_events (out demo_streaming)
          ++ [error {| message := "network down" |}] /\
      frames s' !! 1 = Some Settled /\
      _history (mgr s') = [user "list files"; user "again"]).
Proof.
  split; [vm_compute; reflexivity|].
  split; [vm_compute; reflexivity|].
  split.
  - eexists. split; [vm_compute; reflexivity|].
    vm_compute. repeat split; reflexivity.
  - eexists. split; [vm_compute; reflexivity|].
    vm_compute. repeat split; reflexivity.
Qed.

(** Against C5 as stated: the provider has a key and an empty model name,
    so [hasValidConfig] answers no; the factory builds a model all the same,
    the agent exists, and [generateResponse] invokes the runner: no error
    event, one run. *)
Lemma empty_model_reaches_runner :
  hasValidConfig (mgr demo_unnamed_model) = false /\
  exists s',
    exec demo_externals demo_unnamed_model
      [InitSettled 0; CallGenerateResponse "hi"] = Some s' /\
    hasValidConfig (mgr s') = false /\
    length (runs s') = 1 /\
    agent_events (out s') = [] /\
    frames s' !! 1 = Some (GAwaitRun 25).
Proof.
  split; [vm_compute; reflexivity|].
  eexists. split; [vm_compute; reflexivity|].
  vm_compute. repeat split; reflexivity.
Qed.

(** Against C8 as stated: a second [generateResponse] made while the stream
    of the first is being consumed is neither rejected nor queued; both runs
    are started and their events alternate on the signal. *)
Lemma second_call_interleaves :
  exists s',
    exec demo_externals demo_ready demo_two_calls = Some s' /\
    frames s' =
      [Settled;
       GStream 0 25 {| fullResponse := "x";
                       currentMessageId := Some "msg-1762150000000-0.0" |};
       GStream 1 25 {| fullResponse := "y";
                       currentMessageId := Some "msg-1762150000000-0.1" |}] /\
    length (runs s') = 2 /\
    agent_events (out s') =
      [message_start "msg-1762150000000-0.0";
       message_start "msg-1762150000000-0.1";
       message_chunk "msg-1762150000000-0.0" "x" "x";
       message_chunk "msg-1762150000000-0.1" "y" "y"].
Proof.
  eexists. split; [vm_compute; reflexivity|].
  vm_compute. repeat split; reflexivity.
Qed.

(** * What the rest of agent.ts does

    ** The built-in providers *)

Lemma or_else_given (v d : string) : v <> "" -> or_else (Some v) d = v.
Proof.
  intros H. unfold or_else. destruct (String.eqb v "") eqn:E; [|done].
  by apply String.eqb_eq in E.
Qed.

Lemma builtin_cases (P : IProviderInfo -> Prop) :
  P sapProvider -> P anthropicProvider -> P googleProvider ->
  P mistralProvider -> P openaiProvider -> P genericProvider ->
  forall info, info ∈ builtin_providers -> P info.
Proof.
  intros H1 H2 H3 H4 H5 H6 info H. unfold builtin_providers in H.
  repeat (apply elem_of_cons in H as [->|H]; [done|]).
  by apply elem_of_nil in H.
Qed.

(** X1: a factory of the file throws exactly when the key is empty and the
    provider is one of anthropic, google, mistral and openai, that is, when
    the provider declares its key required and is not sap: the factory of
    sap, which declares the key required too, takes an empty key, and so
    does that of the generic provider. *)
Theorem factory_refuses_empty_key info options :
  info ∈ builtin_providers ->
  (exists e, factory info options = inr e) <->
  (mo_apiKey options = "" /\ apiKeyRequirement info = "required"
   /\ pi_id info <> "sap").
Proof.
  revert info. apply builtin_cases; simpl.
  - split; [by intros [e ?] | by intros (_ & _ & ?)].
  - destruct (String.eqb (mo_apiKey options) "") eqn:E.
    + apply String.eqb_eq in E. split; [done | by eexists].
    + apply String.eqb_neq in E. split; [by intros [e ?] | by intros [? _]].
  - destruct (String.eqb (mo_apiKey options) "") eqn:E.
    + apply String.eqb_eq in E. split; [done | by eexists].
    + apply String.eqb_neq in E. split; [by intros [e ?] | by intros [? _]].
  - destruct (String.eqb (mo_apiKey options) "") eqn:E.
    + apply String.eqb_eq in E. split; [done | by eexists].
    + apply String.eqb_neq in E. split; [by intros [e ?] | by intros [? _]].
  - destruct (String.eqb (mo_apiKey options) "") eqn:E.
    + apply String.eqb_eq in E. split; [done | by eexists].
    + apply String.eqb_neq in E. split; [by intros [e ?] | by intros [? _]].
  - split; [by intros [e ?] | by intros (_ & ? & _)].
Qed.

(** X2: the model a factory of the file returns is made for the model name
    of the options when that name is not empty; for an empty name every
    provider but anthropic puts its default in, so that the handle has an
    empty model name exactly when the provider is anthropic and the name
    given was empty. *)
Theorem factory_model_name info options created :
  info ∈ builtin_providers ->
  factory info options = inl created ->
  (mo_model options <> "" -> lm_modelId created = mo_model options) /\
  (lm_modelId created = "" <->
   mo_model options = "" /\ pi_id info = "anthropic").
Proof.
  revert info.
  assert (forall d : string, d <> "" ->
            (mo_model options <> "" ->
             or_else (Some (mo_model options)) d = mo_model options) /\
            (or_else (Some (mo_model options)) d = "" -> False)) as D.
  { intros d Hd. split; [apply or_else_given|].
    unfold or_else. destruct (String.eqb (mo_model options) "") eqn:E; [done|].
    by apply String.eqb_neq in E. }
  intros info Hin. pattern info. revert info Hin.
  apply builtin_cases; simpl.
  - intros [= <-]. simpl. destruct (D "gpt-4o") as [D1 D2]; [done|].
    split; [done|]. split; [by intros ?%D2 | by intros [_ ?]].
  - destruct (String.eqb (mo_apiKey options) ""); [done|].
    intros [= <-]. simpl. split; [done|]. split; [done | by intros [? _]].
  - destruct (String.eqb (mo_apiKey options) ""); [done|].
    intros [= <-]. simpl. destruct (D "gemini-2.5-flash") as [D1 D2]; [done|].
    split; [done|]. split; [by intros ?%D2 | by intros [_ ?]].
  - destruct (String.eqb (mo_apiKey options) ""); [done|].
    intros [= <-]. simpl. destruct (D "mistral-large-latest") as [D1 D2]; [done|].
    split; [done|]. split; [by intros ?%D2 | by intros [_ ?]].
  - destruct (String.eqb (mo_apiKey options) ""); [done|].
    intros [= <-]. simpl. destruct (D "gpt-4o") as [D1 D2]; [done|].
    split; [done|]. split; [by intros ?%D2 | by intros [_ ?]].
  - intros [= <-]. simpl. destruct (D "gpt-4o") as [D1 D2]; [done|].
    split; [done|]. split; [by intros ?%D2 | by intros [_ ?]].
Qed.

(** X3: a configuration that [hasValidConfig] accepts is one the factory of
    its provider accepts: when the registry of the manager answers with a
    provider of the file and the key handed over is the key of the
    configuration, the factory returns a model, and the model is made for
    the configured model name. *)
Theorem valid_config_is_accepted m activeProviderConfig registry info :
  info ∈ builtin_providers ->
  getProvider (_settingsModel m) (_activeProvider m) = Some activeProviderConfig ->
  _providerRegistry m = Some registry ->
  getProviderInfo registry (pc_provider activeProviderConfig) = Some info ->
  hasValidConfig m = true ->
  exists created,
    factory info (options_of activeProviderConfig) = inl created /\
    lm_modelId created = pc_model activeProviderConfig.
Proof.
  intros Hin Hp Hr Hi. unfold hasValidConfig. rewrite Hp, Hr, Hi.
  destruct (String.eqb (pc_model activeProviderConfig) "") eqn:Em; [done|].
  clear Hi. revert info Hin.
  assert (truthy (pc_apiKey activeProviderConfig) = true ->
          String.eqb (default "" (pc_apiKey activeProviderConfig)) "" = false)
    as K.
  { unfold truthy. destruct (pc_apiKey activeProviderConfig) as [k|]; [|done].
    simpl. by intros ->%negb_true_iff. }
  intros info Hin. pattern info. revert info Hin.
  apply builtin_cases; simpl; intros Hv;
    try (apply K in Hv; rewrite Hv); rewrite ?Em; by eexists.
Qed.

(** ** The factory *)

Lemma close_servers_effect servers closes k connectionChanged f :
  let r := Factory.close_servers servers closes k connectionChanged f in
  Factory._mcpServers r.2 = Factory._mcpServers f /\
  Factory._agentManagers r.2 = Factory._agentManagers f /\
  Factory._isInitializing r.2 = Factory._isInitializing f /\
  Factory._secretsManager r.2 = Factory._secretsManager f /\
  Factory._settingsModel r.2 = Factory._settingsModel f /\
  r.1 = connectionChanged || Factory.succeeds closes k (length servers) /\
  Factory.signals (Factory.out r.2) = Factory.signals (Factory.out f) /\
  Factory.warnings (Factory.out r.2) =
    Factory.warnings (Factory.out f) + Factory.failures closes k (length servers).
Proof.
  revert k connectionChanged f.
  induction servers as [|server rest IH]; intros k connectionChanged f; simpl.
  - rewrite orb_false_r. repeat split; try done; lia.
  - destruct (closes k) as [e|].
    + destruct (IH (S k) connectionChanged
                  (Factory.emit (Factory.ConsoleWarn "Error closing MCP server:" e) f))
        as (-> & -> & -> & -> & -> & -> & -> & ->).
      repeat split; try done.
      * unfold Factory.signals. simpl. rewrite omap_app. simpl.
        by rewrite app_nil_r.
      * unfold Factory.warnings. simpl. rewrite omap_app, length_app. simpl. lia.
    + destruct (IH (S k) true f) as (-> & -> & -> & -> & -> & -> & -> & ->).
      rewrite orb_true_r. repeat split; done.
Qed.

Lemma connect_servers_effect enabledServers connects k connectionChanged f :
  let r := Factory.connect_servers enabledServers connects k connectionChanged f in
  Factory._mcpServers r.2 =
    Factory._mcpServers f ++ Factory.connected enabledServers connects k /\
  Factory._agentManagers r.2 = Factory._agentManagers f /\
  Factory._isInitializing r.2 = Factory._isInitializing f /\
  Factory._secretsManager r.2 = Factory._secretsManager f /\
  Factory._settingsModel r.2 = Factory._settingsModel f /\
  r.1 = connectionChanged
        || Factory.succeeds connects k (length enabledServers) /\
  Factory.signals (Factory.out r.2) = Factory.signals (Factory.out f) /\
  Factory.warnings (Factory.out r.2) =
    Factory.warnings (Factory.out f)
    + Factory.failures connects k (length enabledServers).
Proof.
  revert k connectionChanged f.
  induction enabledServers as [|serverConfig rest IH];
    intros k connectionChanged f; simpl.
  - rewrite orb_false_r, app_nil_r. repeat split; try done; lia.
  - destruct (connects k) as [e|].
    + edestruct (IH (S k) connectionChanged) as (-> & -> & -> & -> & -> & -> & -> & ->).
      repeat split; try done.
      * unfold Factory.signals. simpl. rewrite omap_app. simpl.
        by rewrite app_nil_r.
      * unfold Factory.warnings. simpl. rewrite omap_app, length_app. simpl. lia.
    + edestruct (IH (S k) true) as (-> & -> & -> & -> & -> & -> & -> & ->).
      rewrite orb_true_r. simpl. rewrite <- app_assoc. repeat split; done.
Qed.

Lemma connected_lookup enabledServers connects k server :
  server ∈ Factory.connected enabledServers connects k <->
  exists j serverConfig,
    enabledServers !! j = Some serverConfig /\ connects (k + j) = None /\
    server = {| mcp_name := Factory.sc_name serverConfig;
                mcp_url := Factory.sc_url serverConfig |}.
Proof.
  revert k. induction enabledServers as [|c rest IH]; intros k; simpl.
  - split; [by intros ?%elem_of_nil | by intros (j & cfg & ? & _)].
  - assert ((exists j serverConfig,
               rest !! j = Some serverConfig /\ connects (S k + j) = None /\
               server = {| mcp_name := Factory.sc_name serverConfig;
                           mcp_url := Factory.sc_url serverConfig |}) ->
            exists j serverConfig,
              (c :: rest) !! j = Some serverConfig /\ connects (k + j) = None /\
              server = {| mcp_name := Factory.sc_name serverConfig;
                          mcp_url := Factory.sc_url serverConfig |}) as Up.
    { intros (j & cfg & Hj & Hc & Hs). exists (S j), cfg.
      split; [done|]. split; [|done].
      by replace (k + S j) with (S k + j) by lia. }
    destruct (connects k) as [e|] eqn:E.
    + rewrite IH. split; [exact Up|].
      intros ([|j] & cfg & Hj & Hc & Hs).
      * rewrite Nat.add_0_r in Hc. congruence.
      * exists j, cfg. split; [done|]. split; [|done].
        by replace (S k + j) with (k + S j) by lia.
    + rewrite elem_of_cons, IH. split.
      * intros [-> | H]; [|by apply Up].
        exists 0, c. rewrite Nat.add_0_r. done.
      * intros ([|j] & cfg & Hj & Hc & Hs).
        -- left. simpl in Hj. by injection Hj as ->.
        -- right. exists j, cfg. split; [done|]. split; [|done].
           by replace (S k + j) with (k + S j) by lia.
Qed.

Lemma connected_some enabledServers connects k :
  (0 <? length (Factory.connected enabledServers connects k)) =
  Factory.succeeds connects k (length enabledServers).
Proof.
  revert k. induction enabledServers as [|c rest IH]; intros k; simpl; [done|].
  destruct (connects k); [apply IH | done].
Qed.

Lemma is_connected_elem name f :
  Factory.isMCPServerConnected name f = true <->
  exists server, server ∈ Factory._mcpServers f /\ mcp_name server = name.
Proof.
  unfold Factory.isMCPServerConnected. rewrite existsb_exists. split.
  - intros (server & Hin & E). exists server. split.
    + by apply list_elem_of_In.
    + by apply String.eqb_eq.
  - intros (server & Hin & E). exists server. split.
    + by apply list_elem_of_In.
    + by apply String.eqb_eq.
Qed.

(** What a pass of [_initializeMCPServers] leaves of the factory. *)
Lemma pass_effect mcpServers closes connects f :
  let f' := Factory._initializeMCPServers mcpServers closes connects f in
  let enabledServers := List.filter Factory.sc_enabled mcpServers in
  Factory._mcpServers f' = Factory.connected enabledServers connects 0 /\
  Factory._agentManagers f' = Factory._agentManagers f /\
  Factory._isInitializing f' = Factory._isInitializing f /\
  Factory._secretsManager f' = Factory._secretsManager f /\
  Factory._settingsModel f' = Factory._settingsModel f /\
  Factory.signals (Factory.out f') =
    Factory.signals (Factory.out f) ++
    (if Factory.succeeds closes 0 (length (Factory._mcpServers f))
        || Factory.succeeds connects 0 (length enabledServers)
     then [Factory.succeeds connects 0 (length enabledServers)] else []) /\
  Factory.warnings (Factory.out f') =
    Factory.warnings (Factory.out f)
    + Factory.failures closes 0 (length (Factory._mcpServers f))
    + Factory.failures connects 0 (length enabledServers).
Proof.
  unfold Factory._initializeMCPServers.
  pose proof (close_servers_effect (Factory._mcpServers f) closes 0 false f) as C.
  destruct (Factory.close_servers (Factory._mcpServers f) closes 0 false f)
    as [changed1 f1]. simpl in C.
  destruct C as (C1 & C2 & C3 & C4 & C5 & -> & C7 & C8).
  pose proof (connect_servers_effect
                (List.filter Factory.sc_enabled mcpServers) connects 0
                (Factory.succeeds closes 0 (length (Factory._mcpServers f)))
                (Factory.set_mcpServers [] f1)) as D.
  destruct (Factory.connect_servers _ connects 0 _ (Factory.set_mcpServers [] f1))
    as [changed2 f3]. simpl in D.
  destruct D as (D1 & D2 & D3 & D4 & D5 & -> & D7 & D8).
  destruct (Factory.succeeds closes 0 _ || Factory.succeeds connects 0 _) eqn:E;
    simpl.
  - rewrite D1, D2, D3, D4, D5, C2, C3, C4, C5. repeat split; try done.
    + unfold Factory.signals in *. rewrite omap_app, D7, C7. simpl.
      by rewrite connected_some.
    + unfold Factory.warnings in *. rewrite omap_app, length_app. simpl.
      rewrite D8, C8. lia.
  - rewrite D1, D2, D3, D4, D5, C2, C3, C4, C5, D7, C7, D8, C8, app_nil_r.
    repeat split; done.
Qed.

(** X4: after a pass of [_initializeMCPServers] the servers the factory
    answers for are those of the enabled entries of the settings whose
    [connect()] did not throw, whatever was connected before and whether
    or not it could be closed: an entry that is not enabled is never
    connected, and neither is one of an earlier pass. *)
Theorem connected_after_pass mcpServers closes connects f serverName :
  Factory.isMCPServerConnected serverName
    (Factory._initializeMCPServers mcpServers closes connects f) = true <->
  exists k serverConfig,
    List.filter Factory.sc_enabled mcpServers !! k = Some serverConfig /\
    connects k = None /\ Factory.sc_name serverConfig = serverName.
Proof.
  rewrite is_connected_elem.
  destruct (pass_effect mcpServers closes connects f) as (-> & _).
  split.
  - intros (server & Hin & <-).
    apply connected_lookup in Hin as (j & cfg & Hj & Hc & ->).
    by exists j, cfg.
  - intros (k & cfg & Hk & Hc & <-).
    exists {| mcp_name := Factory.sc_name cfg; mcp_url := Factory.sc_url cfg |}.
    split; [|done]. apply connected_lookup. by exists k, cfg.
Qed.

(** X5: a pass of [_initializeMCPServers] emits [mcpConnectionChanged] at
    most once: it does when one of the old servers could be closed or one
    of the enabled servers could be connected, and the value is whether a
    server is connected now.  So a pass that fails to close every old
    server and connects none leaves the factory with no server and emits
    nothing.  Every [close()] and every [connect()] that throws is one
    [console.warn]. *)
Theorem connection_signal mcpServers closes connects f :
  let f' := Factory._initializeMCPServers mcpServers closes connects f in
  let enabledServers := List.filter Factory.sc_enabled mcpServers in
  let closed := Factory.succeeds closes 0 (length (Factory._mcpServers f)) in
  let opened := Factory.succeeds connects 0 (length enabledServers) in
  Factory.signals (Factory.out f') =
    Factory.signals (Factory.out f) ++ (if closed || opened then [opened] else []) /\
  (opened = (0 <? length (Factory._mcpServers f'))) /\
  Factory.warnings (Factory.out f') =
    Factory.warnings (Factory.out f)
    + Factory.failures closes 0 (length (Factory._mcpServers f))
    + Factory.failures connects 0 (length enabledServers).
Proof.
  destruct (pass_effect mcpServers closes connects f)
    as (E & _ & _ & _ & _ & S & W).
  simpl. split; [exact S|]. split; [|exact W].
  by rewrite E, connected_some.
Qed.

Section More.

Variable X : Externals.

#[local] Arguments initializeAgent_finish : simpl never.

(** The model is created from the settings, the active provider, the
    registry and the secrets; the flag and the servers do not come into
    it. *)
Lemma createModel_begin mcpServers s :
  _createModel X (mgr (initializeAgent_begin mcpServers s).2) = _createModel X (mgr s).
Proof.
  unfold initializeAgent_begin. destruct (_isInitializing (mgr s)); [done|].
  by destruct mcpServers.
Qed.

(** The two ways an initialisation ends. *)
Lemma finish_cases s :
  let s' := initializeAgent_finish X s in
  let m := mgr s in
  _isInitializing (mgr s') = false /\
  _mcpServers (mgr s') = _mcpServers m /\
  _selectedToolNames (mgr s') = _selectedToolNames m /\
  match _createModel X m with
  | inl created =>
      out s' = out s /\
      exists agent,
        _agent (mgr s') = Some agent /\
        agent_model agent = created /\
        agent_mcpServers agent = _mcpServers m /\
        agent_tools agent = (if shouldUseTools m then selectedAgentTools m else [])
  | inr e =>
      out s' = out s ++ [ConsoleWarn "Failed to initialize agent:" (Some e)] /\
      _agent (mgr s') = None
  end.
Proof.
  unfold initializeAgent_finish.
  destruct (_createModel X (mgr s)) as [created|e]; simpl.
  - repeat split; try done. eexists. repeat split; done.
  - repeat split; done.
Qed.

(** X6: [_initializeAgents], once past its guard, hands the servers of its
    pass to every manager the factory holds and lowers the flag of the
    factory.  A manager that is not initialising takes them and starts an
    initialisation, and the agent that initialisation builds, if the model
    can be created, has exactly these servers; a manager that is
    initialising is left as it is and does not get them. *)
Theorem pass_reaches_managers mcpServers closes connects f j s :
  Factory._agentManagers f !! j = Some s ->
  let f' := Factory._initializeAgents_finish mcpServers closes connects f in
  let servers := Factory._mcpServers f' in
  Factory._isInitializing f' = false /\
  length (Factory._agentManagers f') = length (Factory._agentManagers f) /\
  exists s',
    Factory._agentManagers f' !! j = Some s' /\
    if _isInitializing (mgr s) then s' = s
    else
      _mcpServers (mgr s') = servers /\
      _isInitializing (mgr s') = true /\
      frames s' = frames s ++ [IInit] /\
      exists s'',
        step X s' (InitSettled (length (frames s))) = Some s'' /\
        _isInitializing (mgr s'') = false /\
        forall created,
          _createModel X (mgr s) = inl created ->
          exists agent,
            _agent (mgr s'') = Some agent /\
            agent_model agent = created /\
            agent_mcpServers agent = servers.
Proof.
  intros Hj. unfold Factory._initializeAgents_finish. simpl.
  destruct (pass_effect mcpServers closes connects f) as (_ & Hm & _).
  set (f1 := Factory._initializeMCPServers mcpServers closes connects f) in *.
  split; [done|]. split; [by rewrite length_map, Hm|].
  exists (initializeAgent (Some (Factory._mcpServers f1)) s).
  split; [by rewrite list_lookup_fmap, Hm, Hj|].
  unfold initializeAgent, initializeAgent_begin.
  destruct (_isInitializing (mgr s)) eqn:I; [done|].
  set (s1 := on_mgr _ s).
  assert (_createModel X (mgr s1) = _createModel X (mgr s)) as Hsame by done.
  split; [done|]. split; [done|]. split; [done|].
  exists (set_frame (length (frames s)) Settled
            (initializeAgent_finish X (with_frames (frames s1 ++ [IInit]) s1))).
  split.
  { cbn [step]. change (frames (with_frames (frames s1 ++ [IInit]) s1))
      with (frames s ++ [IInit]).
    rewrite lookup_app_r by done. by rewrite Nat.sub_diag. }
  destruct (finish_cases (with_frames (frames s1 ++ [IInit]) s1))
    as (F1 & F2 & _ & F3).
  split; [exact F1|].
  intros created Hc.
  change (mgr (with_frames (frames s1 ++ [IInit]) s1)) with (mgr s1) in F3.
  rewrite Hsame, Hc in F3. destruct F3 as (_ & agent & A1 & A2 & A3 & _).
  exists agent. repeat split; done.
Qed.

(** X7: [createAgent] makes the manager with the secrets manager of the
    factory, whatever the options say, and adds it to the managers; it
    hands none of the servers the factory has connected to it.  The new
    manager is initialising, so a pass of the factory that comes before
    that initialisation is over does not reach it, and the agent of that
    initialisation has no MCP server. *)
Theorem created_manager_has_no_servers options f :
  let r := Factory.createAgent options f in
  exists s,
    r.1 = length (Factory._agentManagers f) /\
    Factory._agentManagers r.2 = Factory._agentManagers f ++ [s] /\
    Factory._mcpServers r.2 = Factory._mcpServers f /\
    _secretsManager (mgr s) = Factory._secretsManager f /\
    _mcpServers (mgr s) = [] /\
    (forall mcpServers, initializeAgent mcpServers s = s) /\
    exists s',
      step X s (InitSettled 0) = Some s' /\
      _mcpServers (mgr s') = [] /\
      forall agent, _agent (mgr s') = Some agent -> agent_mcpServers agent = [].
Proof.
  simpl. eexists. split; [done|]. split; [done|]. split; [done|].
  split; [done|]. split; [done|]. split; [done|].
  eexists. split; [reflexivity|].
  match goal with
  | |- context [initializeAgent_finish X ?t] =>
      destruct (finish_cases t) as (_ & F2 & _ & F3);
      change (mgr (set_frame 0 Settled (initializeAgent_finish X t)))
        with (mgr (initializeAgent_finish X t));
      set (s' := initializeAgent_finish X t) in *
  end.
  split; [exact F2|]. intros agent Ha.
  destruct (_createModel X _).
  - destruct F3 as (_ & a & A1 & _ & A3 & _).
    rewrite A1 in Ha. injection Ha as <-. exact A3.
  - destruct F3 as (_ & A1). congruence.
Qed.

(** ** The approval operations *)

(** X8: [approveGroupedToolCalls] and [rejectGroupedToolCalls] pass over
    every id that is not pending or is pending under another group id, or
    under none: with no id of the list pending under the group id given,
    the call changes nothing and lets nothing out, not even the warning of
    the single operations. *)
Theorem other_group_is_left_alone group ids s :
  (forall id pending,
      id ∈ ids -> _pendingApprovals (mgr s) !! id = Some pending ->
      groupId pending <> Some group) ->
  approveGroupedToolCalls group ids s = s /\
  rejectGroupedToolCalls group ids s = s.
Proof.
  induction ids as [|id rest IH]; intros H; simpl; [done|].
  assert (match _pendingApprovals (mgr s) !! id with
          | Some pending =>
              bool_decide (groupId pending = Some group) = false
          | None => True
          end) as Hid.
  { destruct (_pendingApprovals (mgr s) !! id) as [p|] eqn:E; [|done].
    apply bool_decide_eq_false. apply (H id p); [by left | done]. }
  destruct (_pendingApprovals (mgr s) !! id) as [p|]; [rewrite Hid|];
    apply IH; intros id' p' Hin; apply H; by right.
Qed.

(** What one verdict does. *)
Lemma verdict_effect id pending verdict s :
  _pendingApprovals (mgr s) !! id = Some pending ->
  let s1 := if verdict : bool then approveToolCall id s else rejectToolCall id s in
  s1 = resolve_pending id pending verdict
         (record_verdict (interruption pending) verdict s).
Proof.
  intros H. destruct verdict; simpl; unfold approveToolCall, rejectToolCall;
    by rewrite H.
Qed.

Lemma record_verdict_frame item verdict s :
  let s1 := record_verdict item verdict s in
  mgr s1 = mgr s /\ out s1 = out s /\ frames s1 = frames s /\
  runs s1 = runs s /\ draws s1 = draws s /\ serials s1 = serials s /\
  length (heap s1) = length (heap s).
Proof.
  unfold record_verdict.
  destruct (_interruptedState (mgr s)) as [r|]; [|done].
  destruct (heap s !! r) as [res|]; [|done].
  simpl. by rewrite length_insert.
Qed.

(** X9: the first verdict on an interruption is the one that counts.  Once
    an id has been approved or rejected it has left the pending set, and a
    second approval or rejection of it, whichever way it goes, changes
    nothing and lets out the warning that the id is not pending. *)
Theorem first_verdict_wins id pending first second s :
  _pendingApprovals (mgr s) !! id = Some pending ->
  let s1 := if first : bool then approveToolCall id s else rejectToolCall id s in
  let s2 := if second : bool then approveToolCall id s1 else rejectToolCall id s1 in
  _pendingApprovals (mgr s1) = delete id (_pendingApprovals (mgr s)) /\
  _pendingApprovals (mgr s1) !! id = None /\
  s2 = emit (ConsoleWarn
               ("No pending approval found for interruption " +:+ id) None) s1.
Proof.
  intros H. simpl.
  rewrite (verdict_effect id pending first s H).
  set (s0 := record_verdict (interruption pending) first s).
  assert (_pendingApprovals (mgr (resolve_pending id pending first s0))
          = delete id (_pendingApprovals (mgr s))) as E.
  { unfold resolve_pending. simpl. subst s0.
    rewrite (proj1 (record_verdict_frame (interruption pending) first s)).
    apply delete_insert_eq. }
  split; [exact E|].
  assert (_pendingApprovals (mgr (resolve_pending id pending first s0)) !! id
          = None) as N by (rewrite E; apply lookup_delete_eq).
  split; [exact N|].
  destruct second; unfold approveToolCall, rejectToolCall; by rewrite N.
Qed.

(** X10: a verdict is recorded in the run state of the result that
    [_interruptedState] refers to at that moment, after the verdicts that
    state has, and in no other result; when [_interruptedState] is null
    nothing is recorded anywhere.  Either way the id leaves the pending
    set, nothing is let out and no call in flight is touched. *)
Theorem verdict_goes_to_interrupted_state id pending verdict s :
  _pendingApprovals (mgr s) !! id = Some pending ->
  let s1 := if verdict : bool then approveToolCall id s else rejectToolCall id s in
  out s1 = out s /\ frames s1 = frames s /\ runs s1 = runs s /\
  _pendingApprovals (mgr s1) !! id = None /\
  _interruptedState (mgr s1) = _interruptedState (mgr s) /\
  (_interruptedState (mgr s) = None -> heap s1 = heap s) /\
  (forall r res,
      _interruptedState (mgr s) = Some r -> heap s !! r = Some res ->
      heap s1 !! r =
        Some {| state :=
                  {| snapshot := snapshot (state res);
                     verdicts := verdicts (state res)
                                 ++ [(interruption pending, verdict)] |};
                interruptions := interruptions res;
                history := history res |} /\
      forall r', r' <> r -> heap s1 !! r' = heap s !! r').
Proof.
  intros H. simpl. rewrite (verdict_effect id pending verdict s H).
  unfold resolve_pending, record_verdict. simpl.
  destruct (_interruptedState (mgr s)) as [r|] eqn:I.
  - destruct (heap s !! r) as [res|] eqn:Hr; simpl.
    + split; [done|]. split; [done|]. split; [done|].
      split; [apply lookup_delete_eq|]. split; [done|]. split; [done|].
      intros r1 res1 [= <-] Hres. rewrite Hr in Hres. injection Hres as <-.
      split.
      * apply list_lookup_insert_eq. apply lookup_lt_is_Some. by eexists.
      * intros r' Hne. by apply list_lookup_insert_ne.
    + split; [done|]. split; [done|]. split; [done|].
      split; [apply lookup_delete_eq|]. split; [done|]. split; [done|].
      intros r1 res1 [= <-] Hres. congruence.
  - simpl. split; [done|]. split; [done|]. split; [done|].
    split; [apply lookup_delete_eq|]. done.
Qed.

(** ** From the request for an approval to the resumed run *)

Lemma poll_waits i r turns s id p :
  _pendingApprovals (mgr s) !! id = Some p ->
  generateResponse_poll i r turns s = Some (set_frame i (GWait r turns) s).
Proof.
  intros H. unfold generateResponse_poll. by rewrite (size_pos_lookup _ _ _ H).
Qed.

Lemma poll_resumes i r turns s res c :
  _pendingApprovals (mgr s) = ∅ ->
  heap s !! r = Some res ->
  _controller (mgr s) = Some c ->
  generateResponse_poll i r turns s =
    Some (set_frame i (GAwaitRun turns)
            (invoke {| rc_runner := _runner (mgr s);
                       rc_agent := _agent (mgr s);
                       rc_input := FromState (state res);
                       rc_signal := c;
                       rc_maxTurns := Some turns |} s)).
Proof.
  intros Hp Hh Hc. unfold generateResponse_poll.
  rewrite Hp, Hh, Hc. done.
Qed.

(** X11: a run that settles with one interruption, asked for while nothing
    else is pending: the call waits; the approval or the rejection of the
    id of the event empties the pending set, and at its next poll the call
    resumes the run from the state of its result, in which that one
    verdict on the interruption has been recorded. *)
Theorem single_approval_round_trip s i r turns loc res item hist c verdict :
  frames s !! i = Some (GStream r turns loc) ->
  heap s !! r = Some res ->
  _pendingApprovals (mgr s) = ∅ ->
  _controller (mgr s) = Some c ->
  let id := fresh_id X "int-" (draws s) in
  exists s1 s3,
    step X s (StreamEnd i [item] hist) = Some s1 /\
    frames s1 !! i = Some (GWait r turns) /\
    step X (if verdict : bool then approveToolCall id s1 else rejectToolCall id s1)
      (Tick i) = Some s3 /\
    frames s3 !! i = Some (GAwaitRun turns) /\
    _pendingApprovals (mgr s3) = ∅ /\
    out s3 = out s1 /\
    runs s3 =
      runs s ++
      [{| rc_runner := _runner (mgr s);
          rc_agent := _agent (mgr s);
          rc_input :=
            FromState {| snapshot := snapshot (state res);
                         verdicts := verdicts (state res) ++ [(item, verdict)] |};
          rc_signal := c;
          rc_maxTurns := Some turns |}].
Proof.
  intros Hf Hh Hp Hc id.
  assert (i < length (frames s)) as Hi by (apply lookup_lt_is_Some; eauto).
  assert (r < length (heap s)) as Hr by (apply lookup_lt_is_Some; eauto).
  cbn [step]. rewrite Hf. unfold generateResponse_settled. rewrite Hh.
  cbn [mbind option_bind length Nat.ltb Nat.leb].
  set (s0 := on_mgr (set_interruptedState (Some r)) _).
  destruct (single_approval_frame X item s0) as [_ Hreg].
  change (draws s0) with (draws s) in Hreg. fold id in Hreg.
  rewrite (poll_waits i r turns _ id _ Hreg).
  set (s1 := set_frame i (GWait r turns) (_handleSingleToolApproval X item s0)).
  exists s1.
  assert (_pendingApprovals (mgr s1) !! id =
          Some {| interruption := item; approved := None; groupId := None |})
    as Hreg1 by exact Hreg.
  pose proof (verdict_effect id _ verdict s1 Hreg1) as Hv. simpl in Hv.
  rewrite Hv. clear Hv.
  set (s2 := resolve_pending id _ verdict _).
  assert (frames s2 !! i = Some (GWait r turns)) as Hf2.
  { subst s2. unfold resolve_pending.
    change (frames (on_mgr _ ?t)) with (frames t).
    rewrite (proj1 (proj2 (proj2 (record_verdict_frame _ _ _)))).
    subst s1. unfold set_frame; simpl. by apply list_lookup_insert_eq. }
  assert (_pendingApprovals (mgr s2) = ∅) as Hp2.
  { subst s2. unfold resolve_pending. simpl.
    rewrite (proj1 (record_verdict_frame _ _ _)).
    subst s1 s0. unfold _handleSingleToolApproval, register. simpl.
    rewrite Hp. rewrite delete_insert_eq, delete_insert_eq. apply delete_empty. }
  assert (heap s2 !! r =
          Some {| state := {| snapshot := snapshot (state res);
                              verdicts := verdicts (state res) ++ [(item, verdict)] |};
                  interruptions := [item];
                  history := hist |}) as Hh2.
  { subst s2. unfold resolve_pending, record_verdict. simpl.
    rewrite list_lookup_insert_eq by done. simpl.
    apply list_lookup_insert_eq. by rewrite length_insert. }
  assert (_controller (mgr s2) = Some c) as Hc2.
  { subst s2. unfold resolve_pending. simpl.
    by rewrite (proj1 (record_verdict_frame _ _ _)). }
  eexists. split; [reflexivity|].
  split; [subst s1; unfold set_frame; simpl; by apply list_lookup_insert_eq|].
  cbn [step]. rewrite Hf2.
  split; [exact (poll_resumes i r turns s2 _ c Hp2 Hh2 Hc2)|].
  split.
  { unfold set_frame. simpl. apply list_lookup_insert_eq.
    apply lookup_lt_is_Some. by eexists. }
  split; [exact Hp2|].
  split.
  { subst s2. unfold resolve_pending. simpl.
    by rewrite (proj1 (proj2 (record_verdict_frame _ _ _))). }
  subst s2. unfold resolve_pending. simpl.
  rewrite (proj1 (record_verdict_frame _ _ _)).
  by rewrite (proj1 (proj2 (proj2 (proj2 (record_verdict_frame _ _ _))))).
Qed.

Lemma register_group_lookup group items s :
  (forall a b, fresh_id X "int-" a = fresh_id X "int-" b -> a = b) ->
  let t := (register_group X group items s).2 in
  (forall k item,
      items !! k = Some item ->
      _pendingApprovals (mgr t) !! fresh_id X "int-" (draws s + k) =
        Some {| interruption := item; approved := None; groupId := Some group |}) /\
  (forall id,
      (forall k, k < length items -> id <> fresh_id X "int-" (draws s + k)) ->
      _pendingApprovals (mgr t) !! id = _pendingApprovals (mgr s) !! id) /\
  _interruptedState (mgr t) = _interruptedState (mgr s) /\
  _runner (mgr t) = _runner (mgr s) /\
  _agent (mgr t) = _agent (mgr s).
Proof.
  intros J. revert s. induction items as [|x rest IH]; intros s; simpl.
  - repeat split; done.
  - set (s1 := register _ _ _).
    specialize (IH s1). simpl in IH.
    destruct (register_group X group rest s1) as [approvals s2]; simpl in *.
    destruct IH as (L & O & -> & -> & ->).
    assert (draws s1 = S (draws s)) as Hd by done.
    split; [|split; [|done]].
    + intros [|k] item Hk.
      * injection Hk as ->. rewrite Nat.add_0_r, O.
        -- subst s1. unfold register. simpl. apply lookup_insert_eq.
        -- intros k Hlt E. apply J in E. lia.
      * simpl in Hk. specialize (L k item Hk).
        by replace (draws s + S k) with (S (draws s + k)) by lia.
    + intros id Hid. rewrite O.
      * subst s1. unfold register. simpl. apply lookup_insert_ne.
        intros E. apply (Hid 0); [lia|]. by rewrite Nat.add_0_r.
      * intros k Hlt.
        replace (S (draws s + k)) with (draws s + S k) by lia.
        apply Hid. lia.
Qed.

Lemma grouped_resolves verdict group ids :
  forall items s r res,
    length ids = length items -> NoDup ids ->
    (forall k id item,
        ids !! k = Some id -> items !! k = Some item ->
        _pendingApprovals (mgr s) !! id =
          Some {| interruption := item; approved := None; groupId := Some group |}) ->
    _interruptedState (mgr s) = Some r -> heap s !! r = Some res ->
    let s' := if verdict : bool then approveGroupedToolCalls group ids s
              else rejectGroupedToolCalls group ids s in
    (forall id,
        _pendingApprovals (mgr s') !! id =
          if bool_decide (id ∈ ids) then None
          else _pendingApprovals (mgr s) !! id) /\
    heap s' =
      <[r := {| state :=
                  {| snapshot := snapshot (state res);
                     verdicts := verdicts (state res)
                                 ++ verdicts_on verdict items |};
                interruptions := interruptions res;
                history := history res |}]> (heap s) /\
    _runner (mgr s') = _runner (mgr s) /\
    _agent (mgr s') = _agent (mgr s) /\
    _controller (mgr s') = _controller (mgr s) /\
    frames s' = frames s /\ out s' = out s /\ runs s' = runs s.
Proof.
  induction ids as [|id rest IH]; intros items s r res Hlen Hnd Hall Hi Hh.
  - destruct items; [|done].
    assert ((if verdict then approveGroupedToolCalls group [] s
             else rejectGroupedToolCalls group [] s) = s) as -> by (by destruct verdict).
    split; [done|]. split; [|done].
    unfold verdicts_on. simpl. rewrite app_nil_r.
    symmetry. apply list_insert_id. rewrite Hh. f_equal.
    by destruct res as [[snap v] ints h].
  - destruct items as [|item items]; [done|].
    injection Hlen as Hlen. apply NoDup_cons in Hnd as [Hnotin Hnd].
    pose proof (Hall 0 id item eq_refl eq_refl) as H0.
    set (s1 := resolve_pending id
                 {| interruption := item; approved := None; groupId := Some group |}
                 verdict (record_verdict item verdict s)).
    assert ((if verdict then approveGroupedToolCalls group (id :: rest) s
             else rejectGroupedToolCalls group (id :: rest) s)
            = (if verdict then approveGroupedToolCalls group rest s1
               else rejectGroupedToolCalls group rest s1)) as ->.
    { destruct verdict; simpl; rewrite H0; simpl;
        by rewrite bool_decide_eq_true_2. }
    set (res1 := {| state :=
                      {| snapshot := snapshot (state res);
                         verdicts := verdicts (state res) ++ [(item, verdict)] |};
                    interruptions := interruptions res;
                    history := history res |}).
    assert (r < length (heap s)) as Hr by (apply lookup_lt_is_Some; eauto).
    assert (heap s1 = <[r := res1]> (heap s)) as Hheap.
    { subst s1. unfold resolve_pending, record_verdict. simpl.
      by rewrite Hi, Hh. }
    assert (mgr (record_verdict item verdict s) = mgr s) as Hm
      by apply record_verdict_frame.
    assert (forall x, _pendingApprovals (mgr s1) !! x =
                      if bool_decide (x = id) then None
                      else _pendingApprovals (mgr s) !! x) as Hp1.
    { intros x. subst s1. unfold resolve_pending. simpl. rewrite Hm.
      case_bool_decide as E.
      - subst x. apply lookup_delete_eq.
      - by rewrite lookup_delete_ne, lookup_insert_ne. }
    destruct (IH items s1 r res1) as (P & H & R & A & C & F & O & U).
    + done.
    + done.
    + intros k id' item' Hk Hk'. rewrite Hp1.
      rewrite bool_decide_eq_false_2.
      * by apply (Hall (S k)).
      * intros ->. apply Hnotin. by apply list_elem_of_lookup_2 in Hk.
    + subst s1. unfold resolve_pending. simpl. by rewrite Hm.
    + rewrite Hheap. by apply list_lookup_insert_eq.
    + split; [|split].
      * intros x. rewrite P, Hp1.
        destruct (decide (x = id)) as [->|Hne].
        -- rewrite (bool_decide_eq_true_2 (id = id)) by done.
           rewrite (bool_decide_eq_true_2 (id ∈ id :: rest)) by (by left).
           by destruct (bool_decide _).
        -- rewrite (bool_decide_eq_false_2 (x = id)) by done.
           assert (bool_decide (x ∈ id :: rest) = bool_decide (x ∈ rest)) as ->;
             [|done].
           apply bool_decide_ext. rewrite elem_of_cons. tauto.
      * rewrite H, Hheap, list_insert_insert_eq. subst res1. simpl.
        unfold verdicts_on. simpl. by rewrite <- app_assoc.
      * rewrite R, A, C, F, O, U. subst s1. unfold resolve_pending. simpl.
        rewrite Hm.
        destruct (record_verdict_frame item verdict s)
          as (_ & -> & -> & -> & _). done.
Qed.

(** X12: a run that settles with several interruptions, asked for while
    nothing else is pending and with interruption ids that are pairwise
    distinct: the call waits; [approveGroupedToolCalls] (or
    [rejectGroupedToolCalls]) with the group id and the interruption ids of
    the event empties the pending set, and at its next poll the call
    resumes the run from the state of its result, in which the verdict has
    been recorded on every interruption, in the order of the batch. *)
Theorem grouped_approval_round_trip s i r turns loc res ints hist c verdict :
  (forall a b, fresh_id X "int-" a = fresh_id X "int-" b -> a = b) ->
  frames s !! i = Some (GStream r turns loc) ->
  heap s !! r = Some res ->
  _pendingApprovals (mgr s) = ∅ ->
  _controller (mgr s) = Some c ->
  1 < length ints ->
  let group := fresh_id X "group-" (draws s) in
  let approvals := imap (fun k => approval_entry X (S (draws s) + k)) ints in
  let ids := interruption_ids approvals in
  exists s1 s3,
    step X s (StreamEnd i ints hist) = Some s1 /\
    out s1 = out s ++ [AgentEvent (grouped_approval_required group approvals)] /\
    frames s1 !! i = Some (GWait r turns) /\
    step X (if verdict : bool then approveGroupedToolCalls group ids s1
            else rejectGroupedToolCalls group ids s1) (Tick i) = Some s3 /\
    frames s3 !! i = Some (GAwaitRun turns) /\
    _pendingApprovals (mgr s3) = ∅ /\
    out s3 = out s1 /\
    runs s3 =
      runs s ++
      [{| rc_runner := _runner (mgr s);
          rc_agent := _agent (mgr s);
          rc_input :=
            FromState {| snapshot := snapshot (state res);
                         verdicts := verdicts (state res)
                                     ++ verdicts_on verdict ints |};
          rc_signal := c;
          rc_maxTurns := Some turns |}].
Proof.
  intros J Hf Hh Hp Hc Hn group approvals ids.
  assert (i < length (frames s)) as Hi by (apply lookup_lt_is_Some; eauto).
  assert (r < length (heap s)) as Hr by (apply lookup_lt_is_Some; eauto).
  assert (exists item, ints !! 0 = Some item) as [item0 Hitem0].
  { destruct ints; [simpl in Hn; lia | by eexists]. }
  cbn [step]. rewrite Hf. unfold generateResponse_settled. rewrite Hh.
  cbn [mbind option_bind].
  assert ((0 <? length ints) = true) as -> by (apply Nat.ltb_lt; lia).
  assert ((1 <? length ints) = true) as -> by (by apply Nat.ltb_lt).
  set (s0 := on_mgr (set_interruptedState (Some r)) _).
  (* the registration *)
  unfold _handleGroupedToolApprovals.
  pose proof (register_group_frame X group ints (bump s0)) as F.
  pose proof (register_group_lookup group ints (bump s0) J) as L.
  change (fresh_id X "group-" (draws s0)) with group.
  destruct (register_group X group ints (bump s0)) as [approvals' t] eqn:R.
  cbv beta iota. simpl in F, L.
  destruct F as (Fo & Fh & Ff & Fr & Fs & Fd & Fc & Fhi & Fu & ->).
  destruct L as (L1 & L2 & Li & Lr & La).
  change (imap (fun k => approval_entry X (S (draws s + k))) ints) with approvals.
  set (s1 := set_frame i (GWait r turns)
               (emit (AgentEvent (grouped_approval_required group approvals)) t)).
  assert (generateResponse_poll i r turns
            (emit (AgentEvent (grouped_approval_required group approvals)) t)
          = Some s1) as ->.
  { eapply (poll_waits i r turns _ (fresh_id X "int-" (S (draws s + 0)))).
    exact (L1 0 item0 Hitem0). }
  exists s1.
  (* the ids of the event *)
  assert (forall k id, ids !! k = Some id ->
            id = fresh_id X "int-" (S (draws s) + k) /\ k < length ints) as Hids.
  { intros k id. unfold ids, interruption_ids, approvals.
    rewrite list_lookup_fmap, list_lookup_imap.
    destruct (ints !! k) as [item|] eqn:E; [|done].
    simpl. intros [= <-]. split; [done|].
    apply lookup_lt_is_Some. by eexists. }
  assert (length ids = length ints) as Hlen.
  { unfold ids, interruption_ids, approvals. by rewrite length_fmap, length_imap. }
  assert (NoDup ids) as Hnd.
  { apply NoDup_alt. intros a b id Ha Hb.
    destruct (Hids a id Ha) as [Ea _]. destruct (Hids b id Hb) as [Eb _].
    rewrite Ea in Eb. apply J in Eb. lia. }
  set (res1 := {| state := state res; interruptions := ints; history := hist |}).
  assert (heap s1 !! r = Some res1) as Hh1.
  { subst s1. unfold set_frame, emit. simpl. rewrite Fh. subst s0. simpl.
    by apply list_lookup_insert_eq. }
  destruct (grouped_resolves verdict group ids ints s1 r res1 Hlen Hnd)
    as (P & H & Rn & A & C & Fm & O & U).
  { intros k id item Hk Hitem. destruct (Hids k id Hk) as [-> _].
    exact (L1 k item Hitem). }
  { subst s1. unfold set_frame, emit. simpl. by rewrite Li. }
  { exact Hh1. }
  set (s2 := if verdict then approveGroupedToolCalls group ids s1
             else rejectGroupedToolCalls group ids s1) in *.
  assert (_pendingApprovals (mgr s2) = ∅) as Hp2.
  { apply map_eq. intros id. rewrite P, lookup_empty.
    case_bool_decide as E; [done|].
    subst s1. unfold set_frame, emit. simpl. rewrite L2.
    - subst s0. simpl. by rewrite Hp.
    - intros k Hk ->. apply E.
      apply (list_elem_of_lookup_2 _ k). unfold ids, interruption_ids, approvals.
      rewrite list_lookup_fmap, list_lookup_imap.
      destruct (ints !! k) as [item|] eqn:Ek; [done|].
      apply lookup_ge_None in Ek. lia. }
  assert (frames s2 !! i = Some (GWait r turns)) as Hf2.
  { rewrite Fm. subst s1. unfold set_frame. simpl. apply list_lookup_insert_eq.
    by rewrite Ff. }
  assert (heap s2 !! r =
          Some {| state :=
                    {| snapshot := snapshot (state res);
                       verdicts := verdicts (state res) ++ verdicts_on verdict ints |};
                  interruptions := ints;
                  history := hist |}) as Hh2.
  { rewrite H. apply list_lookup_insert_eq. apply lookup_lt_is_Some. by eexists. }
  assert (_controller (mgr s2) = Some c) as Hc2.
  { rewrite C. subst s1. unfold set_frame, emit. simpl. by rewrite Fc. }
  eexists. split; [reflexivity|].
  split; [subst s1; unfold set_frame, emit; simpl; by rewrite Fo|].
  split.
  { subst s1. unfold set_frame. simpl. apply list_lookup_insert_eq.
    by rewrite Ff. }
  cbn [step]. rewrite Hf2.
  split; [exact (poll_resumes i r turns s2 _ c Hp2 Hh2 Hc2)|].
  split.
  { unfold set_frame. simpl. apply list_lookup_insert_eq.
    apply lookup_lt_is_Some. by eexists. }
  split; [exact Hp2|]. split; [exact O|].
  unfold set_frame, invoke. simpl. rewrite U, Rn, A.
  subst s1. unfold set_frame, emit. simpl. by rewrite Fr, Lr, La.
Qed.

(** ** What holds at any time *)

Lemma count_snoc {A} (p : A -> bool) l x :
  count p (l ++ [x]) = count p l + (if p x then 1 else 0).
Proof. induction l as [|y l IH]; simpl; [lia | rewrite IH; lia]. Qed.

Lemma count_insert {A} (p : A -> bool) l i x y :
  l !! i = Some x ->
  count p (<[i := y]> l) + (if p x then 1 else 0) =
  count p l + (if p y then 1 else 0).
Proof.
  revert i. induction l as [|z l IH]; intros [|i] H; try done; simpl in *.
  - injection H as ->. lia.
  - specialize (IH i H). lia.
Qed.

Lemma quiet_insert (l : list Frame) i y :
  i < length l -> forallb is_quiet (<[i := y]> l) = true -> is_quiet y = true.
Proof.
  intros Hi H. apply (quiet_frames _ i y H). by apply list_lookup_insert_eq.
Qed.

Lemma quiet_insert_back (l : list Frame) i x y :
  l !! i = Some x -> is_quiet x = true ->
  forallb is_quiet (<[i := y]> l) = true -> forallb is_quiet l = true.
Proof.
  revert i. induction l as [|z l IH]; intros [|i] H Hx; try done; simpl in *.
  - injection H as ->. rewrite Hx. by intros [_ ->]%andb_true_iff.
  - intros [-> Hl]%andb_true_iff. simpl. by apply (IH i).
Qed.

Lemma quiet_snoc (l : list Frame) x :
  forallb is_quiet (l ++ [x]) = true ->
  forallb is_quiet l = true /\ is_quiet x = true.
Proof.
  rewrite forallb_app. simpl. rewrite andb_true_r. apply andb_true_iff.
Qed.

Lemma insert_snoc {A} (l : list A) x y : <[length l := y]> (l ++ [x]) = l ++ [y].
Proof.
  rewrite insert_app_r_alt by done. by rewrite Nat.sub_diag.
Qed.

Lemma last_user (h : list AgentInputItem) msg agent runner signal turns :
  well_invoked {| rc_runner := runner; rc_agent := Some agent;
                  rc_input := FromHistory (h ++ [user msg]);
                  rc_signal := signal; rc_maxTurns := turns |} = true.
Proof. unfold well_invoked. simpl. by rewrite last_snoc. Qed.

Lemma catch_moved i e s : frame_moved i s (generateResponse_catch i e s).
Proof. exists Settled. repeat split; auto. Qed.

Lemma run_moved i msg s : frame_moved i s (generateResponse_run i msg s).
Proof.
  unfold generateResponse_run.
  destruct (_agent (mgr s)) as [agent|]; [|apply catch_moved].
  simpl. destruct (_controller (mgr s)) as [c|].
  - eexists (GAwaitRun _). repeat split; try done.
    right. eexists. split; [reflexivity|]. apply last_user.
  - exists Settled. repeat split; auto.
Qed.

Lemma poll_moved i r turns s s' :
  generateResponse_poll i r turns s = Some s' -> frame_moved i s s'.
Proof.
  unfold generateResponse_poll. destruct (0 <? size _).
  - intros [= <-]. exists (GWait r turns). repeat split; auto; done.
  - destruct (heap s !! r) as [res|]; [simpl|done].
    destruct (_controller (mgr s)) as [c|]; intros [= <-].
    + exists (GAwaitRun turns). repeat split; try done.
      right. by eexists.
    + apply catch_moved.
Qed.

Lemma register_group_flag group items s :
  _isInitializing (mgr (register_group X group items s).2) = _isInitializing (mgr s).
Proof.
  revert s. induction items as [|item rest IH]; intros s; simpl; [done|].
  set (s1 := register _ _ _). specialize (IH s1).
  destruct (register_group X group rest s1) as [approvals s2]. simpl in *.
  by rewrite IH.
Qed.

Lemma moved_after i s t s' :
  frames t = frames s -> _isInitializing (mgr t) = _isInitializing (mgr s) ->
  runs t = runs s -> frame_moved i t s' -> frame_moved i s s'.
Proof.
  intros Hf Hi Hr (f' & F & I & G & C & R). exists f'.
  rewrite <- Hf, <- Hi, <- Hr. done.
Qed.

Lemma settled_moved i r turns ints hist s s' :
  generateResponse_settled X i r turns ints hist s = Some s' -> frame_moved i s s'.
Proof.
  unfold generateResponse_settled.
  destruct (heap s !! r) as [res|]; [|done]. cbn [mbind option_bind].
  destruct (0 <? length ints).
  - intros H. apply poll_moved in H. revert H. apply moved_after.
    + destruct (1 <? length ints).
      * unfold _handleGroupedToolApprovals.
        match goal with
        | |- context [register_group X ?g ints ?t] =>
            pose proof (register_group_frame X g ints t) as F;
            destruct (register_group X g ints t) as [approvals t1]
        end.
        simpl in F |- *. by destruct F as (_ & _ & F & _).
      * by destruct ints.
    + destruct (1 <? length ints).
      * unfold _handleGroupedToolApprovals.
        match goal with
        | |- context [register_group X ?g ints ?t] =>
            pose proof (register_group_flag g ints t) as F;
            destruct (register_group X g ints t) as [approvals t1]
        end.
        simpl in F |- *. exact F.
      * by destruct ints.
    + destruct (1 <? length ints).
      * unfold _handleGroupedToolApprovals.
        match goal with
        | |- context [register_group X ?g ints ?t] =>
            pose proof (register_group_frame X g ints t) as F;
            destruct (register_group X g ints t) as [approvals t1]
        end.
        simpl in F |- *. by destruct F as (_ & _ & _ & F & _).
      * by destruct ints.
  - intros [= <-]. exists Settled. repeat split; auto.
Qed.

Lemma process_item_flag ev loc s :
  _isInitializing (mgr (process_item X ev loc s).2) = _isInitializing (mgr s) /\
  runs (process_item X ev loc s).2 = runs s /\
  _controller (mgr (process_item X ev loc s).2) = _controller (mgr s).
Proof.
  destruct ev as [[| delta | usage | [id name input | ty] | ty] | name item | ty];
    simpl; try done.
  - by destruct (currentMessageId loc).
  - by destruct (currentMessageId loc).
  - by destruct (String.eqb name "tool_output").
Qed.

(** A transition by which call [i] goes on keeps [sound]. *)
Lemma moved_sound_from i f s s' :
  frames s !! i = Some f -> is_initializing f = false ->
  frame_moved i s s' ->
  count is_initializing (frames s) = (if _isInitializing (mgr s) then 1 else 0) ->
  forallb well_invoked (runs s) = true ->
  sound s'.
Proof.
  intros Hf Hn (f' & F & I & G & C & R) S1 S3.
  assert (i < length (frames s)) as Hi by (apply lookup_lt_is_Some; eauto).
  split; [|split].
  - rewrite F, G. pose proof (count_insert is_initializing _ i f f' Hf) as E.
    rewrite Hn, I in E. lia.
  - rewrite F. intros Q. apply C. by apply (quiet_insert (frames s) i).
  - destruct R as [-> | (call & -> & W)]; [done|].
    rewrite forallb_app, S3. simpl. by rewrite W.
Qed.

Lemma moved_sound i f s s' :
  frames s !! i = Some f -> is_initializing f = false ->
  frame_moved i s s' -> sound s -> sound s'.
Proof.
  intros Hf Hn M (S1 & _ & S3). by apply (moved_sound_from i f s).
Qed.

(** A transition that leaves the calls in flight, the flag and the runs as
    they are, and a null controller null, keeps [sound]. *)
Lemma same_sound s s' :
  frames s' = frames s -> _isInitializing (mgr s') = _isInitializing (mgr s) ->
  runs s' = runs s ->
  (_controller (mgr s) = None -> _controller (mgr s') = None) ->
  sound s -> sound s'.
Proof.
  intros F I R C (S1 & S2 & S3). unfold sound. rewrite F, I, R. auto.
Qed.

(** An initialisation that begins. *)
Lemma begin_sound mcpServers s :
  sound s ->
  let r := initializeAgent_begin mcpServers s in
  (r.1 = false -> r.2 = s) /\
  (r.1 = true ->
   _isInitializing (mgr s) = false /\ _isInitializing (mgr r.2) = true /\
   frames r.2 = frames s /\ runs r.2 = runs s /\
   _controller (mgr r.2) = _controller (mgr s) /\ _agent (mgr r.2) = _agent (mgr s)).
Proof.
  intros _. unfold initializeAgent_begin.
  destruct (_isInitializing (mgr s)) eqn:I; simpl; [done|].
  split; [done|]. intros _. by destruct mcpServers.
Qed.

Lemma started_sound s t :
  sound s -> _isInitializing (mgr s) = false -> _isInitializing (mgr t) = true ->
  frames t = frames s ++ [IInit] -> runs t = runs s ->
  _controller (mgr t) = _controller (mgr s) -> sound t.
Proof.
  intros (S1 & S2 & S3) I0 I1 F R C. unfold sound.
  rewrite F, R, I1, C, count_snoc, S1, I0. simpl.
  split; [done|]. split; [|done].
  intros Q. apply quiet_snoc in Q as [Q _]. auto.
Qed.

Lemma finish_flag s :
  let s' := initializeAgent_finish X s in
  frames s' = frames s /\ runs s' = runs s /\
  _controller (mgr s') = _controller (mgr s) /\
  _isInitializing (mgr s') = false.
Proof.
  destruct (initializeAgent_finish_frame X s) as (_ & F & R & _ & _ & _ & _ & C & _).
  destruct (finish_cases s) as (I & _). done.
Qed.

Lemma grouped_flag verdict group ids s :
  let s' := if verdict : bool then approveGroupedToolCalls group ids s
            else rejectGroupedToolCalls group ids s in
  _isInitializing (mgr s') = _isInitializing (mgr s).
Proof.
  revert s. induction ids as [|id rest IH]; intros s; destruct verdict; simpl;
    try done; rewrite IH;
    (destruct (_pendingApprovals (mgr s) !! id) as [p|]; [|done]);
    (destruct (bool_decide _); [|done]);
    unfold resolve_pending; simpl;
    by rewrite (proj1 (record_verdict_frame _ _ _)).
Qed.

Lemma sound_step s a s' : step X s a = Some s' -> sound s -> sound s'.
Proof.
  intros H S.
  destruct a as [msg | mcpServers | toolNames | id | id | group ids | group ids
                | | | i | i snap | i e | i ev | i ints hist | i e | i];
    simpl in H.
  - (* generateResponse *)
    injection H as <-. unfold generateResponse.
    set (s1 := with_frames _ _).
    assert (sound1 : count is_initializing (frames s1)
                     = (if _isInitializing (mgr s1) then 1 else 0) /\
                     forallb well_invoked (runs s1) = true).
    { destruct S as (S1 & _ & S3). subst s1. simpl.
      rewrite count_snoc, S1. simpl. split; [lia|done]. }
    assert (frames s1 !! length (frames s) = Some Settled) as Hl.
    { subst s1. simpl. rewrite lookup_app_r by done. by rewrite Nat.sub_diag. }
    destruct (_agent (mgr s1)) as [agent|].
    + destruct sound1 as [C1 C3].
      by apply (moved_sound_from (length (frames s)) Settled s1 _ Hl eq_refl
                  (run_moved _ msg s1)).
    + destruct sound1 as [C1 C3].
      unfold initializeAgent_begin.
      destruct (_isInitializing (mgr s1)) eqn:I; unfold set_frame; simpl.
      * rewrite insert_snoc. unfold sound. simpl.
        change (_isInitializing (mgr s)) with (_isInitializing (mgr s1)).
        rewrite I, count_snoc. simpl.
        destruct S as (S1 & _ & S3).
        change (_isInitializing (mgr s)) with (_isInitializing (mgr s1)) in S1.
        rewrite I in S1. rewrite S1. split; [lia|]. split; [|done].
        intros Q. by apply quiet_snoc in Q as [_ Q].
      * rewrite insert_snoc. unfold sound. simpl.
        rewrite count_snoc. simpl.
        destruct S as (S1 & _ & S3).
        change (_isInitializing (mgr s)) with (_isInitializing (mgr s1)) in S1.
        rewrite I in S1. rewrite S1. split; [lia|]. split; [|done].
        intros Q. by apply quiet_snoc in Q as [_ Q].
  - (* initializeAgent *)
    injection H as <-. unfold initializeAgent.
    destruct (begin_sound mcpServers s S) as [B0 B1].
    destruct (initializeAgent_begin mcpServers s) as [[|] t]; simpl in *.
    + destruct (B1 eq_refl) as (I0 & I1 & F & R & C & _).
      apply (started_sound s); try done. simpl. by rewrite F.
    + by rewrite (B0 eq_refl).
  - (* setSelectedTools *)
    injection H as <-. unfold setSelectedTools.
    set (s1 := on_mgr _ s).
    assert (sound s1) as S1 by (by apply (same_sound s)).
    destruct (begin_sound None s1 S1) as [B0 B1].
    destruct (initializeAgent_begin None s1) as [[|] t]; simpl in *.
    + destruct (B1 eq_refl) as (I0 & I1 & F & R & C & _).
      apply (started_sound s1); try done. simpl. by rewrite F.
    + by rewrite (B0 eq_refl).
  - (* approve *)
    injection H as <-.
    destruct (resolve_usage id true s) as (_ & _ & _ & F & R & _).
    simpl in F, R. apply (same_sound s); try done.
    + unfold approveToolCall. destruct (_pendingApprovals (mgr s) !! _); [|done].
      unfold resolve_pending. simpl.
      by rewrite (proj1 (record_verdict_frame _ _ _)).
    + unfold approveToolCall. destruct (_pendingApprovals (mgr s) !! _); [|done].
      unfold resolve_pending. simpl.
      by rewrite (proj1 (record_verdict_frame _ _ _)).
  - (* reject *)
    injection H as <-.
    destruct (resolve_usage id false s) as (_ & _ & _ & F & R & _).
    simpl in F, R. apply (same_sound s); try done.
    + unfold rejectToolCall. destruct (_pendingApprovals (mgr s) !! _); [|done].
      unfold resolve_pending. simpl.
      by rewrite (proj1 (record_verdict_frame _ _ _)).
    + unfold rejectToolCall. destruct (_pendingApprovals (mgr s) !! _); [|done].
      unfold resolve_pending. simpl.
      by rewrite (proj1 (record_verdict_frame _ _ _)).
  - (* approve, grouped *)
    injection H as <-.
    destruct (grouped_usage true group ids s)
      as (_ & _ & _ & F & R & C & _).
    pose proof (grouped_flag true group ids s) as I.
    simpl in *. apply (same_sound s); try done. by rewrite C.
  - (* reject, grouped *)
    injection H as <-.
    destruct (grouped_usage false group ids s)
      as (_ & _ & _ & F & R & C & _).
    pose proof (grouped_flag false group ids s) as I.
    simpl in *. apply (same_sound s); try done. by rewrite C.
  - (* clearHistory *)
    injection H as <-. by apply (same_sound s).
  - (* stopStreaming *)
    injection H as <-. unfold stopStreaming.
    destruct (_controller (mgr s)) eqn:C; [|done].
    apply (same_sound s); try done. simpl. by rewrite C.
  - (* the model is there, or not *)
    destruct (frames s !! i) as [[started msg| | | | |]|] eqn:Hf; try done;
      injection H as <-.
    + destruct started.
      * destruct (finish_flag s) as (F & R & C & I).
        pose proof (run_moved i msg (initializeAgent_finish X s))
          as (f' & F' & I' & G' & C' & R').
        destruct S as (S1 & S2 & S3).
        assert (i < length (frames s)) as Hi by (apply lookup_lt_is_Some; eauto).
        pose proof (count_insert is_initializing _ i _ f' Hf) as E.
        simpl in E. rewrite I' in E.
        split; [|split].
        -- rewrite F', G', I, F. destruct (_isInitializing (mgr s)); lia.
        -- rewrite F', F. intros Q. apply C'. by apply (quiet_insert (frames s) i).
        -- destruct R' as [-> | (call & -> & W)]; rewrite R; [done|].
           rewrite forallb_app, S3. simpl. by rewrite W.
      * by apply (moved_sound i (GInit false msg) s _ Hf eq_refl (run_moved i msg s)).
    + destruct (finish_flag s) as (F & R & C & I).
      destruct S as (S1 & S2 & S3).
      pose proof (count_insert is_initializing _ i _ Settled Hf) as E.
      simpl in E. set (t := initializeAgent_finish X s) in *. unfold sound.
      change (frames (set_frame i Settled t)) with (<[i:=Settled]> (frames t)).
      change (mgr (set_frame i Settled t)) with (mgr t).
      change (runs (set_frame i Settled t)) with (runs t).
      rewrite F, R, I, C. split; [|split; [|done]].
      * destruct (_isInitializing (mgr s)); lia.
      * intros Q. apply S2. by apply (quiet_insert_back (frames s) i IInit Settled).
  - (* the run has started *)
    destruct (frames s !! i) as [[| turns | | | |]|] eqn:Hf; try done;
      injection H as <-.
    apply (moved_sound i _ s _ Hf eq_refl); [|done].
    eexists (GStream _ _ _). repeat split; auto; done.
  - (* the run has failed *)
    destruct (frames s !! i) as [[| turns | | | |]|] eqn:Hf; try done;
      injection H as <-.
    by apply (moved_sound i _ s _ Hf eq_refl (catch_moved i e s)).
  - (* an item of the stream *)
    destruct (frames s !! i) as [[| | r turns loc | | |]|] eqn:Hf; try done.
    pose proof (process_item_frames X ev loc s) as F.
    destruct (process_item_flag ev loc s) as (I & R & C).
    destruct (process_item X ev loc s) as [loc1 s1]. simpl in *.
    injection H as <-.
    apply (moved_sound i _ s _ Hf eq_refl); [|done].
    eexists (GStream _ _ _). unfold set_frame. simpl. rewrite F.
    repeat split; auto; done.
  - (* the end of the stream *)
    destruct (frames s !! i) as [[| | r turns loc | | |]|] eqn:Hf; try done.
    by apply (moved_sound i _ s _ Hf eq_refl (settled_moved _ _ _ _ _ _ _ H)).
  - (* the stream throws *)
    destruct (frames s !! i) as [[| | r turns loc | | |]|] eqn:Hf; try done;
      injection H as <-.
    by apply (moved_sound i _ s _ Hf eq_refl (catch_moved i e s)).
  - (* the timer *)
    destruct (frames s !! i) as [[| | | r turns | |]|] eqn:Hf; try done.
    by apply (moved_sound i _ s _ Hf eq_refl (poll_moved _ _ _ _ _ H)).
Qed.

Lemma sound_exec s acts s' : exec X s acts = Some s' -> sound s -> sound s'.
Proof.
  revert s. induction acts as [|a rest IH]; intros s H S.
  - by injection H as <-.
  - simpl in H. destruct (step X s a) as [s1|] eqn:E; [|done].
    apply (IH s1 H). by apply (sound_step s a).
Qed.

Lemma sound_new options : sound (new_AgentManager options).
Proof. by repeat split. Qed.

Lemma count_pos {A} (p : A -> bool) l :
  0 < count p l <-> exists i x, l !! i = Some x /\ p x = true.
Proof.
  induction l as [|y l IH]; simpl.
  - split; [lia | by intros (i & x & ? & _)].
  - destruct (p y) eqn:E.
    + split; [|lia]. intros _. by exists 0, y.
    + simpl. rewrite IH. split.
      * intros (i & x & H & Hx). by exists (S i), x.
      * intros ([|i] & x & H & Hx); simpl in H.
        -- injection H as ->. congruence.
        -- by exists i, x.
Qed.

Lemma count_one {A} (p : A -> bool) l i j x y :
  count p l <= 1 ->
  l !! i = Some x -> p x = true -> l !! j = Some y -> p y = true -> i = j.
Proof.
  revert i j. induction l as [|z l IH]; intros i j Hc Hi Hx Hj Hy; [done|].
  simpl in Hc.
  assert (forall k w, l !! k = Some w -> p w = true -> 0 < count p l) as Pos.
  { intros k w Hk Hw. apply count_pos. by exists k, w. }
  destruct i as [|i], j as [|j]; simpl in *; try done.
  - injection Hi as ->. rewrite Hx in Hc. specialize (Pos j y Hj Hy). lia.
  - injection Hj as ->. rewrite Hy in Hc. specialize (Pos i x Hi Hx). lia.
  - f_equal. apply IH; try done. destruct (p z); lia.
Qed.

(** X13: at any time of the life of a manager, [_isInitializing] is set
    exactly when a call of [initializeAgent] is between its guard and its
    [finally], and there is never more than one such call: initialisations
    do not overlap, whoever asks for them (the constructor,
    [setSelectedTools], the factory or [generateResponse]). *)
Theorem one_initialization_at_a_time options acts s :
  exec X (new_AgentManager options) acts = Some s ->
  (_isInitializing (mgr s) = true <->
   exists i f, frames s !! i = Some f /\ is_initializing f = true) /\
  (forall i j f g,
      frames s !! i = Some f -> is_initializing f = true ->
      frames s !! j = Some g -> is_initializing g = true -> i = j).
Proof.
  intros H.
  destruct (sound_exec _ acts s H (sound_new options)) as (S1 & _).
  split.
  - rewrite <- count_pos, S1. destruct (_isInitializing (mgr s)); split; (done || lia).
  - intros i j f g Hi Hf Hj Hg.
    apply (count_one is_initializing (frames s) i j f g); try done.
    rewrite S1. destruct (_isInitializing (mgr s)); lia.
Qed.

(** X14: at any time of the life of a manager, when no call of
    [generateResponse] is in flight the abort controller is null, so that
    [stopStreaming] then does nothing at all. *)
Theorem controller_is_null_when_idle options acts s :
  exec X (new_AgentManager options) acts = Some s ->
  forallb is_quiet (frames s) = true ->
  _controller (mgr s) = None /\ stopStreaming s = s.
Proof.
  intros H Q.
  destruct (sound_exec _ acts s H (sound_new options)) as (_ & S2 & _).
  specialize (S2 Q). split; [done|]. unfold stopStreaming. by rewrite S2.
Qed.

(** X15: every run a manager ever invokes is invoked in one of two ways: a
    first run, on the history, is given an agent that is not null and a
    history whose last item is the user message; a resumed run, on the
    state of an interrupted result, is given [maxTurns], whether or not the
    tools are in use. *)
Theorem runs_are_well_invoked options acts s call :
  exec X (new_AgentManager options) acts = Some s ->
  call ∈ runs s ->
  match rc_input call with
  | FromHistory items =>
      is_Some (rc_agent call) /\ exists msg, last items = Some (user msg)
  | FromState _ => is_Some (rc_maxTurns call)
  end.
Proof.
  intros H Hin.
  destruct (sound_exec _ acts s H (sound_new options)) as (_ & _ & S3).
  rewrite forallb_forall in S3. apply list_elem_of_In in Hin.
  specialize (S3 call Hin). unfold well_invoked in S3.
  destruct (rc_input call) as [items|st].
  - destruct (rc_agent call); [|done].
    destruct (last items) as [[msg|]|]; try done.
    split; by eexists.
  - by destruct (rc_maxTurns call).
Qed.

(** ** What a model is created from *)











(** ** The end of an initialisation *)



Lemma setSelectedTools_mgr toolNames s :
  let s1 := setSelectedTools toolNames s in
  _isInitializing (mgr s1) = true /\
  _selectedToolNames (mgr s1) = toolNames /\
  _toolRegistry (mgr s1) = _toolRegistry (mgr s) /\
  _createModel X (mgr s1) = _createModel X (mgr s).
Proof.
  unfold setSelectedTools, initializeAgent_begin.
  change (_isInitializing (mgr (on_mgr _ s))) with (_isInitializing (mgr s)).
  destruct (_isInitializing (mgr s)) eqn:E; cbv zeta iota beta.
  - split; [exact E|]. split; [reflexivity|]. split; reflexivity.
  - split; [reflexivity|]. split; [reflexivity|]. split; reflexivity.
Qed.

(** X17: a selection of tools takes effect with the one initialisation that
    is under way once [setSelectedTools] has returned, be it the one the
    call started or one that was under way already and made the call's own
    be dropped: when it is over and the model could be created, the agent
    has the tools the registry knows among the selected names, in the order
    of the selection, or none if tools are not in use. *)
Theorem tool_selection_takes_effect options acts s toolNames :
  exec X (new_AgentManager options) acts = Some s ->
  let s1 := setSelectedTools toolNames s in
  exists i,
    (exists f, frames s1 !! i = Some f /\ is_initializing f = true) /\
    forall created,
      _createModel X (mgr s) = inl created ->
      exists s2 agent,
        step X s1 (InitSettled i) = Some s2 /\
        _selectedToolNames (mgr s2) = toolNames /\
        _agent (mgr s2) = Some agent /\
        agent_tools agent =
          match _toolRegistry (mgr s) with
          | Some registry =>
              if shouldUseTools (mgr s1)
              then omap (registry_get registry) toolNames else []
          | None => []
          end.
Proof.
  intros H s1.
  assert (sound s1) as (S1 & _).
  { apply (sound_step s (CallSetSelectedTools toolNames)); [reflexivity|].
    exact (sound_exec _ acts s H (sound_new options)). }
  destruct (setSelectedTools_mgr toolNames s) as (I1 & Hn & Ht & Hc).
  fold s1 in I1, Hn, Ht, Hc.
  rewrite I1 in S1.
  assert (0 < count is_initializing (frames s1)) as Pos by lia.
  apply count_pos in Pos as (i & f & Hf & If).
  exists i. split; [by exists f|].
  intros created Hcr.
  destruct (finish_cases s1) as (_ & _ & N & C). cbv zeta in C.
  rewrite Hc, Hcr in C. destruct C as (_ & agent & A1 & _ & _ & A4).
  assert (agent_tools agent =
          match _toolRegistry (mgr s) with
          | Some registry =>
              if shouldUseTools (mgr s1)
              then omap (registry_get registry) toolNames else []
          | None => []
          end) as Tools.
  { rewrite A4. unfold selectedAgentTools. rewrite Ht, Hn.
    destruct (_toolRegistry (mgr s)) as [registry|] eqn:E; [done|].
    by destruct (shouldUseTools (mgr s1)). }
  cbn [step]. rewrite Hf.
  remember (initializeAgent_finish X s1) as t eqn:Et. clear Et.
  destruct f as [[|] msg| | | | |]; try done.
  - exists (generateResponse_run i msg t), agent.
    split; [done|].
    unfold generateResponse_run. rewrite A1. simpl.
    destruct (_controller (mgr t)); simpl; rewrite N, Hn; repeat split; done.
  - exists (set_frame i Settled t), agent.
    split; [done|].
    change (mgr (set_frame i Settled t)) with (mgr t).
    rewrite N, Hn. repeat split; done.
Qed.

(** X18: two edges of the agent an initialisation builds.  A temperature of
    0 in the parameters of the provider makes the agent have no model
    settings at all, so that a configured [maxTokens] is not handed on
    either; any other temperature, or the default 0.7 when none is
    configured, goes in with [maxTokens].  With an empty system prompt the
    instructions are ['You are a helpful assistant.'] when tools are not in
    use, and the tool guidelines alone when they are. *)
Theorem agent_edges s agent :
  _agent (mgr (initializeAgent_finish X s)) = Some agent ->
  let m := mgr s in
  let parameters := getProvider (_settingsModel m) (_activeProvider m) ≫= pc_parameters in
  let t := default DEFAULT_TEMPERATURE (parameters ≫= temperature) in
  (Qeq t 0 -> modelSettings agent = None) /\
  (~ Qeq t 0 -> modelSettings agent = Some (t, parameters ≫= maxTokens)) /\
  (parameters ≫= temperature = None ->
   modelSettings agent = Some (7 # 10, parameters ≫= maxTokens)) /\
  (systemPrompt (config (_settingsModel m)) = "" ->
   instructions agent =
     if shouldUseTools m then progressReportingPrompt X
     else "You are a helpful assistant.") /\
  (systemPrompt (config (_settingsModel m)) <> "" ->
   instructions agent =
     if shouldUseTools m
     then systemPrompt (config (_settingsModel m)) +:+ progressReportingPrompt X
     else systemPrompt (config (_settingsModel m))).
Proof.
  unfold initializeAgent_finish.
  destruct (_createModel X (mgr s)) as [created|e]; [|done].
  simpl. intros [= <-]. simpl.
  set (parameters := getProvider _ _ ≫= pc_parameters).
  set (t := default DEFAULT_TEMPERATURE (parameters ≫= temperature)).
  split; [|split; [|split; [|split]]].
  - intros E. apply Qeq_bool_iff in E. by rewrite E.
  - intros E. destruct (Qeq_bool t 0) eqn:B; [|done].
    by apply Qeq_bool_iff in B.
  - intros E. subst t. by rewrite E.
  - intros ->. unfold _getEnhancedSystemPrompt. simpl.
    by destruct (shouldUseTools (mgr s)).
  - intros E. unfold _getEnhancedSystemPrompt, or_else.
    destruct (String.eqb (systemPrompt _) "") eqn:B; [|done].
    by apply String.eqb_eq in B.
Qed.

(** ** The stream *)

Lemma unhandled_item ev loc s :
  handled ev = false -> process_item X ev loc s = (loc, s).
Proof.
  destruct ev as [[| delta | usage | [id name input | ty] | ty] | name item | ty];
    simpl; try done.
  by intros ->.
Qed.

(** X19: the items of a stream the loop of [_processRunResult] has no
    branch for (a raw model event of another type, a model event that is no
    tool call, a run item that is no [tool_output], an event of another
    kind) change nothing and let nothing out, wherever they come in the
    stream: a pass over a stream is the pass over its handled items, and
    for the call that is consuming the stream such an item is no step at
    all. *)
Theorem unhandled_items_are_ignored events s :
  _processRunResult X events s = _processRunResult X (List.filter handled events) s /\
  (forall i r turns loc ev,
      frames s !! i = Some (GStream r turns loc) -> handled ev = false ->
      step X s (StreamItem i ev) = Some s).
Proof.
  split.
  - unfold _processRunResult. f_equal. generalize fresh_locals as loc.
    revert s. induction events as [|ev rest IH]; intros s loc; [done|].
    simpl. destruct (handled ev) eqn:E.
    + simpl. destruct (process_item X ev loc s) as [loc1 s1]. apply IH.
    + rewrite (unhandled_item ev loc s E). apply IH.
  - intros i r turns loc ev Hf E. cbn [step]. rewrite Hf.
    rewrite (unhandled_item ev loc s E). f_equal. by apply set_frame_same.
Qed.

Lemma count_app {A} (p : A -> bool) l1 l2 :
  count p (l1 ++ l2) = count p l1 + count p l2.
Proof. induction l1 as [|y l1 IH]; simpl; [done | rewrite IH; lia]. Qed.

(** What one item lets out. *)
Lemma item_counts ev loc s :
  let r := process_item X ev loc s in
  exists one,
    out r.2 = out s ++ one /\
    count is_message_start one = (if is_response_started ev then 1 else 0) /\
    count is_usage_changed one = (if is_response_done ev then 1 else 0) /\
    count is_message_complete one + open_count r.1 <=
      count is_message_start one + open_count loc /\
    count is_message_complete one <= (if is_response_done ev then 1 else 0) /\
    count is_message_chunk one <= (if is_text_delta ev then 1 else 0) /\
    draws r.2 = draws s + (if is_response_started ev then 1 else 0).
Proof.
  unfold open_count.
  destruct ev as [[| delta | usage | [id name input | ty] | ty] | name item | ty];
    simpl.
  - eexists [_]. repeat split; simpl; rewrite ?C; try done; lia.
  - destruct (currentMessageId loc) as [id|] eqn:C; simpl.
    + eexists [_]. repeat split; simpl; rewrite ?C; try done; lia.
    + exists []. rewrite app_nil_r. repeat split; simpl; rewrite ?C; try done; lia.
  - destruct (currentMessageId loc) as [id|] eqn:C; simpl.
    + eexists [_; _]. rewrite <- app_assoc. repeat split; simpl; rewrite ?C; try done; lia.
    + eexists [_]. repeat split; simpl; rewrite ?C; try done; lia.
  - eexists [_]. repeat split; simpl; rewrite ?C; try done; lia.
  - exists []. rewrite app_nil_r. repeat split; simpl; rewrite ?C; try done; lia.
  - exists []. rewrite app_nil_r. repeat split; simpl; rewrite ?C; try done; lia.
  - destruct (String.eqb name "tool_output"); simpl.
    + eexists [_]. repeat split; simpl; rewrite ?C; try done; lia.
    + exists []. rewrite app_nil_r. repeat split; simpl; rewrite ?C; try done; lia.
  - exists []. rewrite app_nil_r. repeat split; simpl; rewrite ?C; try done; lia.
Qed.

Lemma items_counts events loc s :
  let r := process_items X events loc s in
  exists new,
    out r.2 = out s ++ new /\
    count is_message_start new = count is_response_started events /\
    count is_usage_changed new = count is_response_done events /\
    count is_message_complete new + open_count r.1 <=
      count is_message_start new + open_count loc /\
    count is_message_complete new <= count is_response_done events /\
    count is_message_chunk new <= count is_text_delta events /\
    draws r.2 = draws s + count is_response_started events.
Proof.
  revert loc s. induction events as [|ev rest IH]; intros loc s; simpl.
  - exists []. rewrite app_nil_r. repeat split; simpl; lia.
  - destruct (item_counts ev loc s) as (one & O1 & A1 & B1 & C1 & D1 & E1 & F1).
    destruct (process_item X ev loc s) as [loc1 s1]. simpl in *.
    destruct (IH loc1 s1) as (new & O2 & A2 & B2 & C2 & D2 & E2 & F2).
    exists (one ++ new). rewrite O2, O1, <- app_assoc, !count_app.
    repeat split; try done; lia.
Qed.

(** X20: the events of one pass of [_processRunResult], counted against the
    items of the stream: one [message_start] and one message id drawn for
    every [response_started], one [tokenUsageChanged] for every
    [response_done], at most one [message_chunk] for every text delta, and
    no more [message_complete] than [response_done] items nor than
    messages started; a message that is open when the stream ends has had
    no [message_complete]. *)
Theorem pass_event_counts events s :
  let r := process_items X events fresh_locals s in
  exists new,
    out (_processRunResult X events s) = out s ++ new /\
    count is_message_start new = count is_response_started events /\
    draws (_processRunResult X events s)
      = draws s + count is_response_started events /\
    count is_usage_changed new = count is_response_done events /\
    count is_message_chunk new <= count is_text_delta events /\
    count is_message_complete new <= count is_response_done events /\
    count is_message_complete new + open_count r.1 <= count is_message_start new.
Proof.
  destruct (items_counts events fresh_locals s)
    as (new & O & A & B & C & D & E & F).
  exists new. unfold _processRunResult. simpl in *.
  repeat split; try done. unfold open_count in C at 2. simpl in C. lia.
Qed.

(** ** A call that goes through *)

(** The loop reads the log, the draws and the counters, and writes nothing
    else. *)
Lemma process_item_agree ev loc s t :
  out t = out s -> draws t = draws s ->
  _tokenUsage (mgr t) = _tokenUsage (mgr s) ->
  let a := process_item X ev loc s in
  let b := process_item X ev loc t in
  b.1 = a.1 /\ out b.2 = out a.2 /\ draws b.2 = draws a.2 /\
  _tokenUsage (mgr b.2) = _tokenUsage (mgr a.2) /\
  heap b.2 = heap t /\ frames b.2 = frames t /\ runs b.2 = runs t /\
  _history (mgr b.2) = _history (mgr t) /\
  _controller (mgr b.2) = _controller (mgr t) /\
  _interruptedState (mgr b.2) = _interruptedState (mgr t) /\
  _pendingApprovals (mgr b.2) = _pendingApprovals (mgr t) /\
  _agent (mgr b.2) = _agent (mgr t).
Proof.
  intros O D U.
  destruct ev as [[| delta | usage | [id name input | ty] | ty] | name item | ty];
    simpl; rewrite ?O, ?D, ?U; try done.
  - destruct (currentMessageId loc); simpl; rewrite ?O; done.
  - destruct (currentMessageId loc); simpl; rewrite ?O, ?U; done.
  - destruct (String.eqb name "tool_output"); simpl; rewrite ?O; done.
Qed.

Lemma process_items_agree events loc s t :
  out t = out s -> draws t = draws s ->
  _tokenUsage (mgr t) = _tokenUsage (mgr s) ->
  let a := process_items X events loc s in
  let b := process_items X events loc t in
  b.1 = a.1 /\ out b.2 = out a.2 /\ draws b.2 = draws a.2 /\
  _tokenUsage (mgr b.2) = _tokenUsage (mgr a.2) /\
  heap b.2 = heap t /\ frames b.2 = frames t /\ runs b.2 = runs t /\
  _history (mgr b.2) = _history (mgr t) /\
  _controller (mgr b.2) = _controller (mgr t) /\
  _interruptedState (mgr b.2) = _interruptedState (mgr t) /\
  _pendingApprovals (mgr b.2) = _pendingApprovals (mgr t) /\
  _agent (mgr b.2) = _agent (mgr t).
Proof.
  revert loc s t. induction events as [|ev rest IH]; intros loc s t O D U; simpl.
  - repeat split; done.
  - pose proof (process_item_agree ev loc s t O D U) as G.
    destruct (process_item X ev loc s) as [loc1 s1].
    destruct (process_item X ev loc t) as [loc2 t1]. simpl in G.
    destruct G as (-> & O1 & D1 & U1 & G1 & G2 & G3 & G4 & G5 & G6 & G7 & G8).
    rewrite <- G1, <- G2, <- G3, <- G4, <- G5, <- G6, <- G7, <- G8.
    exact (IH loc1 s1 t1 O1 D1 U1).
Qed.

(** X21: a call of [generateResponse] on a manager that has an agent, whose
    run settles and whose stream ends without interruptions, with nothing
    else happening in between: the runner is invoked once, on the history
    with the user message appended, with the agent and a fresh signal; what
    goes out is what one pass of [_processRunResult] lets out, and the
    counters are as that pass leaves them; then the history is replaced by
    the history the result reports, [_interruptedState] and the controller
    are null and the call is over. *)
Theorem successful_call s msg agent snap events hist :
  _agent (mgr s) = Some agent ->
  let i := length (frames s) in
  let pass := _processRunResult X events s in
  exists s' call,
    exec X s (CallGenerateResponse msg :: RunStarted i snap
                :: map (StreamItem i) events ++ [StreamEnd i [] hist]) = Some s' /\
    frames s' = frames s ++ [Settled] /\
    runs s' = runs s ++ [call] /\
    rc_input call = FromHistory (_history (mgr s) ++ [user msg]) /\
    rc_agent call = Some agent /\
    rc_signal call = {| ctl_serial := serials s; aborted := false |} /\
    out s' = out pass /\
    _tokenUsage (mgr s') = _tokenUsage (mgr pass) /\
    _history (mgr s') = hist /\
    _controller (mgr s') = None /\
    _interruptedState (mgr s') = None /\
    _pendingApprovals (mgr s') = _pendingApprovals (mgr s).
Proof.
  intros Hagent i pass.
  (* the call and the invocation *)
  assert (exists call turns s1,
            generateResponse msg s = s1 /\
            frames s1 = frames s ++ [GAwaitRun turns] /\
            runs s1 = runs s ++ [call] /\
            rc_input call = FromHistory (_history (mgr s) ++ [user msg]) /\
            rc_agent call = Some agent /\
            rc_signal call = {| ctl_serial := serials s; aborted := false |} /\
            out s1 = out s /\ draws s1 = draws s /\
            _tokenUsage (mgr s1) = _tokenUsage (mgr s) /\
            heap s1 = heap s /\
            _pendingApprovals (mgr s1) = _pendingApprovals (mgr s))
    as (call & turns & s1 & E1 & F1 & R1 & I1 & A1 & S1 & O1 & D1 & U1 & H1 & P1).
  { unfold generateResponse. simpl. rewrite Hagent.
    unfold generateResponse_run. simpl. rewrite Hagent. simpl.
    eexists _, _, _. split; [reflexivity|]. unfold set_frame. simpl.
    rewrite insert_snoc. repeat split; done. }
  set (r := length (heap s)).
  assert (frames s1 !! i = Some (GAwaitRun turns)) as Hf1.
  { rewrite F1, lookup_app_r by done. by rewrite Nat.sub_diag. }
  (* the run settles and the stream starts *)
  assert (exists s2,
            generateResponse_stream i snap turns s1 = s2 /\
            frames s2 = frames s ++ [GStream r turns fresh_locals] /\
            heap s2 = heap s ++ [{| state := {| snapshot := snap; verdicts := [] |};
                                    interruptions := [];
                                    history := [] |}] /\
            runs s2 = runs s1 /\ out s2 = out s /\ draws s2 = draws s /\
            _tokenUsage (mgr s2) = _tokenUsage (mgr s) /\
            _pendingApprovals (mgr s2) = _pendingApprovals (mgr s))
    as (s2 & E2 & F2 & H2 & R2 & O2 & D2 & U2 & P2).
  { eexists. split; [reflexivity|].
    unfold generateResponse_stream, set_frame. simpl.
    rewrite F1, H1. unfold i. rewrite insert_snoc. repeat split; done. }
  assert (frames s2 !! i = Some (GStream r turns fresh_locals)) as Hf2.
  { rewrite F2, lookup_app_r by done. by rewrite Nat.sub_diag. }
  (* the stream *)
  pose proof (stream_items_exec X i r turns events fresh_locals s2 Hf2) as E3.
  pose proof (process_items_agree events fresh_locals s s2 O2 D2 U2) as G.
  remember (process_items X events fresh_locals s2) as b eqn:Eb. clear Eb.
  destruct b as [loc3 t]. simpl in G, E3.
  destruct G as (_ & O3 & _ & U3 & H3 & F3 & R3 & _ & _ & _ & P3 & _).
  fold (_processRunResult X events s) in O3, U3. fold pass in O3, U3.
  (* the end of the stream *)
  assert (i < length (frames t)) as Hi.
  { rewrite F3, F2, length_app. simpl. unfold i. lia. }
  assert (heap t !! r = Some {| state := {| snapshot := snap; verdicts := [] |};
                                interruptions := [];
                                history := [] |}) as Hr.
  { rewrite H3, H2, lookup_app_r by done. by rewrite Nat.sub_diag. }
  eexists _, call. split.
  { cbn [exec step]. rewrite E1. cbn [exec step]. rewrite Hf1, E2.
    rewrite exec_app, E3. cbn [exec step].
    unfold set_frame at 1. cbn [frames with_frames].
    rewrite list_lookup_insert_eq by exact Hi.
    unfold generateResponse_settled.
    change (heap (set_frame i (GStream r turns loc3) t)) with (heap t).
    rewrite Hr. cbn [mbind option_bind length Nat.ltb Nat.leb].
    reflexivity. }
  unfold set_frame. simpl.
  rewrite list_insert_insert_eq, F3, F2. unfold i.
  rewrite insert_snoc, R3, R2, R1, P3, P2.
  repeat split; done.
Qed.

(** ** Calls that cross *)

(** X22: [clearHistory] while a run is streaming empties the history only
    until the run ends: when the stream ends without interruptions the
    history is replaced by the history the result reports, while the
    counters stay at zero and the runner stays the new one. *)
Theorem clear_during_a_run_does_not_last s i r turns loc res hist :
  frames s !! i = Some (GStream r turns loc) ->
  heap s !! r = Some res ->
  exists s',
    step X (clearHistory s) (StreamEnd i [] hist) = Some s' /\
    _history (mgr (clearHistory s)) = [] /\
    _history (mgr s') = hist /\
    _tokenUsage (mgr s') = zero_usage /\
    _runner (mgr s') = {| runner_serial := serials s; tracingDisabled := true |} /\
    out s' = out s ++ [TokenUsageChanged zero_usage].
Proof.
  intros Hf Hh. cbn [step].
  change (frames (clearHistory s)) with (frames s). rewrite Hf.
  unfold generateResponse_settled.
  change (heap (clearHistory s)) with (heap s). rewrite Hh.
  cbn [mbind option_bind length Nat.ltb Nat.leb].
  eexists. split; [reflexivity|]. repeat split; done.
Qed.

(** X23: a call that waited for approvals and finds the controller null
    when the pending set is empty (another [generateResponse] has ended in
    the meantime and set it to null) does not resume its run: reading the
    signal of the null controller throws, the error goes out as an [error]
    event, no run is invoked, and the call is over.  [_interruptedState] is
    left as it is. *)
Theorem resume_without_controller s i r turns res :
  frames s !! i = Some (GWait r turns) ->
  _pendingApprovals (mgr s) = ∅ ->
  heap s !! r = Some res ->
  _controller (mgr s) = None ->
  exists s',
    step X s (Tick i) = Some s' /\
    out s' = out s ++ [AgentEvent (error null_signal)] /\
    runs s' = runs s /\
    frames s' = <[i := Settled]> (frames s) /\
    _interruptedState (mgr s') = _interruptedState (mgr s) /\
    _history (mgr s') = _history (mgr s).
Proof.
  intros Hf Hp Hh Hc. cbn [step]. rewrite Hf.
  unfold generateResponse_poll. rewrite Hp, Hh, Hc.
  eexists. split; [reflexivity|]. repeat split; done.
Qed.

(** ** Where events come from *)

(** X24: no call from outside lets anything out on the event signal before
    it returns: [generateResponse], [initializeAgent], [setSelectedTools],
    the four approval operations, [clearHistory] and [stopStreaming] emit no
    agent event themselves; the events of a call of [generateResponse] all
    come after its first [await]. *)
Theorem calls_emit_no_agent_event s a s' :
  call_of a = None -> step X s a = Some s' ->
  agent_events (out s') = agent_events (out s).
Proof.
  intros Ha H.
  destruct a as [msg | mcpServers | toolNames | id | id | group ids | group ids
                | | | i | i snap | i e | i ev | i ints hist | i e | i];
    try discriminate Ha; simpl in H; injection H as <-.
  - unfold generateResponse. simpl.
    destruct (_agent (mgr s)) as [agent|] eqn:A.
    + unfold generateResponse_run. simpl. by rewrite A.
    + unfold initializeAgent_begin. simpl. by destruct (_isInitializing (mgr s)).
  - unfold initializeAgent, initializeAgent_begin.
    destruct (_isInitializing (mgr s)); [done|]. by destruct mcpServers.
  - unfold setSelectedTools, initializeAgent_begin. simpl.
    by destruct (_isInitializing (mgr s)).
  - by destruct (resolve_usage id true s) as (_ & _ & _ & _ & _ & E).
  - by destruct (resolve_usage id false s) as (_ & _ & _ & _ & _ & E).
  - destruct (grouped_usage true group ids s) as (_ & E & _). simpl in E.
    by rewrite E.
  - destruct (grouped_usage false group ids s) as (_ & E & _). simpl in E.
    by rewrite E.
  - unfold clearHistory, agent_events. simpl. rewrite omap_app. simpl.
    by rewrite app_nil_r.
  - unfold stopStreaming. by destruct (_controller (mgr s)).
Qed.

(** X25: [message_start], [message_chunk] and [message_complete] come from
    the items of a stream and from nothing else: along any run of a
    manager in which no stream yields an item, whatever else happens, no
    such event goes out, and what was let out before stays as it is. *)
Theorem message_events_come_from_streams s acts s' :
  exec X s acts = Some s' ->
  forallb (fun a => negb (is_stream_item a)) acts = true ->
  exists new,
    out s' = out s ++ new /\
    forallb (fun o => negb (is_message_event o)) new = true.
Proof.
  revert s. induction acts as [|a rest IH]; intros s H Hacts.
  - injection H as <-. exists []. by rewrite app_nil_r.
  - simpl in H, Hacts. apply andb_true_iff in Hacts as [Ha Hrest].
    destruct (step X s a) as [s1|] eqn:E; [|done].
    assert (match a with StreamItem _ _ => False | _ => True end) as Hq
      by (by destruct a).
    destruct (step_quiet X s a s1 E Hq) as (_ & (one & O1 & Q1) & _).
    destruct (IH s1 H Hrest) as (new & O2 & Q2).
    exists (one ++ new). rewrite O2, O1, <- app_assoc. split; [done|].
    by rewrite forallb_app, Q1, Q2.
Qed.

(** ** A change of provider *)

(** X26: the setter of [activeProvider] assigns the field, emits the new
    value on [activeProviderChanged] and lets nothing else out; it does not
    touch the agent itself.  While an initialisation is under way its call
    of [initializeAgent] is dropped and no call is started for the new
    provider.  Otherwise it starts an initialisation, and when that one is
    over, with nothing in between, the agent is made of the model created
    for the new provider, or is null when that model cannot be created, as
    when the settings have no entry for the new provider. *)
Theorem provider_change value s :
  let r := activeProvider_set value s in
  r.1 = value /\
  _activeProvider (mgr r.2) = value /\
  out r.2 = out s /\
  _agent (mgr r.2) = _agent (mgr s) /\
  if _isInitializing (mgr s) then frames r.2 = frames s
  else
    frames r.2 = frames s ++ [IInit] /\
    exists s',
      step X r.2 (InitSettled (length (frames s))) = Some s' /\
      _activeProvider (mgr s') = value /\
      match _createModel X (on_mgr (set_activeProvider value) s).(mgr) with
      | inl created =>
          exists agent,
            _agent (mgr s') = Some agent /\ agent_model agent = created
      | inr e => _agent (mgr s') = None
      end /\
      (getProvider (_settingsModel (mgr s)) value = None ->
       _agent (mgr s') = None).
Proof.
  unfold activeProvider_set, initializeAgent, initializeAgent_begin.
  change (_isInitializing (mgr (on_mgr (set_activeProvider value) s)))
    with (_isInitializing (mgr s)).
  destruct (_isInitializing (mgr s)) eqn:I; cbv zeta iota beta.
  - repeat split; done.
  - set (s1 := on_mgr (set_activeProvider value) s).
    set (s2 := on_mgr (fun m => set_isInitializing true m) s1).
    set (s3 := with_frames (frames s2 ++ [IInit]) s2).
    assert (_createModel X (mgr s3) = _createModel X (mgr s1)) as Hc by done.
    split; [done|]. split; [done|]. split; [done|]. split; [done|].
    split; [done|].
    exists (set_frame (length (frames s)) Settled (initializeAgent_finish X s3)).
    split.
    { change (step X s3 (InitSettled (length (frames s))) =
        Some (set_frame (length (frames s)) Settled (initializeAgent_finish X s3))).
      assert (frames s3 !! length (frames s) = Some IInit) as L.
      { change (frames s3) with (frames s ++ [IInit]).
        rewrite lookup_app_r by done. by rewrite Nat.sub_diag. }
      cbn [step]. by rewrite L. }
    destruct (finish_cases s3) as (_ & _ & _ & F).
    destruct (initializeAgent_finish_frame X s3)
      as (_ & _ & _ & _ & _ & _ & _ & _ & _ & _ & _ & _ & P & _).
    cbv zeta in F. rewrite Hc in F.
    remember (initializeAgent_finish X s3) as t eqn:Et. clear Et.
    change (mgr (set_frame (length (frames s)) Settled t)) with (mgr t).
    split; [exact P|]. split.
    + destruct (_createModel X (mgr s1)) as [created|e].
      * destruct F as (_ & agent & A1 & A2 & _). by exists agent.
      * by destruct F as [_ A].
    + intros Hp.
      destruct (createModel_needs_provider X (mgr s1)) as [e He]; [exact Hp|].
      rewrite He in F. by destruct F as [_ A].
Qed.

(** ** Approvals are announced *)

Lemma existsb_app_l {A} (f : A -> bool) l new :
  existsb f l = true -> existsb f (l ++ new) = true.
Proof. intros H. by rewrite existsb_app, H. Qed.

Lemma register_group_announced group items s id :
  is_Some (_pendingApprovals (mgr (register_group X group items s).2) !! id) ->
  is_Some (_pendingApprovals (mgr s) !! id) \/
  existsb (fun id' => String.eqb id' id)
    (interruption_ids (register_group X group items s).1) = true.
Proof.
  revert s. induction items as [|item rest IH]; intros s; simpl; [by left|].
  set (s1 := register _ _ _).
  specialize (IH s1).
  destruct (register_group X group rest s1) as [approvals s2]; simpl in *.
  intros H. destruct (IH H) as [H1 | H2].
  - subst s1. unfold register, on_mgr in H1; simpl in H1.
    destruct (decide (fresh_id X "int-" (draws s) = id)) as [Heq|Hne].
    + right.
      change (String.eqb (fresh_id X "int-" (draws s)) id
              || existsb (fun id' => String.eqb id' id) (interruption_ids approvals)
              = true).
      apply orb_true_iff. left. apply String.eqb_eq. exact Heq.
    + left. rewrite lookup_insert_ne in H1 by exact Hne. exact H1.
  - right. apply orb_true_iff. right. exact H2.
Qed.

Lemma resolved_shrinks id' p item verdict s id :
  is_Some (_pendingApprovals
             (mgr (resolve_pending id' p verdict (record_verdict item verdict s)))
           !! id) ->
  is_Some (_pendingApprovals (mgr s) !! id).
Proof.
  unfold resolve_pending, record_verdict; simpl.
  destruct (decide (id' = id)) as [->|Hne];
    (destruct (_interruptedState (mgr s)); [destruct (heap s !! _)|]); simpl;
    rewrite ?lookup_delete_eq, ?delete_insert_other by done;
    first [done | by intros [? ?]].
Qed.

Lemma verdict_shrinks id' verdict s id :
  is_Some (_pendingApprovals
             (mgr (if verdict : bool then approveToolCall id' s
                   else rejectToolCall id' s)) !! id) ->
  is_Some (_pendingApprovals (mgr s) !! id).
Proof.
  destruct verdict; unfold approveToolCall, rejectToolCall;
    (destruct (_pendingApprovals (mgr s) !! id') as [p|]; [|done]);
    apply resolved_shrinks.
Qed.

Lemma grouped_shrinks verdict group ids s id :
  is_Some (_pendingApprovals
             (mgr (if verdict : bool then approveGroupedToolCalls group ids s
                   else rejectGroupedToolCalls group ids s)) !! id) ->
  is_Some (_pendingApprovals (mgr s) !! id).
Proof.
  revert s. induction ids as [|id' rest IH]; intros s.
  - by destruct verdict.
  - destruct verdict; simpl; intros H; apply IH in H;
      (destruct (_pendingApprovals (mgr s) !! id') as [p|]; [|done]);
      (destruct (bool_decide _); [|done]);
      by apply resolved_shrinks in H.
Qed.

Lemma poll_pending_out i r turns s s' :
  generateResponse_poll i r turns s = Some s' ->
  _pendingApprovals (mgr s') = _pendingApprovals (mgr s) /\
  exists new, out s' = out s ++ new.
Proof.
  unfold generateResponse_poll.
  destruct (0 <? size _).
  - intros [= <-]. split; [done|]. exists []. by rewrite app_nil_r.
  - destruct (heap s !! r); [simpl|done].
    destruct (_controller (mgr s)); intros [= <-]; (split; [done|]).
    + exists []. by rewrite app_nil_r.
    + by eexists [_].
Qed.

(** Nothing is taken back from the log. *)
Lemma step_out s a s' :
  step X s a = Some s' -> exists new, out s' = out s ++ new.
Proof.
  intros H.
  destruct (decide (is_stream_item a = true)) as [Ha|Ha].
  - destruct a as [msg | mcpServers | toolNames | id | id | group ids | group ids
                  | | | i | i snap | i e | i ev | i ints hist | i e | i];
      try discriminate Ha. simpl in H.
    destruct (frames s !! i) as [[]|]; try discriminate H.
    destruct (item_counts ev loc s) as (one & O & _).
    destruct (process_item X ev loc s) as [loc1 s1]. injection H as <-.
    by exists one.
  - assert (match a with StreamItem _ _ => False | _ => True end) as Hq
      by (by destruct a).
    destruct (step_quiet X s a s' H Hq) as (_ & (one & O & _) & _).
    by exists one.
Qed.

(** An id that is pending after a step was pending before it, or has been
    announced. *)
Lemma step_announced s a s' id :
  step X s a = Some s' ->
  is_Some (_pendingApprovals (mgr s') !! id) ->
  is_Some (_pendingApprovals (mgr s) !! id) \/
  existsb (announces id) (out s') = true.
Proof.
  intros H Hid.
  destruct a as [msg | mcpServers | toolNames | id' | id' | group ids | group ids
                | | | i | i snap | i e | i ev | i ints hist | i e | i];
    simpl in H.
  - injection H as <-. left. revert Hid. unfold generateResponse. simpl.
    destruct (_agent (mgr s)).
    + by rewrite (proj1 (generateResponse_run_pending _ _ _)).
    + unfold initializeAgent_begin. simpl. by destruct (_isInitializing (mgr s)).
  - injection H as <-. left. revert Hid.
    unfold initializeAgent, initializeAgent_begin.
    destruct (_isInitializing (mgr s)); [done|]. by destruct mcpServers.
  - injection H as <-. left. revert Hid.
    unfold setSelectedTools, initializeAgent_begin.
    simpl. by destruct (_isInitializing (mgr s)).
  - injection H as <-. left. by apply (verdict_shrinks id' true).
  - injection H as <-. left. by apply (verdict_shrinks id' false).
  - injection H as <-. left. by apply (grouped_shrinks true group ids).
  - injection H as <-. left. by apply (grouped_shrinks false group ids).
  - injection H as <-. simpl in Hid. rewrite lookup_empty in Hid.
    by destruct Hid.
  - injection H as <-. left. revert Hid. unfold stopStreaming.
    by destruct (_controller (mgr s)).
  - destruct (initializeAgent_finish_frame X s)
      as (_ & _ & _ & _ & _ & _ & _ & _ & Hfp & _).
    left. revert Hid.
    destruct (frames s !! i) as [[started m| | | | |]|]; try discriminate H;
      injection H as <-.
    + rewrite (proj1 (generateResponse_run_pending _ _ _)).
      destruct started; [by rewrite Hfp | done].
    + change (is_Some (_pendingApprovals (mgr (initializeAgent_finish X s)) !! id)
              -> is_Some (_pendingApprovals (mgr s) !! id)).
      by rewrite Hfp.
  - destruct (frames s !! i) as [[]|]; try discriminate H. injection H as <-.
    by left.
  - destruct (frames s !! i) as [[]|]; try discriminate H. injection H as <-.
    by left.
  - destruct (frames s !! i) as [[]|]; try discriminate H.
    pose proof (process_item_pending X ev loc s) as Hp.
    destruct (process_item X ev loc s) as [loc1 s1]. injection H as <-.
    simpl in *. rewrite Hp in Hid. by left.
  - destruct (frames s !! i) as [[| |r turns loc| | |]|]; try discriminate H.
    unfold generateResponse_settled in H.
    destruct (heap s !! r) as [res|]; [simpl in H|done].
    destruct (0 <? length ints).
    + set (s2 := on_mgr _ _) in H.
      assert (exists s3,
                 generateResponse_poll i r turns s3 = Some s' /\
                 (is_Some (_pendingApprovals (mgr s3) !! id) ->
                  is_Some (_pendingApprovals (mgr s) !! id) \/
                  existsb (announces id) (out s3) = true))
        as (s3 & P & K).
      { destruct (1 <? length ints).
        - eexists. split; [exact H|].
          unfold _handleGroupedToolApprovals.
          pose proof (register_group_announced (fresh_id X "group-" (draws s2))
                        ints (bump s2) id) as G.
          destruct (register_group X _ ints (bump s2)) as [approvals s4].
          simpl in *. intros Hid4. destruct (G Hid4) as [G1 | G2]; [by left|].
          right. rewrite existsb_app. apply orb_true_iff. right.
          change (existsb (fun id' => String.eqb id' id)
                    (interruption_ids approvals) || false = true).
          by rewrite orb_false_r.
        - destruct ints as [|item rest]; eexists; (split; [exact H|]);
            [by left|].
          simpl. destruct (decide (fresh_id X "int-" (draws s) = id)) as [Heq|Hne].
          + intros _. right. rewrite existsb_app. apply orb_true_iff. right.
            change (String.eqb (fresh_id X "int-" (draws s)) id || false = true).
            apply orb_true_iff. left. apply String.eqb_eq. exact Heq.
          + rewrite lookup_insert_ne by exact Hne. by left. }
      destruct (poll_pending_out _ _ _ _ _ P) as (Hp & new & O).
      rewrite Hp in Hid. destruct (K Hid) as [K1 | K2]; [by left|].
      right. rewrite O. by apply existsb_app_l.
    + injection H as <-. by left.
  - destruct (frames s !! i) as [[]|]; try discriminate H. injection H as <-.
    by left.
  - destruct (frames s !! i) as [[| | |r turns| |]|]; try discriminate H.
    destruct (poll_pending_out _ _ _ _ _ H) as (Hp & _). rewrite Hp in Hid.
    by left.
Qed.

(** X27: whatever is waiting for a verdict has been announced.  Along any
    run of a new manager, every interruption id in the pending set is the id
    of a [tool_approval_required] event, or is listed in a
    [grouped_approval_required] event, that has gone out on the event
    signal. *)
Theorem pending_approvals_were_announced options acts s id :
  exec X (new_AgentManager options) acts = Some s ->
  is_Some (_pendingApprovals (mgr s) !! id) ->
  existsb (announces id) (out s) = true.
Proof.
  assert (forall acts s0 s1,
             exec X s0 acts = Some s1 ->
             (forall id, is_Some (_pendingApprovals (mgr s0) !! id) ->
                         existsb (announces id) (out s0) = true) ->
             forall id, is_Some (_pendingApprovals (mgr s1) !! id) ->
                        existsb (announces id) (out s1) = true) as Run.
  { clear. intros acts. induction acts as [|a rest IH]; intros s0 s1 H I.
    - by injection H as <-.
    - simpl in H. destruct (step X s0 a) as [t|] eqn:E; [|done].
      apply (IH t s1 H). intros id Hid.
      destruct (step_announced s0 a t id E Hid) as [K | K]; [|done].
      destruct (step_out s0 a t E) as (new & O). rewrite O.
      apply existsb_app_l. by apply I. }
  intros H. apply (Run acts _ s H). intros id' Hid. simpl in Hid.
  rewrite lookup_empty in Hid. by destruct Hid.
Qed.

(** ** The ids of a batch of interruptions *)

Lemma resolved_entry id' q item verdict s id p :
  _pendingApprovals
    (mgr (resolve_pending id' q verdict (record_verdict item verdict s))) !! id
  = Some p ->
  _pendingApprovals (mgr s) !! id = Some p.
Proof.
  unfold resolve_pending, record_verdict; simpl.
  destruct (decide (id' = id)) as [->|Hne];
    (destruct (_interruptedState (mgr s)); [destruct (heap s !! _)|]); simpl;
    rewrite ?lookup_delete_eq, ?delete_insert_other by done; done.
Qed.

Lemma verdict_entry id' verdict s id p :
  _pendingApprovals
    (mgr (if verdict : bool then approveToolCall id' s else rejectToolCall id' s))
    !! id = Some p ->
  _pendingApprovals (mgr s) !! id = Some p.
Proof.
  destruct verdict; unfold approveToolCall, rejectToolCall;
    (destruct (_pendingApprovals (mgr s) !! id') as [q|]; [|done]);
    apply resolved_entry.
Qed.

Lemma grouped_entry verdict group ids s id p :
  _pendingApprovals
    (mgr (if verdict : bool then approveGroupedToolCalls group ids s
          else rejectGroupedToolCalls group ids s)) !! id = Some p ->
  _pendingApprovals (mgr s) !! id = Some p.
Proof.
  revert s. induction ids as [|id' rest IH]; intros s.
  - by destruct verdict.
  - destruct verdict; simpl; intros H; apply IH in H;
      (destruct (_pendingApprovals (mgr s) !! id') as [q|]; [|done]);
      (destruct (bool_decide _); [|done]);
      by apply resolved_entry in H.
Qed.

Lemma register_group_entry group items s id p :
  _pendingApprovals (mgr (register_group X group items s).2) !! id = Some p ->
  _pendingApprovals (mgr s) !! id = Some p \/
  exists k, k < length items /\ id = fresh_id X "int-" (draws s + k) /\
            groupId p = Some group.
Proof.
  revert s. induction items as [|item rest IH]; intros s; simpl; [by left|].
  set (s1 := register _ _ _).
  specialize (IH s1).
  destruct (register_group X group rest s1) as [approvals s2]; simpl in *.
  intros H. destruct (IH H) as [H1 | (k & Hk & Hid & Hg)].
  - subst s1. unfold register, on_mgr in H1; simpl in H1.
    apply lookup_insert_Some in H1 as [[E1 E2] | [_ H1]]; [|by left].
    right. exists 0. split; [lia|]. rewrite Nat.add_0_r.
    split; [by symmetry | by rewrite <- E2].
  - right. exists (S k). split; [lia|]. split; [|done].
    rewrite Hid. subst s1. simpl. f_equal. lia.
Qed.

Lemma poll_keeps i r turns s s' :
  generateResponse_poll i r turns s = Some s' ->
  _pendingApprovals (mgr s') = _pendingApprovals (mgr s) /\ draws s' = draws s.
Proof.
  unfold generateResponse_poll.
  destruct (0 <? size _).
  - by intros [= <-].
  - destruct (heap s !! r); [simpl|done].
    by destruct (_controller (mgr s)); intros [= <-].
Qed.

(** What the end of a stream leaves in the pending set. *)
Lemma settled_pending_set i r turns ints hist s s' :
  generateResponse_settled X i r turns ints hist s = Some s' ->
  match ints with
  | [] =>
      _pendingApprovals (mgr s') = _pendingApprovals (mgr s) /\
      draws s' = draws s
  | [item] =>
      _pendingApprovals (mgr s') =
        <[fresh_id X "int-" (draws s) :=
            {| interruption := item; approved := None; groupId := None |}]>
          (_pendingApprovals (mgr s)) /\
      draws s' = S (draws s)
  | _ =>
      exists t,
        _pendingApprovals (mgr t) = _pendingApprovals (mgr s) /\
        draws t = S (draws s) /\
        _pendingApprovals (mgr s') =
          _pendingApprovals
            (mgr (register_group X (fresh_id X "group-" (draws s)) ints t).2) /\
        draws s' = S (draws s) + length ints
  end.
Proof.
  unfold generateResponse_settled.
  destruct (heap s !! r) as [res|]; [simpl|done].
  set (s1 := with_heap _ s).
  destruct ints as [|item [|item2 rest]].
  - simpl. by intros [= <-].
  - cbn [length Nat.ltb Nat.leb].
    intros H. apply poll_keeps in H as [-> ->]. done.
  - cbn [length Nat.ltb Nat.leb].
    set (s2 := on_mgr _ s1).
    intros H. apply poll_keeps in H as [Hp Hd].
    exists (bump s2). split; [done|]. split; [done|].
    rewrite Hp, Hd. unfold _handleGroupedToolApprovals.
    pose proof (register_group_frame X (fresh_id X "group-" (draws s2))
                  (item :: item2 :: rest) (bump s2)) as F.
    destruct (register_group X (fresh_id X "group-" (draws s2))
                (item :: item2 :: rest) (bump s2)) as [approvals s4] eqn:E.
    destruct F as (_ & _ & _ & _ & _ & F & _).
    change (fresh_id X "group-" (draws s)) with (fresh_id X "group-" (draws s2)).
    rewrite E. split; [done|]. exact F.
Qed.

Lemma step_draws s a s' : step X s a = Some s' -> draws s <= draws s'.
Proof.
  intros H.
  destruct (decide (is_stream_item a = true)) as [Ha|Ha].
  - destruct a as [msg | mcpServers | toolNames | id | id | group ids | group ids
                  | | | i | i snap | i e | i ev | i ints hist | i e | i];
      try discriminate Ha. simpl in H.
    destruct (frames s !! i) as [[]|]; try discriminate H.
    destruct (item_counts ev loc s) as (one & _ & _ & _ & _ & _ & _ & D).
    destruct (process_item X ev loc s) as [loc1 s1]. injection H as <-.
    simpl in *. lia.
  - assert (match a with StreamItem _ _ => False | _ => True end) as Hq
      by (by destruct a).
    by destruct (step_quiet X s a s' H Hq) as (D & _).
Qed.

(** An entry of the pending set after a step was there before it, or was
    drawn by the step. *)
Lemma step_entry s a s' id p :
  step X s a = Some s' ->
  _pendingApprovals (mgr s') !! id = Some p ->
  _pendingApprovals (mgr s) !! id = Some p \/
  (exists n, draws s <= n < draws s' /\ id = fresh_id X "int-" n) /\
  (forall g, groupId p = Some g ->
             exists n, draws s <= n < draws s' /\ g = fresh_id X "group-" n).
Proof.
  intros H Hid.
  destruct a as [msg | mcpServers | toolNames | id' | id' | group ids | group ids
                | | | i | i snap | i e | i ev | i ints hist | i e | i];
    simpl in H.
  - injection H as <-. left. revert Hid. unfold generateResponse. simpl.
    destruct (_agent (mgr s)).
    + by rewrite (proj1 (generateResponse_run_pending _ _ _)).
    + unfold initializeAgent_begin. simpl. by destruct (_isInitializing (mgr s)).
  - injection H as <-. left. revert Hid.
    unfold initializeAgent, initializeAgent_begin.
    destruct (_isInitializing (mgr s)); [done|]. by destruct mcpServers.
  - injection H as <-. left. revert Hid.
    unfold setSelectedTools, initializeAgent_begin.
    simpl. by destruct (_isInitializing (mgr s)).
  - injection H as <-. left. by apply (verdict_entry id' true).
  - injection H as <-. left. by apply (verdict_entry id' false).
  - injection H as <-. left. by apply (grouped_entry true group ids).
  - injection H as <-. left. by apply (grouped_entry false group ids).
  - injection H as <-. simpl in Hid. by rewrite lookup_empty in Hid.
  - injection H as <-. left. revert Hid. unfold stopStreaming.
    by destruct (_controller (mgr s)).
  - destruct (initializeAgent_finish_frame X s)
      as (_ & _ & _ & _ & _ & _ & _ & _ & Hfp & _).
    left. revert Hid.
    destruct (frames s !! i) as [[started m| | | | |]|]; try discriminate H;
      injection H as <-.
    + rewrite (proj1 (generateResponse_run_pending _ _ _)).
      destruct started; [by rewrite Hfp | done].
    + change (_pendingApprovals (mgr (initializeAgent_finish X s)) !! id = Some p
              -> _pendingApprovals (mgr s) !! id = Some p).
      by rewrite Hfp.
  - destruct (frames s !! i) as [[]|]; try discriminate H. injection H as <-.
    by left.
  - destruct (frames s !! i) as [[]|]; try discriminate H. injection H as <-.
    by left.
  - destruct (frames s !! i) as [[]|]; try discriminate H.
    pose proof (process_item_pending X ev loc s) as Hp.
    destruct (process_item X ev loc s) as [loc1 s1]. injection H as <-.
    simpl in *. rewrite Hp in Hid. by left.
  - destruct (frames s !! i) as [[| |r turns loc| | |]|]; try discriminate H.
    apply settled_pending_set in H.
    destruct ints as [|item [|item2 rest]].
    + destruct H as [Hp _]. rewrite Hp in Hid. by left.
    + destruct H as [Hp Hd]. rewrite Hp in Hid.
      apply lookup_insert_Some in Hid as [[E1 E2] | [_ Hid]]; [|by left].
      right. split.
      * exists (draws s). split; [lia | by symmetry].
      * intros g Hg. by rewrite <- E2 in Hg.
    + destruct H as (t & Hp & Hd & Hs & Hd').
      rewrite Hs in Hid.
      apply register_group_entry in Hid as [Hid | (k & Hk & E & Hg)].
      * rewrite Hp in Hid. by left.
      * right. split.
        -- exists (draws t + k). split; [lia | exact E].
        -- intros g Hg'. rewrite Hg in Hg'. injection Hg' as <-.
           exists (draws s). split; [lia | done].
  - destruct (frames s !! i) as [[]|]; try discriminate H. injection H as <-.
    by left.
  - destruct (frames s !! i) as [[| | |r turns| |]|]; try discriminate H.
    destruct (poll_keeps _ _ _ _ _ H) as (Hp & _). rewrite Hp in Hid.
    by left.
Qed.

Lemma drawn_step s a s' : step X s a = Some s' -> drawn X s -> drawn X s'.
Proof.
  intros H D id p Hid.
  pose proof (step_draws s a s' H) as Hd.
  destruct (step_entry s a s' id p H Hid) as [Hold | [(n & Hn & E) Hg]].
  - destruct (D id p Hold) as [(n & Hn & E) Hg]. split.
    + exists n. split; [lia | done].
    + intros g Eg. destruct (Hg g Eg) as (m & Hm & Em).
      exists m. split; [lia | done].
  - split.
    + exists n. split; [lia | done].
    + intros g Eg. destruct (Hg g Eg) as (m & Hm & Em).
      exists m. split; [lia | done].
Qed.

Lemma drawn_exec s acts s' : exec X s acts = Some s' -> drawn X s -> drawn X s'.
Proof.
  revert s. induction acts as [|a rest IH]; intros s H D.
  - by injection H as <-.
  - simpl in H. destruct (step X s a) as [s1|] eqn:E; [|done].
    apply (IH s1 H). by apply (drawn_step s a).
Qed.

Lemma drawn_new options : drawn X (new_AgentManager options).
Proof. intros id p H. simpl in H. by rewrite lookup_empty in H. Qed.

(** Ids that are new and all different add one entry each. *)
Lemma register_group_size group items s :
  (forall a b, fresh_id X "int-" a = fresh_id X "int-" b -> a = b) ->
  (forall k, k < length items ->
             _pendingApprovals (mgr s) !! fresh_id X "int-" (draws s + k) = None) ->
  size (_pendingApprovals (mgr (register_group X group items s).2)) =
    size (_pendingApprovals (mgr s)) + length items.
Proof.
  intros J. revert s. induction items as [|item rest IH]; intros s Hnew; simpl.
  - lia.
  - set (s1 := register _ _ _).
    specialize (IH s1).
    destruct (register_group X group rest s1) as [approvals s2]; simpl in *.
    rewrite IH.
    + subst s1. unfold register. simpl.
      rewrite map_size_insert_None; [lia|].
      specialize (Hnew 0). rewrite Nat.add_0_r in Hnew. apply Hnew. lia.
    + intros k Hk. subst s1. unfold register. simpl.
      rewrite lookup_insert_ne.
      * replace (S (draws s + k)) with (draws s + S k) by lia.
        apply Hnew. lia.
      * intros E. apply J in E. lia.
Qed.

Lemma batch_ids d items :
  interruption_ids (imap (fun k => approval_entry X (d + k)) items) =
  imap (fun k _ => fresh_id X "int-" (d + k)) items.
Proof.
  unfold interruption_ids.
  apply list_eq. intros k.
  rewrite list_lookup_fmap, !list_lookup_imap.
  by destruct (items !! k).
Qed.

Lemma batch_id_elem d items id :
  id ∈ interruption_ids (imap (fun k => approval_entry X (d + k)) items) <->
  exists k, k < length items /\ id = fresh_id X "int-" (d + k).
Proof.
  rewrite batch_ids, elem_of_lookup_imap. split.
  - intros (k & item & -> & Hk). exists k. split; [|done].
    by apply lookup_lt_Some in Hk.
  - intros (k & Hk & ->). apply lookup_lt_is_Some in Hk as [item Hk].
    by exists k, item.
Qed.

(** The pending set once a batch is registered, when no two ids drawn are
    equal and the ids of the set were drawn before. *)
Lemma batch_facts group items t :
  (forall a b, fresh_id X "int-" a = fresh_id X "int-" b -> a = b) ->
  (forall id p, _pendingApprovals (mgr t) !! id = Some p ->
                exists n, n < draws t /\ id = fresh_id X "int-" n) ->
  let t' := (register_group X group items t).2 in
  let ids := interruption_ids (imap (fun k => approval_entry X (draws t + k)) items) in
  NoDup ids /\
  (forall k item,
      items !! k = Some item ->
      _pendingApprovals (mgr t') !! fresh_id X "int-" (draws t + k) =
        Some {| interruption := item; approved := None; groupId := Some group |}) /\
  (forall id, id ∉ ids ->
              _pendingApprovals (mgr t') !! id = _pendingApprovals (mgr t) !! id) /\
  (forall id, id ∈ ids -> _pendingApprovals (mgr t) !! id = None) /\
  size (_pendingApprovals (mgr t')) =
    size (_pendingApprovals (mgr t)) + length items.
Proof.
  intros J Hold t' ids.
  assert (forall k, _pendingApprovals (mgr t) !! fresh_id X "int-" (draws t + k)
                    = None) as New.
  { intros k.
    destruct (_pendingApprovals (mgr t) !! _) as [p|] eqn:E; [|done].
    destruct (Hold _ _ E) as (n & Hn & En). apply J in En. lia. }
  destruct (register_group_lookup group items t J) as (L & O & _).
  split; [|split; [exact L|split; [|split]]].
  - unfold ids. rewrite batch_ids. apply NoDup_alt. intros a b x Ha Hb.
    rewrite list_lookup_imap in Ha, Hb.
    destruct (items !! a); [|done]. destruct (items !! b); [|done].
    simpl in Ha, Hb. rewrite <- Ha in Hb.
    assert (fresh_id X "int-" (draws t + b) = fresh_id X "int-" (draws t + a))
      as E by congruence.
    apply J in E. lia.
  - intros id Hid. apply O. intros k Hk ->. apply Hid.
    apply batch_id_elem. by exists k.
  - intros id Hid. apply batch_id_elem in Hid as (k & _ & ->). apply New.
  - apply (register_group_size group items t J). intros k _. apply New.
Qed.

(** C3: when the run of a call settles with exactly one interruption,
    exactly one [tool_approval_required] event goes out and no
    [grouped_approval_required] event; with more than one, exactly one
    [grouped_approval_required] event goes out, whose list has, in order,
    one entry per interruption: its interruption id, the name of its tool
    (['Unknown Tool'] when it has none) and its arguments (['{}'] when it
    has none) in the form [JSON.stringify(JSON.parse(...), null, 2)] gives
    them, or as they are when they do not parse.  Ids are
    [int-<Date.now()>-<Math.random()>], the group id is
    [group-<Date.now()>-<Math.random()>].  When no two draws give the same
    id, the ids of the batch are all different and none was pending before;
    the pending set gains exactly one entry per interruption, each with its
    interruption, no verdict and the group id; the group id is carried by
    no approval that was pending before, so that in the pending set it
    marks this batch and nothing else.  With no interruption nothing goes
    out and nothing is registered. *)
Theorem approval_event_by_count options acts s i r turns loc ints hist s' :
  exec X (new_AgentManager options) acts = Some s ->
  frames s !! i = Some (GStream r turns loc) ->
  step X s (StreamEnd i ints hist) = Some s' ->
  let stamp n := Date_now X n +:+ "-" +:+ Math_random X n in
  let id n := "int-" +:+ stamp n in
  let pretty input :=
    match JSON_parse X input with
    | Some parsed => JSON_stringify X parsed
    | None => input
    end in
  let entry n item :=
    (id n, or_else (rawItem_name item) "Unknown Tool",
     pretty (or_else (rawItem_arguments item) "{}")) in
  let pending t := _pendingApprovals (mgr t) in
  match ints with
  | [] => out s' = out s /\ pending s' = pending s
  | [item] =>
      out s' = out s ++
        [AgentEvent (tool_approval_required (id (draws s))
           (or_else (rawItem_name item) "Unknown Tool")
           (pretty (or_else (rawItem_arguments item) "{}"))
           (if String.eqb (rawItem_type item) "function_call"
            then rawItem_callId item else None))] /\
      pending s' =
        <[id (draws s) :=
            {| interruption := item; approved := None; groupId := None |}]>
          (pending s) /\
      ((forall a b, id a = id b -> a = b) -> pending s !! id (draws s) = None)
  | _ =>
      let group := "group-" +:+ stamp (draws s) in
      let approvals := imap (fun k => entry (S (draws s) + k)) ints in
      out s' = out s ++ [AgentEvent (grouped_approval_required group approvals)] /\
      length approvals = length ints /\
      ((forall a b, id a = id b -> a = b) ->
       (forall a b, "group-" +:+ stamp a = "group-" +:+ stamp b -> a = b) ->
       NoDup (interruption_ids approvals) /\
       (forall k item,
           ints !! k = Some item ->
           pending s' !! id (S (draws s) + k) =
             Some {| interruption := item; approved := None;
                     groupId := Some group |}) /\
       (forall id', id' ∉ interruption_ids approvals ->
                    pending s' !! id' = pending s !! id') /\
       (forall id', id' ∈ interruption_ids approvals -> pending s !! id' = None) /\
       size (pending s') = size (pending s) + length ints /\
       (forall id' p, pending s !! id' = Some p -> groupId p <> Some group) /\
       (forall id' p,
           pending s' !! id' = Some p ->
           groupId p = Some group <-> id' ∈ interruption_ids approvals))
  end.
Proof.
  intros Hrun Hf Hstep stamp id pretty entry pending.
  pose proof (drawn_exec _ acts s Hrun (drawn_new options)) as D.
  pose proof (settled_approval_events X s i r turns loc ints hist s' Hf Hstep) as E.
  assert (generateResponse_settled X i r turns ints hist s = Some s') as Hs.
  { cbn [step] in Hstep. by rewrite Hf in Hstep. }
  apply settled_pending_set in Hs.
  destruct ints as [|item [|item2 rest]].
  - split; [exact E | exact (proj1 Hs)].
  - split; [exact E|]. split; [exact (proj1 Hs)|].
    intros J. unfold pending.
    destruct (_pendingApprovals (mgr s) !! id (draws s)) as [p|] eqn:L; [|done].
    destruct (D _ _ L) as [(n & Hn & En) _]. apply J in En. lia.
  - set (ints := item :: item2 :: rest) in *.
    destruct E as (O & Len & _).
    destruct Hs as (t & Hp & Hd & Hs & _).
    intros group approvals.
    split; [exact O|]. split; [exact Len|]. intros J G.
    assert (forall id' p, _pendingApprovals (mgr t) !! id' = Some p ->
                          exists n, n < draws t /\ id' = fresh_id X "int-" n) as Hold.
    { intros id' p L. rewrite Hp in L. destruct (D _ _ L) as [(n & Hn & En) _].
      exists n. split; [lia | done]. }
    destruct (batch_facts (fresh_id X "group-" (draws s)) ints t J Hold)
      as (B1 & B2 & B3 & B4 & B5).
    rewrite Hd in B1, B2, B3, B4. rewrite <- Hs in B2, B3, B5.
    rewrite Hp in B3, B4, B5.
    assert (forall id' p, _pendingApprovals (mgr s) !! id' = Some p ->
                          groupId p <> Some group) as Fresh.
    { intros id' p L Eg. destruct (D _ _ L) as [_ Hg].
      destruct (Hg _ Eg) as (n & Hn & En). apply G in En. lia. }
    split; [exact B1|]. split; [exact B2|]. split; [exact B3|].
    split; [exact B4|]. split; [exact B5|]. split; [exact Fresh|].
    intros id' p L. split.
    + intros Eg.
      destruct (decide (id' ∈ interruption_ids approvals)) as [Hin|Hout]; [done|].
      exfalso. pose proof (B3 id' Hout) as Same.
      unfold pending in L. rewrite L in Same. symmetry in Same.
      exact (Fresh id' p Same Eg).
    + intros Hin.
      apply (proj1 (batch_id_elem (S (draws s)) ints id')) in Hin
        as (k & Hk & ->).
      apply lookup_lt_is_Some in Hk as [it Hk].
      pose proof (eq_trans (eq_sym (B2 k it Hk)) L) as L2.
      by injection L2 as <-.
Qed.

End More.

(** * The rest of the file at work *)

Lemma demo_int_ids_distinct a b :
  fresh_id demo_externals "int-" a = fresh_id demo_externals "int-" b -> a = b.
Proof.
  unfold fresh_id. simpl. intros H.
  do 4 apply String.app_inj in H.
  by apply pretty_nat_inj in H.
Qed.

Lemma factory_refuses_empty_key_witness :
  exists e,
    factory anthropicProvider
      {| mo_provider := "anthropic"; mo_model := "claude-sonnet-4-5";
         mo_apiKey := ""; mo_baseURL := None |} = inr e.
Proof.
  apply (proj2 (factory_refuses_empty_key anthropicProvider _
                  ltac:(unfold builtin_providers; apply elem_of_cons; right;
                        apply elem_of_cons; by left))).
  repeat split; done.
Defined.

Lemma factory_model_name_witness :
  lm_modelId {| lm_provider := "anthropic"; lm_modelId := "";
                lm_apiKey := "sk-demo"; lm_baseURL := None |} = "" <->
  "" = "" /\ pi_id anthropicProvider = "anthropic".
Proof.
  exact (proj2 (factory_model_name anthropicProvider
                  {| mo_provider := "anthropic"; mo_model := "";
                     mo_apiKey := "sk-demo"; mo_baseURL := None |}
                  {| lm_provider := "anthropic"; lm_modelId := "";
                     lm_apiKey := "sk-demo"; lm_baseURL := None |}
                  ltac:(unfold builtin_providers; apply elem_of_cons; right;
                        apply elem_of_cons; by left)
                  eq_refl)).
Defined.

Lemma valid_config_is_accepted_witness :
  exists created,
    factory anthropicProvider
      (options_of (demo_provider "claude-sonnet-4-5" "sk-demo")) = inl created /\
    lm_modelId created = pc_model (demo_provider "claude-sonnet-4-5" "sk-demo").
Proof.
  apply (valid_config_is_accepted (mgr demo_ready)
           (demo_provider "claude-sonnet-4-5" "sk-demo")
           builtin_registry anthropicProvider).
  - unfold builtin_providers. apply elem_of_cons; right.
    apply elem_of_cons; by left.
  - vm_compute. reflexivity.
  - vm_compute. reflexivity.
  - vm_compute. reflexivity.
  - vm_compute. reflexivity.
Defined.

Lemma pass_reaches_managers_witness :
  Factory._isInitializing
    (Factory._initializeAgents_finish demo_servers demo_closes demo_connects
       demo_factory) = false /\
  length (Factory._agentManagers
            (Factory._initializeAgents_finish demo_servers demo_closes
               demo_connects demo_factory))
  = length (Factory._agentManagers demo_factory).
Proof.
  assert (Factory._agentManagers demo_factory !! 0 = Some demo_ready) as H
    by reflexivity.
  destruct (pass_reaches_managers demo_externals demo_servers demo_closes
              demo_connects demo_factory 0 demo_ready H) as (A & B & _).
  split; [exact A | exact B].
Defined.

Lemma other_group_is_left_alone_witness :
  approveGroupedToolCalls "group-1762150000000-0.0" ["int-1762150000000-0.1"]
    demo_waiting = demo_waiting /\
  rejectGroupedToolCalls "group-1762150000000-0.0" ["int-1762150000000-0.1"]
    demo_waiting = demo_waiting.
Proof.
  apply other_group_is_left_alone.
  intros id pending Hin Hp.
  apply list_elem_of_singleton in Hin. rewrite Hin in Hp.
  assert (_pendingApprovals (mgr demo_waiting) !! "int-1762150000000-0.1"
          = Some {| interruption := list_files_call; approved := None;
                    groupId := None |}) as E by (vm_compute; reflexivity).
  rewrite E in Hp. injection Hp as <-. discriminate.
Defined.

Lemma first_verdict_wins_witness :
  _pendingApprovals (mgr (approveToolCall "int-1762150000000-0.1" demo_waiting))
    !! "int-1762150000000-0.1" = None /\
  rejectToolCall "int-1762150000000-0.1"
    (approveToolCall "int-1762150000000-0.1" demo_waiting)
  = emit (ConsoleWarn
            ("No pending approval found for interruption "
             +:+ "int-1762150000000-0.1") None)
      (approveToolCall "int-1762150000000-0.1" demo_waiting).
Proof.
  assert (_pendingApprovals (mgr demo_waiting) !! "int-1762150000000-0.1"
          = Some {| interruption := list_files_call; approved := None;
                    groupId := None |}) as E by (vm_compute; reflexivity).
  destruct (first_verdict_wins "int-1762150000000-0.1" _ true false
              demo_waiting E) as (_ & A & B).
  split; [exact A | exact B].
Defined.

Lemma verdict_goes_to_interrupted_state_witness :
  _pendingApprovals
    (mgr (approveToolCall "int-1762150000000-0.1" demo_overtaken))
    !! "int-1762150000000-0.1" = None /\
  heap (approveToolCall "int-1762150000000-0.1" demo_overtaken)
  = heap demo_overtaken.
Proof.
  assert (_pendingApprovals (mgr demo_overtaken) !! "int-1762150000000-0.1"
          = Some {| interruption := list_files_call; approved := None;
                    groupId := None |}) as E by (vm_compute; reflexivity).
  assert (_interruptedState (mgr demo_overtaken) = None) as N
    by (vm_compute; reflexivity).
  destruct (verdict_goes_to_interrupted_state "int-1762150000000-0.1" _ true
              demo_overtaken E) as (_ & _ & _ & A & _ & B & _).
  split; [exact A | exact (B N)].
Defined.

Lemma single_approval_round_trip_witness :
  exists s1 s3,
    step demo_externals demo_streaming (StreamEnd 1 [list_files_call] []) = Some s1 /\
    step demo_externals
      (approveToolCall (fresh_id demo_externals "int-" (draws demo_streaming)) s1)
      (Tick 1) = Some s3 /\
    _pendingApprovals (mgr s3) = ∅.
Proof.
  assert (frames demo_streaming !! 1 =
          Some (GStream 0 25 {| fullResponse := "Let me look.";
                                currentMessageId := None |})) as H1
    by (vm_compute; reflexivity).
  assert (exists res, heap demo_streaming !! 0 = Some res) as [res H2]
    by (eexists; vm_compute; reflexivity).
  assert (_pendingApprovals (mgr demo_streaming) = ∅) as H3
    by (vm_compute; reflexivity).
  assert (exists c, _controller (mgr demo_streaming) = Some c) as [c H4]
    by (eexists; vm_compute; reflexivity).
  destruct (single_approval_round_trip demo_externals demo_streaming 1 0 25 _
              res list_files_call [] c true H1 H2 H3 H4)
    as (s1 & s3 & A & _ & B & _ & C & _).
  exists s1, s3. split; [exact A|]. split; [exact B | exact C].
Defined.

Lemma grouped_approval_round_trip_witness :
  exists s1 s3,
    step demo_externals demo_streaming
      (StreamEnd 1 [list_files_call; delete_file_call] []) = Some s1 /\
    step demo_externals
      (rejectGroupedToolCalls
         (fresh_id demo_externals "group-" (draws demo_streaming))
         (interruption_ids
            (imap (fun k => approval_entry demo_externals (S (draws demo_streaming) + k))
               [list_files_call; delete_file_call]))
         s1)
      (Tick 1) = Some s3 /\
    _pendingApprovals (mgr s3) = ∅.
Proof.
  assert (frames demo_streaming !! 1 =
          Some (GStream 0 25 {| fullResponse := "Let me look.";
                                currentMessageId := None |})) as H1
    by (vm_compute; reflexivity).
  assert (exists res, heap demo_streaming !! 0 = Some res) as [res H2]
    by (eexists; vm_compute; reflexivity).
  assert (_pendingApprovals (mgr demo_streaming) = ∅) as H3
    by (vm_compute; reflexivity).
  assert (exists c, _controller (mgr demo_streaming) = Some c) as [c H4]
    by (eexists; vm_compute; reflexivity).
  assert (1 < length [list_files_call; delete_file_call]) as H5 by (simpl; lia).
  destruct (grouped_approval_round_trip demo_externals demo_streaming 1 0 25 _
              res [list_files_call; delete_file_call] [] c false
              demo_int_ids_distinct H1 H2 H3 H4 H5)
    as (s1 & s3 & A & _ & _ & B & _ & C & _).
  exists s1, s3. split; [exact A|]. split; [exact B | exact C].
Defined.

Lemma one_initialization_at_a_time_witness :
  (_isInitializing (mgr demo_streaming) = true <->
   exists i f, frames demo_streaming !! i = Some f /\ is_initializing f = true) /\
  (forall i j f g,
      frames demo_streaming !! i = Some f -> is_initializing f = true ->
      frames demo_streaming !! j = Some g -> is_initializing g = true -> i = j).
Proof.
  apply (one_initialization_at_a_time demo_externals
           (demo_options "claude-sonnet-4-5" "sk-demo")
           (InitSettled 0 :: CallGenerateResponse "list files" :: RunStarted 1 7
              :: map (StreamItem 1) demo_stream)).
  vm_compute. reflexivity.
Defined.

Lemma controller_is_null_when_idle_witness :
  _controller (mgr demo_ready) = None /\ stopStreaming demo_ready = demo_ready.
Proof.
  apply (controller_is_null_when_idle demo_externals
           (demo_options "claude-sonnet-4-5" "sk-demo") [InitSettled 0]).
  - vm_compute. reflexivity.
  - vm_compute. reflexivity.
Defined.

Lemma runs_are_well_invoked_witness :
  Forall (fun call =>
            match rc_input call with
            | FromHistory items =>
                is_Some (rc_agent call) /\ exists msg, last items = Some (user msg)
            | FromState _ => is_Some (rc_maxTurns call)
            end) (runs demo_overtaken).
Proof.
  apply Forall_forall. intros call Hin.
  apply (runs_are_well_invoked demo_externals
           (demo_options "claude-sonnet-4-5" "sk-demo")
           (InitSettled 0 :: CallGenerateResponse "list files" :: RunStarted 1 7
              :: map (StreamItem 1) demo_stream
              ++ [StreamEnd 1 [list_files_call] [];
                  CallGenerateResponse "and then?"; RunStarted 2 9;
                  StreamEnd 2 [] [user "list files"; user "and then?"]])
           demo_overtaken call).
  - vm_compute. reflexivity.
  - exact Hin.
Defined.


Lemma tool_selection_takes_effect_witness :
  exists i f,
    frames (setSelectedTools ["list_files"; "no_such_tool"] demo_ready) !! i
      = Some f /\
    is_initializing f = true.
Proof.
  assert (exec demo_externals
            (new_AgentManager (demo_options "claude-sonnet-4-5" "sk-demo"))
            [InitSettled 0] = Some demo_ready) as H by (vm_compute; reflexivity).
  destruct (tool_selection_takes_effect demo_externals _ _ demo_ready
              ["list_files"; "no_such_tool"] H) as (i & (f & A & B) & _).
  exists i, f. split; [exact A | exact B].
Defined.

Lemma agent_edges_witness :
  exists agent,
    _agent (mgr (initializeAgent_finish demo_externals
                   (new_AgentManager (demo_options "claude-sonnet-4-5" "sk-demo"))))
      = Some agent /\
    instructions agent = progressReportingPrompt demo_externals.
Proof.
  assert (exists agent,
            _agent (mgr (initializeAgent_finish demo_externals
                           (new_AgentManager
                              (demo_options "claude-sonnet-4-5" "sk-demo"))))
            = Some agent) as [agent H] by (eexists; vm_compute; reflexivity).
  exists agent. split; [exact H|].
  destruct (agent_edges demo_externals _ agent H) as (_ & _ & _ & A & _).
  rewrite A; [|reflexivity].
  assert (shouldUseTools
            (mgr (new_AgentManager (demo_options "claude-sonnet-4-5" "sk-demo")))
          = true) as -> by (vm_compute; reflexivity).
  reflexivity.
Defined.

Lemma successful_call_witness :
  exists s',
    exec demo_externals demo_ready
      (CallGenerateResponse "list files"
         :: RunStarted (length (frames demo_ready)) 7
         :: map (StreamItem (length (frames demo_ready))) demo_stream
         ++ [StreamEnd (length (frames demo_ready)) [] [user "list files"]])
    = Some s' /\
    _history (mgr s') = [user "list files"] /\
    _controller (mgr s') = None.
Proof.
  assert (exists agent, _agent (mgr demo_ready) = Some agent) as [agent H]
    by (eexists; vm_compute; reflexivity).
  destruct (successful_call demo_externals demo_ready "list files" agent 7
              demo_stream [user "list files"] H)
    as (s' & call & A & _ & _ & _ & _ & _ & _ & _ & B & C & _).
  exists s'. split; [exact A|]. split; [exact B | exact C].
Defined.

Lemma clear_during_a_run_does_not_last_witness :
  exists s',
    step demo_externals (clearHistory demo_streaming)
      (StreamEnd 1 [] [user "list files"]) = Some s' /\
    _history (mgr (clearHistory demo_streaming)) = [] /\
    _history (mgr s') = [user "list files"].
Proof.
  assert (frames demo_streaming !! 1 =
          Some (GStream 0 25 {| fullResponse := "Let me look.";
                                currentMessageId := None |})) as H1
    by (vm_compute; reflexivity).
  assert (exists res, heap demo_streaming !! 0 = Some res) as [res H2]
    by (eexists; vm_compute; reflexivity).
  destruct (clear_during_a_run_does_not_last demo_externals demo_streaming 1 0 25
              _ res [user "list files"] H1 H2) as (s' & A & B & C & _).
  exists s'. split; [exact A|]. split; [exact B | exact C].
Defined.

Lemma resume_without_controller_witness :
  exists s',
    step demo_externals
      (approveToolCall "int-1762150000000-0.1" demo_overtaken) (Tick 1) = Some s' /\
    out s' =
      out (approveToolCall "int-1762150000000-0.1" demo_overtaken)
      ++ [AgentEvent (error null_signal)] /\
    runs s' = runs (approveToolCall "int-1762150000000-0.1" demo_overtaken).
Proof.
  assert (frames (approveToolCall "int-1762150000000-0.1" demo_overtaken) !! 1
          = Some (GWait 0 25)) as H1 by (vm_compute; reflexivity).
  assert (_pendingApprovals
            (mgr (approveToolCall "int-1762150000000-0.1" demo_overtaken)) = ∅)
    as H2 by (vm_compute; reflexivity).
  assert (exists res,
            heap (approveToolCall "int-1762150000000-0.1" demo_overtaken) !! 0
            = Some res) as [res H3] by (eexists; vm_compute; reflexivity).
  assert (_controller
            (mgr (approveToolCall "int-1762150000000-0.1" demo_overtaken)) = None)
    as H4 by (vm_compute; reflexivity).
  destruct (resume_without_controller demo_externals _ 1 0 25 res H1 H2 H3 H4)
    as (s' & A & B & C & _).
  exists s'. split; [exact A|]. split; [exact B | exact C].
Defined.

Lemma calls_emit_no_agent_event_witness :
  agent_events (out (clearHistory demo_waiting)) = agent_events (out demo_waiting).
Proof.
  apply (calls_emit_no_agent_event demo_externals demo_waiting CallClearHistory);
    reflexivity.
Defined.

Lemma message_events_come_from_streams_witness :
  exists new,
    out (demo_run demo_waiting demo_idle_trace) = out demo_waiting ++ new /\
    forallb (fun o => negb (is_message_event o)) new = true.
Proof.
  apply (message_events_come_from_streams demo_externals demo_waiting
           demo_idle_trace).
  - vm_compute. reflexivity.
  - reflexivity.
Defined.

Lemma pending_approvals_were_announced_witness :
  is_Some (_pendingApprovals (mgr demo_waiting) !! "int-1762150000000-0.1") /\
  existsb (announces "int-1762150000000-0.1") (out demo_waiting) = true.
Proof.
  assert (is_Some (_pendingApprovals (mgr demo_waiting) !! "int-1762150000000-0.1"))
    as H by (eexists; vm_compute; reflexivity).
  split; [exact H|].
  apply (pending_approvals_were_announced demo_externals
           (demo_options "claude-sonnet-4-5" "sk-demo")
           (InitSettled 0 :: CallGenerateResponse "list files" :: RunStarted 1 7
              :: map (StreamItem 1) demo_stream
              ++ [StreamEnd 1 [list_files_call] []])).
  - vm_compute. reflexivity.
  - exact H.
Defined.

Lemma demo_group_ids_distinct a b :
  fresh_id demo_externals "group-" a = fresh_id demo_externals "group-" b -> a = b.
Proof.
  unfold fresh_id. simpl. intros H.
  do 4 apply String.app_inj in H.
  by apply pretty_nat_inj in H.
Qed.

Lemma approval_event_by_count_witness :
  out demo_batch =
    out demo_streaming ++
      [AgentEvent
         (grouped_approval_required "group-1762150000000-0.1"
            [("int-1762150000000-0.2", "list_files", "{}");
             ("int-1762150000000-0.3", "delete_file", "{ path }");
             ("int-1762150000000-0.4", "clear_outputs", "{}");
             ("int-1762150000000-0.5", "Unknown Tool", "{}")])] /\
  NoDup ["int-1762150000000-0.2"; "int-1762150000000-0.3";
         "int-1762150000000-0.4"; "int-1762150000000-0.5"] /\
  size (_pendingApprovals (mgr demo_batch)) =
    size (_pendingApprovals (mgr demo_streaming)) + 4.
Proof.
  assert (exec demo_externals
            (new_AgentManager (demo_options "claude-sonnet-4-5" "sk-demo"))
            (InitSettled 0 :: CallGenerateResponse "list files" :: RunStarted 1 7
               :: map (StreamItem 1) demo_stream) = Some demo_streaming) as H0
    by (vm_compute; reflexivity).
  assert (frames demo_streaming !! 1 =
          Some (GStream 0 25 {| fullResponse := "Let me look.";
                                currentMessageId := None |})) as H1
    by (vm_compute; reflexivity).
  assert (step demo_externals demo_streaming
            (StreamEnd 1 [list_files_call; delete_file_call; clear_outputs_call;
                          bare_call] [])
          = Some demo_batch) as H2 by (vm_compute; reflexivity).
  pose proof (approval_event_by_count demo_externals _ _ demo_streaming 1 0 25 _
                [list_files_call; delete_file_call; clear_outputs_call; bare_call]
                [] demo_batch H0 H1 H2) as W.
  cbv beta zeta iota in W.
  destruct W as (O & _ & F).
  destruct (F demo_int_ids_distinct demo_group_ids_distinct)
    as (N & _ & _ & _ & Sz & _).
  split; [|split; [|exact Sz]].
  - etrans; [exact O|]. vm_compute. reflexivity.
  - refine (eq_rect _ NoDup N _ _). vm_compute. reflexivity.
Defined.
